(** * Ocean pollution mapping: transport protocol and ingestion pipeline

  A shallow embedding of the sender side ([RaspberryPi/communications.py]:
  the AT transaction function, the MQTT session set-up and the other modem
  sequences, the chunking encoder and the framing transmitter; and the two
  places where [RaspberryPi/main.py] drives the modem) and of the receiver
  side ([AWS/pullS3.py]: the ingestion scanner and the dedup and
  aggregation store), with the properties of the specification and further
  properties of the code proved over it.

  Conventions.  Python [bytes] are [list byte]; Python [str] is a list of
  code points ([list N]); [str.encode()] and [bytes.decode()] are the
  strict UTF-8 codecs and can raise.  A Python function that can raise
  returns an [outcome].  [print] calls have no effect on any value the
  properties mention and are left out. *)

From Stdlib Require Import Strings.Byte Strings.Ascii Strings.String Numbers.DecimalString QArith Lqa.
From stdpp Require Import gmap list numbers.

Local Open Scope Z_scope.

(** ** Exceptions and the outcome of a call *)

Inductive exn : Type :=
  | UnicodeDecodeError
  | UnicodeEncodeError
  | ValueError
  | BinasciiError
  | TypeError
  | IndexError
  | AttributeError
  | UnidentifiedImageError
  | OSError.

Inductive outcome (A : Type) : Type :=
  | Return (a : A)
  | Raise (e : exn).
Arguments Return {A} a.
Arguments Raise {A} e.

Definition obind {A B} (o : outcome A) (k : A -> outcome B) : outcome B :=
  match o with
  | Return a => k a
  | Raise e => Raise e
  end.

Definition omap {A B} (f : A -> B) (o : outcome A) : outcome B :=
  obind o (fun a => Return (f a)).

Definition or_raise {A} (e : exn) (o : option A) : outcome A :=
  match o with
  | Some a => Return a
  | None => Raise e
  end.

(** ** Python built-ins used by the two modules *)

Module Py.

Definition bytes := list byte.
Definition str := list N.

(** A literal of the source, written as a Rocq string of ASCII characters. *)
Definition lit (s : string) : str := map N_of_ascii (list_ascii_of_string s).

Definition b2n (b : byte) : N := Byte.to_N b.
Definition n2b (n : N) : byte := default x00 (Byte.of_N n).

(** *** [str.encode()] : strict UTF-8 *)

Definition encode_cp (c : N) : option bytes :=
  (if c <? 0x80 then Some [n2b c]
   else if c <? 0x800 then Some [n2b (0xC0 + c / 64); n2b (0x80 + c mod 64)]
   else if c <? 0x10000 then
     if (0xD800 <=? c) && (c <=? 0xDFFF) then None
     else Some [n2b (0xE0 + c / 4096); n2b (0x80 + (c / 64) mod 64);
                n2b (0x80 + c mod 64)]
   else if c <? 0x110000 then
     Some [n2b (0xF0 + c / 262144); n2b (0x80 + (c / 4096) mod 64);
           n2b (0x80 + (c / 64) mod 64); n2b (0x80 + c mod 64)]
   else None)%N.

Fixpoint encode (s : str) : option bytes :=
  match s with
  | [] => Some []
  | c :: t =>
      match encode_cp c, encode t with
      | Some h, Some r => Some (h ++ r)
      | _, _ => None
      end
  end.

(** *** [bytes.decode()] : strict UTF-8 *)

(** Payload bits of a continuation byte [10xxxxxx]. *)
Definition cont (b : byte) : option N :=
  (let n := b2n b in
   if (0x80 <=? n) && (n <=? 0xBF) then Some (n - 0x80) else None)%N.

Fixpoint decode (bs : bytes) : option str :=
  match bs with
  | [] => Some []
  | b0 :: r0 =>
      let n0 := b2n b0 in
      if (n0 <? 0x80)%N then cons n0 <$> decode r0
      else if (n0 <? 0xC2)%N then None
      else if (n0 <? 0xE0)%N then
        match r0 with
        | b1 :: r1 =>
            match cont b1 with
            | Some c1 => cons ((n0 - 0xC0) * 64 + c1)%N <$> decode r1
            | None => None
            end
        | _ => None
        end
      else if (n0 <? 0xF0)%N then
        match r0 with
        | b1 :: b2 :: r2 =>
            match cont b1, cont b2 with
            | Some c1, Some c2 =>
                let cp := (((n0 - 0xE0) * 64 + c1) * 64 + c2)%N in
                if (cp <? 0x800)%N || ((0xD800 <=? cp)%N && (cp <=? 0xDFFF)%N)
                then None
                else cons cp <$> decode r2
            | _, _ => None
            end
        | _ => None
        end
      else if (n0 <? 0xF5)%N then
        match r0 with
        | b1 :: b2 :: b3 :: r3 =>
            match cont b1, cont b2, cont b3 with
            | Some c1, Some c2, Some c3 =>
                let cp := ((((n0 - 0xF0) * 64 + c1) * 64 + c2) * 64 + c3)%N in
                if (cp <? 0x10000)%N || (0x10FFFF <? cp)%N
                then None
                else cons cp <$> decode r3
            | _, _, _ => None
            end
        | _ => None
        end
      else None
  end.

(** *** [needle in hay] on [str] *)

Fixpoint startswith (p s : str) : bool :=
  match p, s with
  | [], _ => true
  | _ :: _, [] => false
  | a :: p', b :: s' => (a =? b)%N && startswith p' s'
  end.

Fixpoint contains (needle hay : str) : bool :=
  startswith needle hay ||
  match hay with
  | [] => false
  | _ :: t => contains needle t
  end.

Definition str_eqb (a b : str) : bool := bool_decide (a = b).

(** *** [s.replace(c, '')] for a one-character [c] *)

Definition remove_char (c : N) (s : str) : str :=
  List.filter (fun x => negb (x =? c)%N) s.

(** *** [s.split(c)] for a one-character separator [c] *)

Fixpoint split (sep : N) (s : str) : list str :=
  match s with
  | [] => [[]]
  | c :: t =>
      if (c =? sep)%N then [] :: split sep t
      else match split sep t with
           | h :: r => (c :: h) :: r
           | [] => [[c]]
           end
  end.

(** *** Slicing [l[i:j]] (step 1), with Python's treatment of negative and
    out-of-range bounds *)

Definition clamp_index (len i : Z) : Z :=
  if i <? 0 then Z.max 0 (i + len) else Z.min i len.

Definition slice {A} (l : list A) (i j : Z) : list A :=
  let len := Z.of_nat (length l) in
  let lo := clamp_index len i in
  let hi := clamp_index len j in
  take (Z.to_nat (hi - lo)) (drop (Z.to_nat lo) l).

(** *** [range(start, stop, step)]; [ValueError] when [step] is zero *)

Definition range_len (start stop step : Z) : Z :=
  if 0 <? step then Z.max 0 ((stop - start + step - 1) / step)
  else Z.max 0 ((start - stop - step - 1) / (- step)).

Definition range (start stop step : Z) : outcome (list Z) :=
  if step =? 0 then Raise ValueError
  else Return (map (fun k => start + Z.of_nat k * step)
                   (seq 0 (Z.to_nat (range_len start stop step)))).

(** *** [str.format] of a non-negative integer into a [{}] field *)

Definition str_of_nat (n : nat) : str :=
  lit (NilZero.string_of_uint (Nat.to_uint n)).

(** *** [binascii.hexlify] and [binascii.unhexlify] *)

Definition hex_digit (n : N) : byte :=
  (if n <? 10 then n2b (48 + n) else n2b (87 + n))%N.

Definition hexlify (bs : bytes) : bytes :=
  flat_map (fun b => [hex_digit (b2n b / 16)%N; hex_digit (b2n b mod 16)%N]) bs.

Definition hex_value (b : byte) : option N :=
  (let n := b2n b in
   if (48 <=? n) && (n <=? 57) then Some (n - 48)
   else if (97 <=? n) && (n <=? 102) then Some (n - 87)
   else if (65 <=? n) && (n <=? 70) then Some (n - 55)
   else None)%N.

Fixpoint unhexlify (bs : bytes) : outcome bytes :=
  match bs with
  | [] => Return []
  | [_] => Raise BinasciiError
  | h :: l :: r =>
      match hex_value h, hex_value l with
      | Some a, Some b =>
          obind (unhexlify r) (fun t => Return (n2b (a * 16 + b)%N :: t))
      | _, _ => Raise BinasciiError
      end
  end.

End Py.

(** ** A state monad with exceptions

  [M S A] is a computation over a mutable store [S] that returns an [A] or
  raises; the store keeps whatever was written before the exception. *)

Definition M (S A : Type) : Type := S -> outcome A * S.

Definition ret {S A} (a : A) : M S A := fun s => (Return a, s).
Definition throw {S A} (e : exn) : M S A := fun s => (Raise e, s).
Definition bind {S A B} (c : M S A) (k : A -> M S B) : M S B :=
  fun s => match c s with
           | (Return a, s') => k a s'
           | (Raise e, s') => (Raise e, s')
           end.
Definition lift {S A} (o : outcome A) : M S A := fun s => (o, s).
Definition get {S} : M S S := fun s => (Return s, s).
Definition modify {S} (f : S -> S) : M S unit := fun s => (Return tt, f s).

Notation "x <- c ;; k" := (bind c (fun x => k))
  (at level 100, c at next level, right associativity).
Notation "c ;; k" := (bind c (fun _ => k))
  (at level 100, right associativity).

(** ** [RaspberryPi/communications.py] *)

Module Comm.

(** *** The serial channel

    [ser] is the process-wide [serial.Serial] handle.  Its input buffer is
    [rx]; the modem is the environment: [arrivals] lists the bytes it
    delivers during each following [time.sleep] call, in order (nothing
    once the list is used up).  [trace] records what the program did on
    the channel, oldest first. *)

Inductive event : Type :=
  | Write (data : Py.bytes)
  | Sleep (seconds : Q)
  | Read (data : Py.bytes).

Record serial : Type := mkSerial {
    rx : Py.bytes;
    arrivals : list Py.bytes;
    trace : list event
  }.

Definition ser_write (data : Py.bytes) : M serial unit :=
  modify (fun s => mkSerial (rx s) (arrivals s) (trace s ++ [Write data])).

(** [time.sleep(d)]: a negative [d] raises [ValueError] at once, before
    any time passes. *)
Definition time_sleep (d : Q) : M serial unit :=
  if Qle_bool 0 d
  then modify (fun s => mkSerial (rx s ++ List.hd [] (arrivals s))
                                 (List.tl (arrivals s))
                                 (trace s ++ [Sleep d]))
  else throw ValueError.

Definition ser_inWaiting : M serial nat :=
  s <- get ;; ret (length (rx s)).

Definition ser_read (n : nat) : M serial Py.bytes :=
  s <- get ;;
  modify (fun s => mkSerial (drop n (rx s)) (arrivals s)
                            (trace s ++ [Read (take n (rx s))])) ;;
  ret (take n (rx s)).

Definition CRLF : Py.str := [13; 10]%N.
Definition dq : Py.str := [34]%N.

(** *** [AT(command, back, timeout)]

    Returns [Some 0] ([return 0]), [Some 1] ([return 1]) or [None] (the
    function falls off its end).  [rec_buff] starts as the [str] [''] and
    becomes a [bytes] value once something was read; a [bytes] value is
    never equal to [''], so [rec_buff != ''] holds exactly when the read
    took place: [rec_buff] is [None] for [''] and [Some b] for bytes. *)
Definition AT (command back : Py.str) (timeout : Q) : M serial (option Z) :=
  data <- lift (or_raise UnicodeEncodeError (Py.encode (command ++ CRLF))) ;;
  ser_write data ;;
  time_sleep timeout ;;
  n <- ser_inWaiting ;;
  rec_buff <- (if bool_decide (n ≠ 0%nat)
               then time_sleep (1 # 10) ;;
                    n' <- ser_inWaiting ;;
                    b <- ser_read n' ;;
                    ret (Some b)
               else ret None) ;;
  match rec_buff with
  | Some b =>
      text <- lift (or_raise UnicodeDecodeError (Py.decode b)) ;;
      if negb (Py.contains back text) then ret (Some 0) else ret (Some 1)
  | None => ret None
  end.

Definition write_str (s : Py.str) : M serial unit :=
  data <- lift (or_raise UnicodeEncodeError (Py.encode s)) ;;
  ser_write data.

(** *** [mqtt_conn(topic, message, endpoint, port)] *)

Definition cmd_start : Py.str := Py.lit "AT+CMQTTSTART".
Definition cmd_accq : Py.str :=
  Py.lit "AT+CMQTTACCQ=0," ++ dq ++ Py.lit "SIMCom_client01" ++ dq ++ Py.lit ",1".
Definition cmd_sslcfg : Py.str := Py.lit "AT+CMQTTSSLCFG=0,0".
Definition cmd_willtopic (topic : Py.str) : Py.str :=
  Py.lit "AT+CMQTTWILLTOPIC=0," ++ Py.str_of_nat (length topic).
Definition cmd_willmsg (message : Py.str) : Py.str :=
  Py.lit "AT+CMQTTWILLMSG=0," ++ Py.str_of_nat (length message) ++ Py.lit ",1".
Definition cmd_connect (endpoint port : Py.str) : Py.str :=
  Py.lit "AT+CMQTTCONNECT=0," ++ dq ++ Py.lit "tcp://" ++ endpoint ++ Py.lit ":"
    ++ port ++ dq ++ Py.lit ",60,1".

Definition mqtt_conn (topic message endpoint port : Py.str) : M serial unit :=
  AT cmd_start (Py.lit "+CMQTTSTART: 0") 1 ;;
  AT cmd_accq (Py.lit "OK") 1 ;;
  AT cmd_sslcfg (Py.lit "OK") 1 ;;
  AT (cmd_willtopic topic) (Py.lit ">") 2 ;;
  write_str topic ;;
  time_sleep 2 ;;
  AT (cmd_willmsg message) (Py.lit ">") 2 ;;
  write_str message ;;
  time_sleep 2 ;;
  AT (cmd_connect endpoint port) (Py.lit "+CMQTTCONNECT: 0,0") 4 ;;
  ret tt.

Definition default_topic : Py.str := Py.lit "aws/things/simcom7600_device01/".
Definition default_message : Py.str := Py.lit "SIMCom Connected!".
Definition default_endpoint : Py.str :=
  Py.lit "a34ql9bpsx9ogl-ats.iot.eu-west-2.amazonaws.com".
Definition default_port : Py.str := Py.lit "8883".

(** *** [mqtt_pub(payload, topic, raw)]

    The payload is a [str] (written encoded when [raw] is false) or a
    [bytes] value (written as it is when [raw] is true). *)

Inductive payload : Type :=
  | PStr (s : Py.str)
  | PBytes (b : Py.bytes).

Definition payload_len (p : payload) : nat :=
  match p with
  | PStr s => length s
  | PBytes b => length b
  end.

Definition mqtt_pub (p : payload) (topic : Py.str) (raw : bool) : M serial unit :=
  AT (Py.lit "AT+CMQTTTOPIC=0," ++ Py.str_of_nat (length topic)) (Py.lit ">") 2 ;;
  write_str topic ;;
  time_sleep 2 ;;
  AT (Py.lit "AT+CMQTTPAYLOAD=0," ++ Py.str_of_nat (payload_len p)) (Py.lit ">") 2 ;;
  match raw, p with
  | false, PStr s => write_str s
  | false, PBytes _ => throw AttributeError
  | true, PBytes b => ser_write b
  | true, PStr _ => throw TypeError
  end ;;
  time_sleep 2 ;;
  AT (Py.lit "AT+CMQTTPUB=0,1,60") (Py.lit "+CMQTTPUB: 0,0") 1 ;;
  ret tt.

(** *** [imgToChunks(byte_arr, chunk_size)]

    The comprehension [[byte_arr[i:i + x] for i in range(0, len(byte_arr), x)]]. *)
Definition imgToChunks (byte_arr : Py.bytes) (chunk_size : Z)
  : outcome (list Py.bytes) :=
  obind (Py.range 0 (Z.of_nat (length byte_arr)) chunk_size) (fun idx =>
  Return (map (fun i => Py.slice byte_arr i (i + chunk_size)) idx)).

(** *** [mqtt_sendimg(msgs, headers)]

    [headers] holds [str(metadata)] for each entry of the source's list;
    [None] and the empty list behave alike and are both []. *)

Definition start_header (headers : list Py.str) : Py.str :=
  fold_left (fun header metadata => header ++ Py.lit "," ++ metadata) headers
            (Py.lit "{Image Start")
  ++ Py.lit "}".

Definition image_end : Py.str := Py.lit "{Image End}".

Fixpoint for_msgs (msgs : list Py.bytes) : M serial unit :=
  match msgs with
  | [] => ret tt
  | msg :: rest =>
      mqtt_pub (PBytes (Py.hexlify msg)) default_topic true ;;
      for_msgs rest
  end.

Definition mqtt_sendimg (msgs : list Py.bytes) (headers : list Py.str)
  : M serial unit :=
  mqtt_pub (PStr (start_header headers)) default_topic false ;;
  for_msgs msgs ;;
  mqtt_pub (PStr image_end) default_topic false.

End Comm.

(** ** The other modem sequences of [communications.py] *)

Module Modem.

(** [send_sms(phone_num, message)]; [b'\x1a'.decode()] is the one
    character of code point 26. *)
Definition send_sms (phone_num message : Py.str) : M Comm.serial unit :=
  Comm.AT (Py.lit "AT+CMGF=1") (Py.lit "OK") 1 ;;
  Comm.AT (Py.lit "AT+CMGS=" ++ Comm.dq ++ phone_num ++ Comm.dq) (Py.lit ">") 2 ;;
  Comm.write_str message ;;
  Comm.AT [26%N] (Py.lit "OK") 5 ;;
  ret tt.

(** [init_checks()] *)
Definition init_checks : M Comm.serial unit :=
  Comm.AT (Py.lit "AT+CPIN?") (Py.lit "OK") 1 ;;
  Comm.AT (Py.lit "AT+CGMM") (Py.lit "OK") 1 ;;
  Comm.AT (Py.lit "AT+CGMR") (Py.lit "OK") 1 ;;
  Comm.AT (Py.lit "AT+GSN") (Py.lit "OK") 1 ;;
  Comm.AT (Py.lit "AT+COPS?") (Py.lit "OK") 1 ;;
  Comm.AT (Py.lit "AT+CSQ") (Py.lit "OK") 1 ;;
  Comm.AT (Py.lit "AT+CPSI?") (Py.lit "OK") 1 ;;
  Comm.AT (Py.lit "AT+CGREG") (Py.lit "OK") 1 ;;
  Comm.AT (Py.lit "AT+CGACT?") (Py.lit "OK") 1 ;;
  Comm.AT (Py.lit "AT+CGPADDR") (Py.lit "OK") 1 ;;
  ret tt.

(** [ssl_config()] *)
Definition ssl_config : M Comm.serial unit :=
  Comm.AT (Py.lit "AT+CCERTLIST") (Py.lit "OK") 2 ;;
  Comm.AT (Py.lit "AT+CSSLCFG=" ++ Comm.dq ++ Py.lit "sslversion" ++ Comm.dq
             ++ Py.lit ",0,4") (Py.lit "OK") 1 ;;
  Comm.AT (Py.lit "AT+CSSLCFG=" ++ Comm.dq ++ Py.lit "authmode" ++ Comm.dq
             ++ Py.lit ",0,2") (Py.lit "OK") 1 ;;
  Comm.AT (Py.lit "AT+CSSLCFG=" ++ Comm.dq ++ Py.lit "cacert" ++ Comm.dq
             ++ Py.lit ",0," ++ Comm.dq ++ Py.lit "cacert.pem" ++ Comm.dq)
          (Py.lit "OK") 1 ;;
  Comm.AT (Py.lit "AT+CSSLCFG=" ++ Comm.dq ++ Py.lit "clientcert" ++ Comm.dq
             ++ Py.lit ",0," ++ Comm.dq ++ Py.lit "clientcert.pem" ++ Comm.dq)
          (Py.lit "OK") 1 ;;
  Comm.AT (Py.lit "AT+CSSLCFG=" ++ Comm.dq ++ Py.lit "clientkey" ++ Comm.dq
             ++ Py.lit ",0," ++ Comm.dq ++ Py.lit "clientkey.pem" ++ Comm.dq)
          (Py.lit "OK") 1 ;;
  ret tt.

(** [mqtt_disc()] *)
Definition mqtt_disc : M Comm.serial unit :=
  Comm.AT (Py.lit "AT+CMQTTDISC=0,120") (Py.lit "OK") 1 ;;
  Comm.AT (Py.lit "AT+CMQTTREL=0") (Py.lit "OK") 1 ;;
  Comm.AT (Py.lit "AT+CMQTTSTOP") (Py.lit "OK") 1 ;;
  ret tt.

(** [mqtt_sub(topic)] *)
Definition mqtt_sub (topic : Py.str) : M Comm.serial unit :=
  Comm.AT (Py.lit "AT+CMQTTSUBTOPIC=0," ++ Py.str_of_nat (length topic) ++ Py.lit ",1")
          (Py.lit ">") 2 ;;
  Comm.write_str topic ;;
  Comm.time_sleep 2 ;;
  Comm.AT (Py.lit "AT+CMQTTSUB=0") (Py.lit "OK") 1 ;;
  ret tt.

(** [gps_init()], [gps_getpos()] and [gps_disc()] *)
Definition gps_init : M Comm.serial unit :=
  Comm.AT (Py.lit "AT+CGPS=1,1") (Py.lit "OK") 1 ;; ret tt.

Definition gps_getpos : M Comm.serial unit :=
  Comm.AT (Py.lit "AT+CGPSINFO") (Py.lit "+CGNSINF: ") 1 ;; ret tt.

Definition gps_disc : M Comm.serial unit :=
  Comm.AT (Py.lit "AT+CGPS=0") (Py.lit "OK") 1 ;; ret tt.

End Modem.

(** ** What [RaspberryPi/main.py] does with the modem *)

Module Main.

(** [str(l)] of a list, given [repr] of each of its items: the items
    between square brackets, separated by a comma and a space. *)
Definition str_of_list (items : list Py.str) : Py.str :=
  Py.lit "[" ++
  match items with
  | [] => []
  | x :: l => x ++ flat_map (fun y => Py.lit ", " ++ y) l
  end ++ Py.lit "]".

(** The headers of line 161, [[lat, lon, num, envs]], as [mqtt_sendimg]
    sees them through [str]: [envs] is the list [data()] returns. *)
Definition headers (lat lon num : Py.str) (envs : list Py.str) : list Py.str :=
  [lat; lon; num; str_of_list envs].

(** Lines 122 to 124 of [main()]: [comm.init_checks()], [comm.ssl_config()],
    [comm.mqtt_conn()]. *)
Definition set_up : M Comm.serial unit :=
  Modem.init_checks ;;
  Modem.ssl_config ;;
  Comm.mqtt_conn Comm.default_topic Comm.default_message Comm.default_endpoint
                 Comm.default_port.

(** Lines 160 and 161: [msgs = comm.imgToChunks(img)] at the default chunk
    size, then [comm.mqtt_sendimg(msgs, [lat, lon, num, envs])], given
    [str] of each of the four headers. *)
Definition send (img : Py.bytes) (headers : list Py.str) : M Comm.serial unit :=
  msgs <- lift (Comm.imgToChunks img 5120) ;;
  Comm.mqtt_sendimg msgs headers.

End Main.

(** ** [AWS/pullS3.py] *)

(** Library values the module computes with but does not define: the
  [datetime] objects boto3 returns as [LastModified], Python's [float], and
  PIL's image codec.  Each field is the library operation named next to it. *)
Class Externals : Type := {
  datetime : Type;
  datetime_eq_dec :: EqDecision datetime;
  (** [str(dt)] *)
  dt_str : datetime -> Py.str;
  (** [(dt.replace(tzinfo=None) - dt.min).seconds] *)
  dt_seconds : datetime -> Z;
  (** [dt.microsecond] *)
  dt_microsecond : datetime -> Z;
  (** [dt + datetime.timedelta(0, seconds, microseconds)] *)
  dt_add : datetime -> Z -> Z -> datetime;
  float : Type;
  (** [float(s)]; [None] when it raises [ValueError] *)
  float_of_str : Py.str -> option float;
  (** [float(n)] for an [int] *)
  float_of_int : Z -> float;
  (** [x + y] on floats *)
  float_add : float -> float -> float;
  (** [Image.open(BytesIO(b))] followed by [im.save(path)]: the PNG file
      content written at [path], or the exception PIL raises:
      [UnidentifiedImageError] from [Image.open], [OSError] from a decoder
      or from the file system at [im.save], or any other.  A save that
      raises is taken to leave the asset directory as it was. *)
  png_of : Py.bytes -> Py.str -> outcome Py.bytes
  }.

Module S3.
Section WithExternals.

Context `{E : Externals}.

(** [datetimeToString(dt)] *)
Definition datetimeToString (dt : datetime) : Py.str :=
  Py.slice (dt_str dt) 0 10 ++ Py.lit "-" ++ Py.slice (dt_str dt) 11 13
    ++ Py.lit "-" ++ Py.slice (dt_str dt) 14 16 ++ Py.lit "-"
    ++ Py.slice (dt_str dt) 17 19.

(** [roundTime(dt, roundTo)].  [(seconds + roundTo / 2) // roundTo] is a
    floor of the exact quotient, written over the integers as
    [(2 * seconds + roundTo) / (2 * roundTo)]. *)
Definition roundTime (dt : datetime) (roundTo : Z) : datetime :=
  let seconds := dt_seconds dt in
  let rounding := (2 * seconds + roundTo) / (2 * roundTo) * roundTo in
  dt_add dt (rounding - seconds) (- dt_microsecond dt).

(** An object of the bucket: [obj.get()['Body'].read()] and
    [obj.get()['LastModified']]. *)
Record s3object : Type := mkObject {
    Body : Py.bytes;
    LastModified : datetime
  }.

(** An entry of [images]: [(arr, LastModified, metadata)]. *)
Definition image : Type := Py.bytes * datetime * option (list Py.str).

(** A row of [map_data]. *)
Record row : Type := mkRow {
    Number_of_Clusters : float;
    Date : Py.str;
    lat : float;
    lon : float;
    temp : float;
    humidity : float;
    pressure : float;
    pitch : float;
    roll : float;
    yaw : float;
    _size_ : float
  }.

(** The instance: its attributes, and the files under [./assets/] it
    writes ([assets] maps a path to the file content). *)
Record pullS3 : Type := mkPullS3 {
    files : list Py.str;
    mostRecent : option Py.str;
    map_data : list row;
    hourly : list (datetime * Z);
    assets : gmap Py.str Py.bytes
  }.

(** [__init__] (with an empty asset directory) *)
Definition init : pullS3 := mkPullS3 [] None [] [] ∅.

(** *** The ingestion scanner: the first loop of [pull]

    [arr] is unbound until the first Start object; it is only read while
    [parsing] is true, which a Start object sets after binding [arr], so it
    starts here as the empty array.  The tuple appended to [images] holds
    the [bytearray] itself; it is not extended afterwards, because
    [parsing] is false until the next Start object rebinds [arr]. *)
Record scan_state : Type := mkScan {
    images : list image;
    parsing : bool;
    arr : Py.bytes;
    metadata : option (list Py.str)
  }.

Definition scan_init : scan_state := mkScan [] false [] None.

(** [text.replace('}', '').replace('[', '').replace(']', '').split(',')[1:]];
    the characters are given by their code points: 125 is the closing
    brace, 91 and 93 the square brackets, 44 the comma. *)
Definition parse_metadata (text : Py.str) : list Py.str :=
  drop 1 (Py.split 44 (Py.remove_char 93 (Py.remove_char 91 (Py.remove_char 125 text)))).

Definition scan_step (st : scan_state) (obj : s3object) : outcome scan_state :=
  obind (or_raise UnicodeDecodeError (Py.decode (Body obj))) (fun text =>
  if Py.contains (Py.lit "Image Start") text then
    let metadata := parse_metadata text in
    Return (mkScan (images st)
                   (if bool_decide (length metadata < 10)%nat then false else true)
                   [] (Some metadata))
  else if parsing st && negb (Py.str_eqb text (Py.lit "{Image Start}")) then
    if Py.str_eqb text (Py.lit "{Image End}") then
      Return (mkScan (images st ++ [(arr st, LastModified obj, metadata st)])
                     false (arr st) None)
    else
      obind (Py.unhexlify (Body obj)) (fun chunk =>
      Return (mkScan (images st) (parsing st) (arr st ++ chunk) (metadata st)))
  else Return st).

Fixpoint scan_from (st : scan_state) (objs : list s3object) : outcome scan_state :=
  match objs with
  | [] => Return st
  | obj :: rest => obind (scan_step st obj) (fun st' => scan_from st' rest)
  end.

(** The value of [images] after the first loop. *)
Definition scan (objs : list s3object) : outcome (list image) :=
  obind (scan_from scan_init objs) (fun st => Return (images st)).

(** *** The dedup and aggregation store: the second loop of [pull] *)

Definition asset_path (key : Py.str) : Py.str :=
  Py.lit "./assets/" ++ key ++ Py.lit ".png".

(** [img[2][i]] then [float(...)] *)
Definition field (md : list Py.str) (i : nat) : outcome float :=
  obind (or_raise IndexError (md !! i)) (fun s =>
  or_raise ValueError (float_of_str s)).

(** The dictionary appended to [map_data]; its entries are evaluated in
    the order they are written. *)
Definition make_row (md : list Py.str) (date : Py.str) : outcome row :=
  obind (field md 2) (fun clusters =>
  obind (field md 0) (fun lat =>
  obind (field md 1) (fun lon =>
  obind (field md 4) (fun temp =>
  obind (field md 5) (fun humidity =>
  obind (field md 6) (fun pressure =>
  obind (field md 7) (fun pitch =>
  obind (field md 8) (fun roll =>
  obind (field md 9) (fun yaw =>
  obind (field md 2) (fun clusters' =>
  Return (mkRow clusters date lat lon temp humidity pressure pitch roll yaw
                (float_add clusters' (float_of_int 1))))))))))))).

(** [if img[2]:] *)
Definition truthy (md : option (list Py.str)) : option (list Py.str) :=
  match md with
  | Some (x :: l) => Some (x :: l)
  | _ => None
  end.

Definition set_assets (f : gmap Py.str Py.bytes -> gmap Py.str Py.bytes) : M pullS3 unit :=
  modify (fun s => mkPullS3 (files s) (mostRecent s) (map_data s) (hourly s) (f (assets s))).
Definition set_map_data (f : list row -> list row) : M pullS3 unit :=
  modify (fun s => mkPullS3 (files s) (mostRecent s) (f (map_data s)) (hourly s) (assets s)).
Definition set_files (f : list Py.str -> list Py.str) : M pullS3 unit :=
  modify (fun s => mkPullS3 (f (files s)) (mostRecent s) (map_data s) (hourly s) (assets s)).
Definition set_hourly (f : list (datetime * Z) -> list (datetime * Z)) : M pullS3 unit :=
  modify (fun s => mkPullS3 (files s) (mostRecent s) (map_data s) (f (hourly s)) (assets s)).
Definition set_mostRecent (v : option Py.str) : M pullS3 unit :=
  modify (fun s => mkPullS3 (files s) v (map_data s) (hourly s) (assets s)).

(** [value in self.hourly.values]: only a cell of the [Date] column can be
    equal to a datetime. *)
Definition in_hourly (value : datetime) (h : list (datetime * Z)) : bool :=
  existsb (fun r => bool_decide (r.1 = value)) h.

(** The row labels [getIndexes(self.hourly, value)] returns, in order. *)
Definition getIndexes (h : list (datetime * Z)) (value : datetime) : list nat :=
  List.filter (fun i => bool_decide (fst <$> h !! i = Some value)) (seq 0 (length h)).

(** [self.hourly.at[loc, "Count"] += 1] *)
Definition incr_count (loc : nat) (h : list (datetime * Z)) : list (datetime * Z) :=
  alter (fun r => (r.1, r.2 + 1)) loc h.

(** The body of [for img in images:] up to [newest = img]. *)
Definition process (img : image) : M pullS3 unit :=
  let key := datetimeToString img.1.2 in
  self <- get ;;
  if bool_decide (key ∈ files self) then ret tt
  else
    png <- lift (png_of img.1.1 (asset_path key)) ;;
    set_assets (insert (asset_path key) png) ;;
    match truthy img.2 with
    | Some md =>
        r <- lift (make_row md key) ;;
        set_map_data (fun d => d ++ [r])
    | None => ret tt
    end ;;
    set_files (fun f => f ++ [key]) ;;
    let roundDate := roundTime img.1.2 (60 * 60) in
    self <- get ;;
    (if negb (in_hourly roundDate (hourly self))
     then set_hourly (fun h => h ++ [(roundDate, 0)])
     else ret tt) ;;
    self <- get ;;
    loc <- lift (or_raise IndexError (head (getIndexes (hourly self) roundDate))) ;;
    set_hourly (incr_count loc).

(** [for img in images: ...; newest = img], returning [newest]. *)
Fixpoint for_images (imgs : list image) (newest : option image)
  : M pullS3 (option image) :=
  match imgs with
  | [] => ret newest
  | img :: rest => process img ;; for_images rest (Some img)
  end.

(** [pull(self)], given the objects [objects.all()] enumerates.  The two
    loops before the scanner (listing the buckets, counting the objects)
    change nothing. *)
Definition pull (objs : list s3object) : M pullS3 unit :=
  images <- lift (scan objs) ;;
  let newest := head images in
  newest <- for_images images newest ;;
  match newest with
  | Some img => set_mostRecent (Some (datetimeToString img.1.2))
  | None => throw TypeError
  end.

End WithExternals.
End S3.


(** ** A small instance of the library values

    Enough of the libraries to run the model on concrete listings:
    timestamps are whole seconds counted from 2021-03-01 00:00:00 UTC and
    printed as Python prints an aware datetime of that month; a float is
    an integer written in decimal digits; an image is accepted when it
    starts with the JPEG marker [FF D8]. *)

Module Sim.

Definition two_digits (n : Z) : Py.str :=
  [Z.to_N (48 + n / 10 mod 10); Z.to_N (48 + n mod 10)].

Definition print_datetime (t : Z) : Py.str :=
  Py.lit "2021-03-" ++ two_digits (1 + t / 86400) ++ Py.lit " "
    ++ two_digits (t mod 86400 / 3600) ++ Py.lit ":"
    ++ two_digits (t mod 3600 / 60) ++ Py.lit ":"
    ++ two_digits (t mod 60) ++ Py.lit "+00:00".

Fixpoint digits (acc : Z) (s : Py.str) : option Z :=
  match s with
  | [] => Some acc
  | c :: r =>
      if ((48 <=? c) && (c <=? 57))%N then digits (acc * 10 + Z.of_N (c - 48)) r
      else None
  end.

Definition parse_float (s : Py.str) : option Z :=
  match s with
  | [] => None
  | _ => digits 0 s
  end.

Definition reencode (b : Py.bytes) (path : Py.str) : outcome Py.bytes :=
  match b with
  | xff :: xd8 :: _ => Return b
  | _ => Raise UnidentifiedImageError
  end.

Definition externals : Externals :=
  {| datetime := Z;
     dt_str := print_datetime;
     dt_seconds := fun t => t mod 86400;
     dt_microsecond := fun _ => 0;
     dt_add := fun t seconds _ => t + seconds;
     float := Z;
     float_of_str := parse_float;
     float_of_int := fun z => z;
     float_add := Z.add;
     png_of := reencode |}.

Definition object (body : Py.bytes) (t : Z) : @S3.s3object externals :=
  @S3.mkObject externals body t.

Definition ten_fields : list Py.str :=
  map Py.lit ["53"; "24"; "3"; "0"; "20"; "40"; "1000"; "1"; "2"; "3"]%string.

Definition three_fields : list Py.str := map Py.lit ["53"; "24"; "3"]%string.

Definition start_text : Py.str := Comm.start_header ten_fields.
Definition short_start_text : Py.str := Comm.start_header three_fields.

Definition start_object (t : Z) : @S3.s3object externals :=
  object (default [] (Py.encode start_text)) t.
Definition short_start_object (t : Z) : @S3.s3object externals :=
  object (default [] (Py.encode short_start_text)) t.
Definition end_object (t : Z) : @S3.s3object externals :=
  object (default [] (Py.encode Comm.image_end)) t.
Definition chunk_object (chunk : Py.bytes) (t : Z) : @S3.s3object externals :=
  object (Py.hexlify chunk) t.

Definition jpeg : Py.bytes := [xff; xd8; x01; x02; x03].

(** A complete frame carrying [jpeg] in chunks of two bytes. *)
Definition frame : list (@S3.s3object externals) :=
  [start_object 10; chunk_object [xff; xd8] 11; chunk_object [x01; x02] 12;
   chunk_object [x03] 13; end_object 5400].

End Sim.

(** * Vocabulary of the properties *)

(** ** Chunks *)

(** The [k]-th slice of the comprehension of [imgToChunks], over naturals. *)
Definition chunk_at {A} (l : list A) (c k : nat) : list A := take c (drop (k * c) l).

(** The property of [imgToChunks] for one payload and chunk size: it returns
    segments that concatenate to the payload, none longer than the chunk
    size, all but the last of exactly that size. *)
Definition partitions (payload : Py.bytes) (chunk_size : Z) (segs : list Py.bytes) : Prop :=
  Comm.imgToChunks payload chunk_size = Return segs /\
  concat segs = payload /\
  Forall (fun s => Z.of_nat (length s) <= chunk_size) segs /\
  (forall i s, segs !! i = Some s -> (S i < length segs)%nat ->
               Z.of_nat (length s) = chunk_size).

(** ** Text and hex *)

Definition is_ascii (b : byte) : Prop := (Py.b2n b < 128)%N.

(** The characters [binascii.hexlify] produces: [0-9a-f]. *)
Definition is_hex (n : N) : bool :=
  ((48 <=? n) && (n <=? 57) || (97 <=? n) && (n <=? 102))%N.

(** Occurrences of a character in a string. *)
Definition count (sep : N) (s : Py.str) : nat :=
  length (List.filter (fun x => (x =? sep)%N) s).

(** Bytes that decode, and strings that encode. *)
Definition is_text (bs : Py.bytes) : Prop := is_Some (Py.decode bs).
Definition encodable (s : Py.str) : Prop := is_Some (Py.encode s).

(** The bytes [s.encode()] gives for an encodable [s]. *)
Definition published (s : Py.str) : Py.bytes := default [] (Py.encode s).

(** ** The serial channel *)

(** The input buffer when the timeout has elapsed, and what [AT] then reads:
    nothing when the buffer is empty, else the buffer with what arrived
    during the further tenth of a second. *)
Definition buffered (s : Comm.serial) : Py.bytes :=
  Comm.rx s ++ List.hd [] (Comm.arrivals s).

Definition answer (s : Comm.serial) : Py.bytes :=
  if bool_decide (buffered s = []) then []
  else buffered s ++ List.hd [] (List.tl (Comm.arrivals s)).

(** The data of the [Write] events of a trace, in order. *)
Definition writes (tr : list Comm.event) : list Py.bytes :=
  flat_map (fun e => match e with Comm.Write d => [d] | _ => [] end) tr.

(** A channel on which the modem only ever delivers UTF-8 text. *)
Definition text_channel (s : Comm.serial) : Prop :=
  is_text (Comm.rx s) /\ Forall is_text (Comm.arrivals s).


(** ** What the sender puts on the wire *)

(** The bytes [mqtt_pub] writes for a payload, and the [raw] flag
    [mqtt_sendimg] passes with it. *)
Definition payload_bytes (p : Comm.payload) : Py.bytes :=
  match p with
  | Comm.PStr s => published s
  | Comm.PBytes b => b
  end.

Definition payload_raw (p : Comm.payload) : bool :=
  match p with
  | Comm.PStr _ => false
  | Comm.PBytes _ => true
  end.

Definition mqtt_pub_writes (p : Comm.payload) (topic : Py.str) : list Py.bytes :=
  [ published ((Py.lit "AT+CMQTTTOPIC=0," ++ Py.str_of_nat (length topic)) ++ Comm.CRLF);
    published topic;
    published ((Py.lit "AT+CMQTTPAYLOAD=0," ++ Py.str_of_nat (Comm.payload_len p))
               ++ Comm.CRLF);
    payload_bytes p;
    published (Py.lit "AT+CMQTTPUB=0,1,60" ++ Comm.CRLF) ].

Definition frame_payloads (msgs : list Py.bytes) (headers : list Py.str)
  : list Comm.payload :=
  Comm.PStr (Comm.start_header headers)
    :: map (fun msg => Comm.PBytes (Py.hexlify msg)) msgs
    ++ [Comm.PStr Comm.image_end].

(** ** The scanner and the store *)

Section Vocabulary.

Context `{E : Externals}.

Definition START : Py.str := Py.lit "Image Start".

(** What an object is to the scanner. *)
Definition is_start (obj : S3.s3object) (text : Py.str) : Prop :=
  Py.decode (S3.Body obj) = Some text /\ Py.contains START text = true.

Definition is_end (obj : S3.s3object) : Prop :=
  Py.decode (S3.Body obj) = Some Comm.image_end.

(** A scanner state with [pre] put before its [images]. *)
Definition prepend (pre : list S3.image) (st : S3.scan_state) : S3.scan_state :=
  S3.mkScan (pre ++ S3.images st) (S3.parsing st) (S3.arr st) (S3.metadata st).

(** Two scanner states the scanner cannot tell apart: the same state, or
    two idle states with the same [images]. *)
Definition alike (st st' : S3.scan_state) : Prop :=
  st = st' \/
  (S3.images st = S3.images st' /\ S3.parsing st = false /\ S3.parsing st' = false).

Definition orel {A} (R : A -> A -> Prop) (o o' : outcome A) : Prop :=
  match o, o' with
  | Return a, Return b => R a b
  | Raise e, Raise e' => e = e'
  | _, _ => False
  end.

(** The dedup key of a candidate entry. *)
Definition key_of (img : S3.image) : Py.str := S3.datetimeToString img.1.2.

(** The hourly table once the bucket of [d] was created if absent. *)
Definition with_bucket (d : datetime) (h : list (datetime * Z)) : list (datetime * Z) :=
  if S3.in_hourly d h then h else h ++ [(d, 0)].

(** The end of the loop body: the key is recorded and the bucket counted. *)
Definition count_step (img : S3.image) (s : S3.pullS3) : outcome unit * S3.pullS3 :=
  let d := S3.roundTime img.1.2 (60 * 60) in
  let h := with_bucket d (S3.hourly s) in
  let s' := fun h' => S3.mkPullS3 (S3.files s ++ [key_of img]) (S3.mostRecent s)
                                  (S3.map_data s) h' (S3.assets s) in
  match head (S3.getIndexes h d) with
  | Some loc => (Return tt, s' (S3.incr_count loc h))
  | None => (Raise IndexError, s' h)
  end.

(** The store after [im.save], after a row was appended, and with another
    [mostRecent]. *)
Definition saved (img : S3.image) (png : Py.bytes) (s : S3.pullS3) : S3.pullS3 :=
  S3.mkPullS3 (S3.files s) (S3.mostRecent s) (S3.map_data s) (S3.hourly s)
              (<[S3.asset_path (key_of img) := png]> (S3.assets s)).

Definition with_row (r : S3.row) (s : S3.pullS3) : S3.pullS3 :=
  S3.mkPullS3 (S3.files s) (S3.mostRecent s) (S3.map_data s ++ [r]) (S3.hourly s)
              (S3.assets s).

Definition with_mostRecent (v : option Py.str) (s : S3.pullS3) : S3.pullS3 :=
  S3.mkPullS3 (S3.files s) v (S3.map_data s) (S3.hourly s) (S3.assets s).

(** A row whose display-size weight is its cluster count plus one. *)
Definition sized (r : S3.row) : Prop :=
  S3._size_ r = float_add (S3.Number_of_Clusters r) (float_of_int 1).

End Vocabulary.

(** ** Time on the channel *)

(** The seconds a trace spent in [time.sleep]. *)
Definition slept (tr : list Comm.event) : Q :=
  foldr (fun e acc => match e with Comm.Sleep d => d + acc | _ => acc end)%Q 0%Q tr.

(** [c] sleeps between [lo] and [hi] seconds whenever it returns. *)
Definition takes {A} (c : M Comm.serial A) (lo hi : Q) : Prop :=
  forall s a s', c s = (Return a, s') ->
    (slept (Comm.trace s) + lo <= slept (Comm.trace s') /\
     slept (Comm.trace s') <= slept (Comm.trace s) + hi)%Q.

(** [c] returns on every channel that carries text, and leaves such a
    channel. *)
Definition fail_open {A} (c : M Comm.serial A) : Prop :=
  forall s, text_channel s ->
    exists a s', c s = (Return a, s') /\ text_channel s'.

(** ** Metadata *)

(** A header without its closing braces and square brackets, as the scanner
    reads it. *)
Definition cleaned (h : Py.str) : Py.str :=
  Py.remove_char 93 (Py.remove_char 91 (Py.remove_char 125 h)).

(** A header that the scanner reads back as one field, unchanged: it has no
    comma, no closing brace and no square bracket. *)
Definition plain (h : Py.str) : Prop :=
  Forall (fun c => c <> 44 /\ c <> 125 /\ c <> 91 /\ c <> 93)%N h.

(** ** The consistency of the store *)

Section StoreVocabulary.

Context `{E : Externals}.

(** The sum of the [Count] column of [hourly]. *)
Definition total_count (h : list (datetime * Z)) : Z :=
  foldr (fun r acc => r.2 + acc) 0 h.

(** What [pull] keeps true of the store: no key is recorded twice;
    [hourly] has one row per hour, each counting at least one entry, and
    the counts add up to the number of recorded entries; every recorded key
    has its image file. *)
Record consistent (s : S3.pullS3) : Prop := mkConsistent {
  files_nodup : NoDup (S3.files s);
  buckets_nodup : NoDup (fst <$> S3.hourly s);
  buckets_positive : Forall (fun r => 1 <= r.2) (S3.hourly s);
  buckets_total : total_count (S3.hourly s) = Z.of_nat (length (S3.files s));
  assets_saved :
    Forall (fun k => is_Some (S3.assets s !! S3.asset_path k)) (S3.files s)
}.

(** The store of a fresh instance after it pulled the given listings one
    after the other, whatever each [pull] returned or raised. *)
Definition after_pulls (listings : list (list S3.s3object)) : S3.pullS3 :=
  foldl (fun s objs => (S3.pull objs s).2) S3.init listings.

(** [s'] holds everything [s] held: the same entries and rows followed by
    new ones, the same hourly rows with counts that are not smaller, and
    the same image files (their content may have been written again). *)
Definition grows (s s' : S3.pullS3) : Prop :=
  S3.files s `prefix_of` S3.files s' /\
  S3.map_data s `prefix_of` S3.map_data s' /\
  (forall i r, S3.hourly s !! i = Some r ->
               exists r', S3.hourly s' !! i = Some r' /\ r'.1 = r.1 /\ r.2 <= r'.2) /\
  dom (S3.assets s) ⊆ dom (S3.assets s').

End StoreVocabulary.

(** ** What the scanner emits *)

Section ScannerVocabulary.

Context `{E : Externals}.

(** A candidate entry that carries the ten metadata fields the store
    indexes. *)
Definition complete (img : S3.image) : Prop :=
  exists md, img.2 = Some md /\ (10 <= length md)%nat.

(** What the scanner keeps true of its state: every entry of [images] is
    complete, and while [parsing] is true [metadata] holds at least ten
    fields. *)
Definition attentive (st : S3.scan_state) : Prop :=
  Forall complete (S3.images st) /\
  (S3.parsing st = true ->
   exists md, S3.metadata st = Some md /\ (10 <= length md)%nat).

(** An object that is text without the Start token. *)
Definition is_noise (obj : S3.s3object) : Prop :=
  exists text, Py.decode (S3.Body obj) = Some text /\ Py.contains START text = false.

(** The [LastModified] of the End objects of a listing, in order. *)
Definition end_times (objs : list S3.s3object) : list datetime :=
  S3.LastModified <$>
    List.filter (fun obj => bool_decide (Py.decode (S3.Body obj) = Some Comm.image_end)) objs.

(** The objects of one well-formed frame and the candidate entry it stands
    for: a Start object with at least ten metadata fields, the hex of the
    segments, and an End object. *)
Definition is_frame (objs : list S3.s3object) (img : S3.image) : Prop :=
  exists start text chunk_objs segs end_,
    objs = start :: chunk_objs ++ [end_] /\
    is_start start text /\
    (10 <= length (S3.parse_metadata text))%nat /\
    is_end end_ /\
    map S3.Body chunk_objs = map Py.hexlify segs /\
    img = (concat segs, S3.LastModified end_, Some (S3.parse_metadata text)).

End ScannerVocabulary.

(** * Properties *)

(** ** The model at work *)

Example lit_image_end :
  Comm.image_end = [123; 73; 109; 97; 103; 101; 32; 69; 110; 100; 125]%N.
Proof. reflexivity. Qed.

Example imgToChunks_five_by_two :
  Comm.imgToChunks [x01; x02; x03; x04; x05] 2 = Return [[x01; x02]; [x03; x04]; [x05]].
Proof. reflexivity. Qed.

Example imgToChunks_negative_size :
  Comm.imgToChunks [x01; x02; x03; x04; x05] (-2) = Return [].
Proof. reflexivity. Qed.

Example decode_euro_sign : Py.decode [xe2; x82; xac; x41] = Some [8364; 65]%N.
Proof. reflexivity. Qed.

Example encode_euro_sign : Py.encode [8364; 65]%N = Some [xe2; x82; xac; x41].
Proof. reflexivity. Qed.

Example decode_overlong_slash : Py.decode [xc0; xaf] = None.
Proof. reflexivity. Qed.

Example hexlify_three_bytes : Py.hexlify [x00; xab; xff] = [x30; x30; x61; x62; x66; x66].
Proof. reflexivity. Qed.

Example unhexlify_mixed_case :
  Py.unhexlify [x30; x30; x61; x42; x66; x66] = Return [x00; xab; xff].
Proof. reflexivity. Qed.

Example unhexlify_odd_length : Py.unhexlify [x30; x30; x61] = Raise BinasciiError.
Proof. reflexivity. Qed.

Example split_on_commas : Py.split 44 (Py.lit "a,,b") = [Py.lit "a"; []; Py.lit "b"].
Proof. reflexivity. Qed.

Example start_header_of_three :
  Comm.start_header Sim.three_fields = Py.lit "{Image Start,53,24,3}".
Proof. reflexivity. Qed.

Example parse_metadata_of_three :
  @S3.parse_metadata (Py.lit "{Image Start,53,[24],3}") = Sim.three_fields.
Proof. reflexivity. Qed.

Example datetimeToString_sim :
  @S3.datetimeToString Sim.externals 5400 = Py.lit "2021-03-01-01-30-00".
Proof. reflexivity. Qed.

Example roundTime_up : @S3.roundTime Sim.externals 5400 (60 * 60) = 7200.
Proof. reflexivity. Qed.

Example roundTime_down : @S3.roundTime Sim.externals 5399 (60 * 60) = 3600.
Proof. reflexivity. Qed.

Example pull_one_frame :
  let self := (@S3.pull Sim.externals Sim.frame S3.init).2 in
  S3.files self = [Py.lit "2021-03-01-01-30-00"] /\
  S3.mostRecent self = Some (Py.lit "2021-03-01-01-30-00") /\
  S3.hourly self = [(7200, 1)] /\
  (S3._size_ <$> S3.map_data self) = [4].
Proof. vm_compute. done. Qed.

Example AT_mismatch :
  (Comm.AT (Py.lit "AT") (Py.lit "OK") 1
           (Comm.mkSerial [] [published (Py.lit "ERROR")] [])).1 = Return (Some 0).
Proof. vm_compute. done. Qed.

(** ** The chunking encoder *)

Section Chunks.

Context {A : Type}.
Implicit Types (l : list A) (c k m : nat).


Lemma slice_chunk_at l c k :
  Py.slice l (0 + Z.of_nat k * Z.of_nat c) (0 + Z.of_nat k * Z.of_nat c + Z.of_nat c)
  = chunk_at l c k.
Proof.
  unfold Py.slice, Py.clamp_index, chunk_at.
  rewrite <- Nat2Z.inj_mul, Z.add_0_l, <- Nat2Z.inj_add.
  destruct (Z.ltb_spec (Z.of_nat (k * c)) 0) as [?|_]; [lia|].
  destruct (Z.ltb_spec (Z.of_nat (k * c + c)) 0) as [?|_]; [lia|].
  destruct (decide (k * c + c ≤ length l)%nat) as [Hle|Hgt].
  - rewrite !Z.min_l by lia. f_equal; [lia|]. f_equal. lia.
  - destruct (decide (k * c ≤ length l)%nat) as [Hle'|Hgt'].
    + rewrite (Z.min_l (Z.of_nat (k * c))), (Z.min_r (Z.of_nat (k * c + c))) by lia.
      rewrite Nat2Z.id.
      rewrite !take_ge; [done| |]; rewrite length_drop; lia.
    + rewrite !Z.min_r by lia. rewrite Z.sub_diag. simpl.
      rewrite Nat2Z.id, (drop_ge l (k * c)) by lia.
      rewrite drop_ge by lia. by destruct c.
Qed.

Lemma concat_chunks l c m :
  concat (map (chunk_at l c) (seq 0 m)) = take (m * c) l.
Proof.
  induction m as [|m IH]; [done|].
  rewrite seq_S, map_app, concat_app, IH. simpl.
  rewrite app_nil_r. unfold chunk_at.
  rewrite take_take_drop. f_equal. lia.
Qed.

Lemma length_chunk_at l c k :
  length (chunk_at l c k) = (c `min` (length l - k * c))%nat.
Proof. unfold chunk_at. by rewrite length_take, length_drop. Qed.

End Chunks.

Lemma range_len_pos n c :
  0 < c -> 0 <= n ->
  Py.range_len 0 n c = (n + c - 1) / c /\
  n <= (n + c - 1) / c * c /\ ((n + c - 1) / c - 1) * c < n.
Proof.
  intros Hc Hn. unfold Py.range_len.
  destruct (Z.ltb_spec 0 c) as [_|?]; [|lia].
  rewrite Z.sub_0_r.
  assert (0 <= (n + c - 1) / c) by (apply Z.div_pos; lia).
  split; [lia|].
  pose proof (Z.div_mod (n + c - 1) c ltac:(lia)) as Hdm.
  pose proof (Z.mod_pos_bound (n + c - 1) c Hc) as Hb.
  split; nia.
Qed.

Lemma imgToChunks_pos (byte_arr : Py.bytes) (chunk_size : Z) :
  0 < chunk_size ->
  Comm.imgToChunks byte_arr chunk_size =
  Return (map (chunk_at byte_arr (Z.to_nat chunk_size))
              (seq 0 (Z.to_nat ((Z.of_nat (length byte_arr) + chunk_size - 1) / chunk_size)))).
Proof.
  intros Hc. unfold Comm.imgToChunks, Py.range.
  destruct (Z.eqb_spec chunk_size 0) as [?|_]; [lia|]. simpl.
  destruct (range_len_pos (Z.of_nat (length byte_arr)) chunk_size Hc ltac:(lia)) as [-> _].
  rewrite map_map. f_equal. apply map_ext. intros k.
  rewrite <- (slice_chunk_at byte_arr (Z.to_nat chunk_size) k).
  rewrite Z2Nat.id by lia. done.
Qed.


Lemma imgToChunks_concat (payload : Py.bytes) (chunk_size : Z) :
  0 < chunk_size ->
  exists segs, Comm.imgToChunks payload chunk_size = Return segs /\
               concat segs = payload.
Proof.
  intros Hc. eexists. split; [by apply imgToChunks_pos|].
  set (n := Z.of_nat (length payload)).
  destruct (range_len_pos n chunk_size Hc ltac:(lia)) as (_ & Hge & _).
  assert (0 <= (n + chunk_size - 1) / chunk_size) by (apply Z.div_pos; lia).
  rewrite concat_chunks. apply take_ge. unfold n in *. nia.
Qed.

(** C2 (amended): for every payload and every positive chunk size,
  [imgToChunks] returns segments whose concatenation in order is the
  payload, each at most the chunk size long and every one but possibly the
  last exactly that long; a payload of 12000 bytes cut at 5000 gives
  segments of 5000, 5000 and 2000 bytes. *)
Theorem imgToChunks_partitions (payload : Py.bytes) (chunk_size : Z) :
  0 < chunk_size ->
  exists segs,
    partitions payload chunk_size segs /\
    (chunk_size = 5000 -> Z.of_nat (length payload) = 12000 ->
     map (fun s => Z.of_nat (length s)) segs = [5000; 5000; 2000]).
Proof.
  intros Hc. eexists. split; [split; [by apply imgToChunks_pos|]|].
  - set (c := Z.to_nat chunk_size).
    set (n := Z.of_nat (length payload)).
    destruct (range_len_pos n chunk_size Hc ltac:(lia)) as (_ & Hge & Hlt).
    assert (0 <= (n + chunk_size - 1) / chunk_size) by (apply Z.div_pos; lia).
    set (m := Z.to_nat ((n + chunk_size - 1) / chunk_size)) in *.
    assert (Hm : Z.of_nat m = (n + chunk_size - 1) / chunk_size) by (unfold m; lia).
    rewrite <- Hm in Hge, Hlt.
    split; [|split].
    + rewrite concat_chunks. apply take_ge. unfold c, n in *. nia.
    + apply List.Forall_forall. intros s [k [<- _]]%in_map_iff.
      rewrite length_chunk_at. unfold c. lia.
    + intros i s Hi Hlast.
      rewrite length_map, length_seq in Hlast.
      change (map ?f ?l) with (f <$> l) in Hi.
      rewrite list_lookup_fmap in Hi.
      rewrite lookup_seq_lt in Hi by lia. simpl in Hi. injection Hi as <-.
      rewrite length_chunk_at. unfold c, n in *. nia.
  - intros -> Hlen. rewrite Hlen.
    change (Z.to_nat ((12000 + 5000 - 1) / 5000)) with 3%nat.
    cbn [seq map]. rewrite !length_chunk_at.
    assert (length payload = Z.to_nat 12000) as -> by lia.
    repeat f_equal; lia.
Qed.

(** C2, at a 12000-byte payload and chunk size 5000. *)
Lemma imgToChunks_partitions_witness :
  0 < 5000 /\
  exists segs,
    partitions (replicate (Z.to_nat 12000) x00) 5000 segs /\
    (5000 = 5000 -> Z.of_nat (length (replicate (Z.to_nat 12000) x00)) = 12000 ->
     map (fun s => Z.of_nat (length s)) segs = [5000; 5000; 2000]).
Proof.
  split; [lia|]. apply (imgToChunks_partitions (replicate (Z.to_nat 12000) x00) 5000). lia.
Defined.

(** C2 as stated fails where the chunk size is not positive: at chunk size 0
  the call raises [ValueError] and returns no segments at all. *)
Lemma imgToChunks_zero_chunk_size :
  ~ exists segs, partitions [x01] 0 segs.
Proof. intros (segs & Hret & _). discriminate Hret. Qed.

(** ** Text and hex codecs *)


Lemma decode_ascii (bs : Py.bytes) :
  Forall is_ascii bs -> Py.decode bs = Some (map Py.b2n bs).
Proof.
  induction 1 as [|b bs Hb _ IH]; [done|].
  cbn [Py.decode map].
  destruct (N.ltb_spec (Py.b2n b) 128) as [_|?]; [|unfold is_ascii in Hb; lia].
  by rewrite IH.
Qed.


Lemma hex_digits_of_byte (b : byte) :
  is_hex (Py.b2n (Py.hex_digit (Py.b2n b / 16))) = true /\
  is_hex (Py.b2n (Py.hex_digit (Py.b2n b mod 16))) = true /\
  Py.hex_value (Py.hex_digit (Py.b2n b / 16)) = Some (Py.b2n b / 16)%N /\
  Py.hex_value (Py.hex_digit (Py.b2n b mod 16)) = Some (Py.b2n b mod 16)%N /\
  Py.n2b (Py.b2n b / 16 * 16 + Py.b2n b mod 16) = b.
Proof. destruct b; vm_compute; done. Qed.

Lemma hexlify_is_hex (bs : Py.bytes) :
  Forall (fun d => is_hex (Py.b2n d) = true) (Py.hexlify bs).
Proof.
  induction bs as [|b bs IH]; [constructor|].
  destruct (hex_digits_of_byte b) as (H1 & H2 & _).
  cbn [Py.hexlify flat_map app]. by repeat constructor.
Qed.

Lemma unhexlify_hexlify (bs : Py.bytes) :
  Py.unhexlify (Py.hexlify bs) = Return bs.
Proof.
  induction bs as [|b bs IH]; [done|].
  destruct (hex_digits_of_byte b) as (_ & _ & H3 & H4 & H5).
  cbn [Py.hexlify flat_map app Py.unhexlify].
  fold (Py.hexlify bs). rewrite H3, H4, IH. cbn [obind]. by rewrite H5.
Qed.

Lemma is_hex_ascii (bs : Py.bytes) :
  Forall (fun d => is_hex (Py.b2n d) = true) bs -> Forall is_ascii bs.
Proof.
  apply Forall_impl. intros d Hd. unfold is_hex, is_ascii in *.
  repeat match goal with
         | H : context [N.leb ?a ?b] |- _ => destruct (N.leb_spec a b)
         end; simpl in Hd; try discriminate; lia.
Qed.

Lemma contains_head (a : N) (p hay : Py.str) :
  Py.contains (a :: p) hay = true -> In a hay.
Proof.
  induction hay as [|h hay IH]; [done|].
  cbn [Py.contains Py.startswith].
  intros [Hs|Hc]%orb_true_iff.
  - apply andb_true_iff in Hs as [->%N.eqb_eq _]. by left.
  - right. by apply IH.
Qed.

(** A text made of hex digits holds neither marker. *)
Lemma hex_text_no_marker (bs : Py.bytes) (c : N) (p : Py.str) :
  Forall (fun d => is_hex (Py.b2n d) = true) bs ->
  is_hex c = false ->
  Py.contains (c :: p) (map Py.b2n bs) = false /\
  Py.str_eqb (map Py.b2n bs) (c :: p) = false.
Proof.
  intros Hhex Hc.
  assert (Hnot : ~ In c (map Py.b2n bs)).
  { intros [d [<- Hd]]%in_map_iff.
    rewrite List.Forall_forall in Hhex. specialize (Hhex d Hd). congruence. }
  split.
  - destruct (Py.contains _ _) eqn:Hk; [|done].
    by apply contains_head in Hk.
  - unfold Py.str_eqb. apply bool_decide_eq_false. intros Heq.
    apply Hnot. rewrite Heq. by left.
Qed.

Lemma fmap_cons_Some (c : N) (o : option Py.str) (t : Py.str) :
  cons c <$> o = Some t -> exists t', o = Some t' /\ t = c :: t'.
Proof. destruct o as [t'|]; [|done]. intros [= <-]. by exists t'. Qed.

Lemma decode_app (a b : Py.bytes) (ta : Py.str) :
  Py.decode a = Some ta -> Py.decode (a ++ b) = app ta <$> Py.decode b.
Proof.
  revert ta. induction a as [a IH] using (induction_ltof1 _ (@length byte)).
  unfold ltof in IH. intros ta Ha.
  destruct a as [|b0 r0].
  { injection Ha as <-. cbn. by destruct (Py.decode b). }
  assert (Hstep : forall r c, (length r < length (b0 :: r0))%nat ->
            cons c <$> Py.decode r = Some ta ->
            cons c <$> Py.decode (r ++ b) = app ta <$> Py.decode b).
  { intros r c Hlen (t' & Hr & ->)%fmap_cons_Some.
    rewrite (IH r Hlen t' Hr). by destruct (Py.decode b). }
  cbn [Py.decode app] in *.
  destruct (Py.b2n b0 <? 128)%N; [apply Hstep; [cbn; lia|done]|].
  destruct (Py.b2n b0 <? 194)%N; [done|].
  destruct (Py.b2n b0 <? 224)%N.
  { destruct r0 as [|b1 r1]; [done|]. cbn [app].
    destruct (Py.cont b1); [|done]. apply Hstep; [cbn; lia|done]. }
  destruct (Py.b2n b0 <? 240)%N.
  { destruct r0 as [|b1 [|b2 r2]]; try done. cbn [app].
    destruct (Py.cont b1); [|done]. destruct (Py.cont b2); [|done].
    match goal with |- context [if ?c then None else _] => destruct c end; [done|].
    apply Hstep; [cbn; lia|done]. }
  destruct (Py.b2n b0 <? 245)%N; [|done].
  destruct r0 as [|b1 [|b2 [|b3 r3]]]; try done. cbn [app].
  destruct (Py.cont b1); [|done]. destruct (Py.cont b2); [|done].
  destruct (Py.cont b3); [|done].
  match goal with |- context [if ?c then None else _] => destruct c end; [done|].
  apply Hstep; [cbn; lia|done].
Qed.

Lemma is_text_app (a b : Py.bytes) : is_text a -> is_text b -> is_text (a ++ b).
Proof.
  intros [ta Ha] [tb Hb]. unfold is_text. rewrite (decode_app _ _ _ Ha), Hb. by eexists.
Qed.


Lemma encode_published s : encodable s -> Py.encode s = Some (published s).
Proof. intros [d Hd]. unfold published. by rewrite Hd. Qed.

Lemma encode_app (a b : Py.str) :
  Py.encode (a ++ b) =
  match Py.encode a, Py.encode b with
  | Some x, Some y => Some (x ++ y)
  | _, _ => None
  end.
Proof.
  induction a as [|c a IH]; cbn [app Py.encode].
  - by destruct (Py.encode b).
  - rewrite IH. destruct (Py.encode_cp c), (Py.encode a), (Py.encode b); try done.
    by rewrite app_assoc.
Qed.

Lemma encodable_app (a b : Py.str) : encodable a -> encodable b -> encodable (a ++ b).
Proof.
  intros [x Hx] [y Hy]. unfold encodable. rewrite encode_app, Hx, Hy. by eexists.
Qed.

Lemma encodable_lit (s : string) : encodable (Py.lit s).
Proof.
  unfold Py.lit. induction (list_ascii_of_string s) as [|a l IH]; [by eexists|].
  destruct IH as [d Hd]. unfold encodable. cbn [map Py.encode]. rewrite Hd.
  pose proof (N_ascii_bounded a) as Hb. unfold Py.encode_cp.
  destruct (N.ltb_spec (N_of_ascii a) 128); [by eexists|].
  destruct (N.ltb_spec (N_of_ascii a) 2048); [by eexists|lia].
Qed.

Lemma encodable_CRLF : encodable Comm.CRLF.
Proof. by eexists. Qed.

Lemma encodable_dq : encodable Comm.dq.
Proof. by eexists. Qed.

(** *** Encoding then decoding *)

Lemma b2n_n2b (x : N) : (x < 256)%N -> Py.b2n (Py.n2b x) = x.
Proof.
  intros Hx. unfold Py.b2n, Py.n2b.
  destruct (Byte.of_N x) as [b|] eqn:Hb.
  - cbn. by apply Byte.to_of_N.
  - apply Byte.of_N_None_iff in Hb. lia.
Qed.

Lemma cont_n2b (x : N) : (x < 64)%N -> Py.cont (Py.n2b (128 + x)) = Some x.
Proof.
  intros Hx. unfold Py.cont. rewrite b2n_n2b by lia. cbn zeta.
  destruct (N.leb_spec 128 (128 + x)); [|lia].
  destruct (N.leb_spec (128 + x) 191); [|lia].
  cbn. f_equal. lia.
Qed.

Lemma div_mod_64 (c : N) :
  (c = 64 * (c / 64) + c mod 64 /\ c mod 64 < 64 /\
   c / 64 = 64 * (c / 4096) + (c / 64) mod 64 /\ (c / 64) mod 64 < 64 /\
   c / 4096 = 64 * (c / 262144) + (c / 4096) mod 64 /\ (c / 4096) mod 64 < 64)%N.
Proof.
  pose proof (N.Div0.div_mod c 64) as H1.
  pose proof (N.mod_lt c 64 ltac:(done)) as H2.
  pose proof (N.Div0.div_mod (c / 64) 64) as H3.
  pose proof (N.mod_lt (c / 64) 64 ltac:(done)) as H4.
  pose proof (N.Div0.div_mod (c / 4096) 64) as H5.
  pose proof (N.mod_lt (c / 4096) 64 ltac:(done)) as H6.
  rewrite N.Div0.div_div in H3. change (64 * 64)%N with 4096%N in H3.
  rewrite N.Div0.div_div in H5. change (4096 * 64)%N with 262144%N in H5.
  done.
Qed.

Ltac decide_ltb :=
  repeat match goal with
         | |- context [N.ltb ?a ?b] => destruct (N.ltb_spec a b); try lia
         | |- context [N.leb ?a ?b] => destruct (N.leb_spec a b); try lia
         end.

Lemma decode_encode_cp (c : N) (bs rest : Py.bytes) :
  Py.encode_cp c = Some bs ->
  Py.decode (bs ++ rest) = cons c <$> Py.decode rest.
Proof.
  unfold Py.encode_cp.
  destruct (div_mod_64 c) as (D1 & D2 & D3 & D4 & D5 & D6).
  set (r2 := ((c / 64) mod 64)%N) in *. set (r3 := ((c / 4096) mod 64)%N) in *.
  set (r1 := (c mod 64)%N) in *. set (q1 := (c / 64)%N) in *.
  set (q2 := (c / 4096)%N) in *. set (q3 := (c / 262144)%N) in *.
  clearbody r1 r2 r3 q1 q2 q3.
  destruct (N.ltb_spec c 128) as [H1|H1].
  { intros [= <-]. cbn [app Py.decode]. rewrite b2n_n2b by lia. by decide_ltb. }
  destruct (N.ltb_spec c 2048) as [H2|H2].
  { intros [= <-]. cbn [app Py.decode].
    rewrite b2n_n2b by lia. rewrite cont_n2b by lia. decide_ltb.
    do 2 f_equal. lia. }
  destruct (N.ltb_spec c 65536) as [H3|H3].
  { destruct (N.leb_spec 55296 c) as [H4|H4], (N.leb_spec c 57343) as [H5|H5];
      cbn [andb]; try done; intros [= <-]; cbn [app Py.decode];
      rewrite b2n_n2b by lia; rewrite !cont_n2b by lia; cbn zeta;
      replace (((224 + q2 - 224) * 64 + r2) * 64 + r1)%N with c by lia;
      decide_ltb; done. }
  destruct (N.ltb_spec c 1114112) as [H4|H4]; [|done].
  intros [= <-]. cbn [app Py.decode].
  rewrite b2n_n2b by lia. rewrite !cont_n2b by lia. cbn zeta.
  replace ((((240 + q3 - 240) * 64 + r3) * 64 + r2) * 64 + r1)%N with c by lia.
  decide_ltb. done.
Qed.

Lemma decode_encode (s : Py.str) (bs : Py.bytes) :
  Py.encode s = Some bs -> Py.decode bs = Some s.
Proof.
  revert bs. induction s as [|c s IH]; intros bs; [by intros [= <-]|].
  cbn [Py.encode].
  destruct (Py.encode_cp c) as [h|] eqn:Hc; [|done].
  destruct (Py.encode s) as [r|]; [|done]. intros [= <-].
  by rewrite (decode_encode_cp _ _ _ Hc), (IH r).
Qed.

(** ** The ingestion scanner *)

Section Scanner.

Context `{E : Externals}.




Lemma scan_from_app st a b :
  S3.scan_from st (a ++ b) = obind (S3.scan_from st a) (fun st' => S3.scan_from st' b).
Proof.
  revert st. induction a as [|x a IH]; intros st; [done|].
  cbn [app S3.scan_from]. destruct (S3.scan_step st x); [apply IH|done].
Qed.

Lemma scan_step_start st obj text :
  is_start obj text ->
  S3.scan_step st obj =
  Return (S3.mkScan (S3.images st)
            (if bool_decide (length (S3.parse_metadata text) < 10)%nat then false else true)
            [] (Some (S3.parse_metadata text))).
Proof.
  intros [Hd Hc]. unfold S3.scan_step. rewrite Hd. cbn [or_raise obind].
  fold START. by rewrite Hc.
Qed.

Lemma scan_step_end st obj :
  is_end obj -> S3.parsing st = true ->
  S3.scan_step st obj =
  Return (S3.mkScan (S3.images st ++ [(S3.arr st, S3.LastModified obj, S3.metadata st)])
                    false (S3.arr st) None).
Proof.
  intros Hd Hp. unfold S3.scan_step. rewrite Hd, Hp. done.
Qed.

Lemma scan_step_hex st obj chunk :
  S3.Body obj = Py.hexlify chunk -> S3.parsing st = true ->
  S3.scan_step st obj =
  Return (S3.mkScan (S3.images st) true (S3.arr st ++ chunk) (S3.metadata st)).
Proof.
  intros Hb Hp. unfold S3.scan_step. rewrite Hb, Hp.
  pose proof (hexlify_is_hex chunk) as Hhex.
  rewrite (decode_ascii _ (is_hex_ascii _ Hhex)). cbn [or_raise obind].
  change (Py.lit "Image Start") with (73%N :: Py.lit "mage Start").
  destruct (hex_text_no_marker _ 73%N (Py.lit "mage Start") Hhex eq_refl) as [-> _].
  destruct (hex_text_no_marker _ 123%N (Py.lit "Image Start}") Hhex eq_refl) as [_ H1].
  destruct (hex_text_no_marker _ 123%N (Py.lit "Image End}") Hhex eq_refl) as [_ H2].
  change (Py.lit "{Image Start}") with (123%N :: Py.lit "Image Start}").
  change (Py.lit "{Image End}") with (123%N :: Py.lit "Image End}").
  rewrite H1, H2. cbn [andb negb].
  by rewrite unhexlify_hexlify.
Qed.

Lemma scan_from_hex imgs acc md objs chunks :
  map S3.Body objs = map Py.hexlify chunks ->
  S3.scan_from (S3.mkScan imgs true acc md) objs =
  Return (S3.mkScan imgs true (acc ++ concat chunks) md).
Proof.
  revert acc chunks. induction objs as [|obj objs IH]; intros acc [|chunk chunks] Heq;
    try discriminate.
  - cbn. by rewrite app_nil_r.
  - injection Heq as Hb Hrest.
    cbn [S3.scan_from]. rewrite (scan_step_hex (S3.mkScan imgs true acc md) _ chunk Hb eq_refl).
    cbn [obind S3.images S3.arr S3.metadata]. rewrite (IH _ _ Hrest).
    cbn [concat]. by rewrite app_assoc.
Qed.

Lemma scan_frame (segs : list Py.bytes) (start : S3.s3object) (text : Py.str)
    (chunk_objs : list S3.s3object) (end_ : S3.s3object) :
  is_start start text ->
  (10 <= length (S3.parse_metadata text))%nat ->
  is_end end_ ->
  map S3.Body chunk_objs = map Py.hexlify segs ->
  S3.scan (start :: chunk_objs ++ [end_]) =
  Return [(concat segs, S3.LastModified end_, Some (S3.parse_metadata text))].
Proof.
  intros Hstart Hmd Hend Hbodies.
  unfold S3.scan. cbn [S3.scan_from].
  rewrite (scan_step_start _ _ _ Hstart). cbn [obind].
  rewrite bool_decide_eq_false_2 by lia.
  rewrite scan_from_app, (scan_from_hex _ _ _ _ segs Hbodies).
  cbn [obind S3.scan_from].
  by rewrite (scan_step_end (S3.mkScan _ true _ _) _ Hend eq_refl).
Qed.

(** C1: a payload cut by [imgToChunks] at a positive chunk size, each
    chunk hex-encoded and stored in order between a Start object with at
    least ten metadata fields and an End object, is what the scanner
    finalizes: one candidate entry carrying exactly the payload bytes. *)
Theorem roundtrip (payload : Py.bytes) (chunk_size : Z)
    (start : S3.s3object) (text : Py.str)
    (chunk_objs : list S3.s3object) (end_ : S3.s3object) :
  0 < chunk_size ->
  is_start start text ->
  (10 <= length (S3.parse_metadata text))%nat ->
  is_end end_ ->
  (forall segs, Comm.imgToChunks payload chunk_size = Return segs ->
                map S3.Body chunk_objs = map Py.hexlify segs) ->
  exists segs,
    Comm.imgToChunks payload chunk_size = Return segs /\
    S3.scan (start :: chunk_objs ++ [end_]) =
    Return [(payload, S3.LastModified end_, Some (S3.parse_metadata text))].
Proof.
  intros Hc Hstart Hmd Hend Hbodies.
  destruct (imgToChunks_concat payload chunk_size Hc) as (segs & Hret & Hcat).
  exists segs. split; [done|].
  rewrite (scan_frame segs start text chunk_objs end_ Hstart Hmd Hend (Hbodies _ Hret)).
  by rewrite Hcat.
Qed.

(** *** Frames that never finalize *)

Lemma start_not_end obj text : is_start obj text -> ~ is_end obj.
Proof.
  intros [Hd Hc] He. unfold is_end in He. rewrite Hd in He.
  injection He as ->. vm_compute in Hc. discriminate.
Qed.

Lemma scan_step_no_end st obj st' :
  ~ is_end obj -> S3.scan_step st obj = Return st' -> S3.images st' = S3.images st.
Proof.
  intros Hne. unfold S3.scan_step, is_end in *.
  destruct (Py.decode (S3.Body obj)) as [text|]; [|done]. cbn [or_raise obind].
  destruct (Py.contains _ text); [by intros [= <-]|].
  destruct (S3.parsing st && _); [|by intros [= <-]].
  unfold Py.str_eqb. case_bool_decide as Heq; [by subst text|].
  destruct (Py.unhexlify _); [|done]. by intros [= <-].
Qed.

Lemma scan_from_no_end st objs st' :
  Forall (fun obj => ~ is_end obj) objs ->
  S3.scan_from st objs = Return st' -> S3.images st' = S3.images st.
Proof.
  intros Hall. revert st. induction Hall as [|obj objs Hne _ IH]; intros st.
  - by intros [= <-].
  - cbn [S3.scan_from]. destruct (S3.scan_step st obj) as [st1|] eqn:Hstep; [|done].
    cbn [obind]. intros Hrest. rewrite (IH _ Hrest).
    by apply (scan_step_no_end st obj).
Qed.

(** *** The scanner only appends to [images] *)



Lemma scan_step_prepend pre st obj :
  S3.scan_step (prepend pre st) obj = omap (prepend pre) (S3.scan_step st obj).
Proof.
  unfold S3.scan_step, omap.
  destruct (Py.decode (S3.Body obj)) as [text|]; [|done]. cbn [or_raise obind].
  destruct (Py.contains _ text); [done|].
  cbn [prepend S3.parsing].
  destruct (S3.parsing st && _); [|done].
  destruct (Py.str_eqb text _).
  - cbn. unfold prepend. cbn. by rewrite app_assoc.
  - destruct (Py.unhexlify _); done.
Qed.

Lemma scan_from_prepend pre st objs :
  S3.scan_from (prepend pre st) objs = omap (prepend pre) (S3.scan_from st objs).
Proof.
  revert st. induction objs as [|obj objs IH]; intros st; [done|].
  cbn [S3.scan_from]. rewrite scan_step_prepend.
  destruct (S3.scan_step st obj); [apply IH|done].
Qed.

(** *** What an idle scanner remembers

    While [parsing] is false the scanner never reads [arr] or [metadata]:
    two idle states with the same [images] behave alike. *)


Lemma orel_refl {A} (o : outcome A) : orel eq o o.
Proof. by destruct o. Qed.

Lemma scan_step_alike st st' obj :
  alike st st' -> orel alike (S3.scan_step st obj) (S3.scan_step st' obj).
Proof.
  intros [->|(Hi & Hp & Hp')].
  - destruct (S3.scan_step st' obj); [by left|done].
  - unfold S3.scan_step.
    destruct (Py.decode (S3.Body obj)) as [text|]; [|done]. cbn [or_raise obind].
    destruct (Py.contains _ text).
    + rewrite Hi. by left.
    + rewrite Hp, Hp'. cbn. by right.
Qed.

Lemma scan_from_alike st st' objs :
  alike st st' -> orel alike (S3.scan_from st objs) (S3.scan_from st' objs).
Proof.
  revert st st'. induction objs as [|obj objs IH]; intros st st' Hal; [done|].
  cbn [S3.scan_from].
  pose proof (scan_step_alike st st' obj Hal) as Hstep.
  destruct (S3.scan_step st obj), (S3.scan_step st' obj); try done.
  by apply IH.
Qed.

Lemma alike_images (o o' : outcome S3.scan_state) :
  orel alike o o' -> omap S3.images o = omap S3.images o'.
Proof.
  destruct o as [st|], o' as [st'|]; cbn; try done.
  - by intros [->|(-> & _)].
  - by intros ->.
Qed.

(** C4: a frame whose Start object is followed by no End object (up to the
    next Start object or the end of the listing) emits nothing.  Take a
    listing [pre], then a Start object, then objects [mid] none of which is
    the End token.  If the scan gets through them, [images] is what it was
    after [pre], and the next Start object empties the accumulator and
    leaves the scanner where it would be had the unterminated frame not
    been there.  If the scan raises, [pull] raises before it touches the
    store.  A listing made of such a frame alone makes [pull] change
    nothing. *)
Theorem unterminated_frame_emits_nothing
    (pre : list S3.s3object) (start : S3.s3object) (text : Py.str)
    (mid : list S3.s3object) :
  is_start start text ->
  Forall (fun obj => ~ is_end obj) mid ->
  (forall st,
      S3.scan_from S3.scan_init (pre ++ start :: mid) = Return st ->
      exists st_pre,
        S3.scan_from S3.scan_init pre = Return st_pre /\
        S3.images st = S3.images st_pre /\
        forall next text',
          is_start next text' ->
          exists st', S3.scan_step st next = Return st' /\
                      S3.arr st' = [] /\
                      S3.images st' = S3.images st_pre /\
                      S3.scan_step st_pre next = Return st') /\
  (forall e,
      S3.scan_from S3.scan_init (pre ++ start :: mid) = Raise e ->
      forall self, S3.pull (pre ++ start :: mid) self = (Raise e, self)) /\
  (forall self : S3.pullS3, (S3.pull (start :: mid) self).2 = self).
Proof.
  intros Hstart Hmid.
  assert (Hall : Forall (fun obj => ~ is_end obj) (start :: mid)).
  { constructor; [by apply (start_not_end _ text)|done]. }
  split; [|split].
  - intros st. rewrite scan_from_app.
    destruct (S3.scan_from S3.scan_init pre) as [st_pre|] eqn:Hpre; [|done].
    cbn [obind]. intros Hscan. exists st_pre. split; [done|].
    pose proof (scan_from_no_end _ _ _ Hall Hscan) as Himgs.
    split; [done|]. intros next text' Hnext.
    eexists. split; [by apply scan_step_start|].
    split; [done|]. split; [done|].
    rewrite (scan_step_start _ _ _ Hnext). by rewrite Himgs.
  - intros e Hscan self. unfold S3.pull, bind, lift, S3.scan. by rewrite Hscan.
  - intros self. unfold S3.pull, bind, lift, S3.scan.
    destruct (S3.scan_from S3.scan_init (start :: mid)) as [st|] eqn:Hscan; [|done].
    cbn [obind]. rewrite (scan_from_no_end _ _ _ Hall Hscan). done.
Qed.

(** C5: a Start object whose metadata has fewer than ten fields puts the
    scanner back to idle at once, in whatever state it was, and emits
    nothing; the objects after it are scanned exactly as a fresh scanner
    scans them, their frames following the ones finalized before it. *)
Theorem short_start_is_skipped
    (pre : list S3.s3object) (start : S3.s3object) (text : Py.str)
    (rest : list S3.s3object) :
  is_start start text ->
  (length (S3.parse_metadata text) < 10)%nat ->
  (forall st, exists st',
      S3.scan_step st start = Return st' /\
      S3.parsing st' = false /\ S3.arr st' = [] /\
      S3.images st' = S3.images st) /\
  S3.scan (pre ++ start :: rest) =
  obind (S3.scan pre) (fun before =>
  omap (fun imgs => before ++ imgs) (S3.scan rest)).
Proof.
  intros Hstart Hshort.
  assert (Hstep : forall st, S3.scan_step st start =
            Return (S3.mkScan (S3.images st) false [] (Some (S3.parse_metadata text)))).
  { intros st. rewrite (scan_step_start st _ _ Hstart).
    by rewrite bool_decide_eq_true_2. }
  split; [intros st; rewrite Hstep; by eexists|].
  unfold S3.scan. rewrite scan_from_app.
  destruct (S3.scan_from S3.scan_init pre) as [st_pre|]; [|done].
  cbn [obind S3.scan_from]. rewrite Hstep. cbn [obind].
  set (st1 := S3.mkScan _ false [] _).
  assert (Hal : alike st1 (prepend (S3.images st_pre) S3.scan_init)).
  { right. cbn. by rewrite app_nil_r. }
  pose proof (alike_images _ _ (scan_from_alike _ _ rest Hal)) as Heq.
  unfold omap in *. rewrite Heq, scan_from_prepend. unfold omap.
  by destruct (S3.scan_from S3.scan_init rest).
Qed.

(** A listing without any End object never lets [pull] return: the scan
    raises, or it ends without an image. *)
Lemma pull_without_end_object (objs : list S3.s3object) (self : S3.pullS3) :
  Forall (fun obj => ~ is_end obj) objs ->
  exists e, S3.pull objs self = (Raise e, self).
Proof.
  intros Hall. unfold S3.pull, bind, lift, S3.scan.
  destruct (S3.scan_from S3.scan_init objs) as [st|e] eqn:Hscan; [|by exists e].
  cbn [obind]. rewrite (scan_from_no_end _ _ _ Hall Hscan). by exists TypeError.
Qed.

(** C9: when the scanner finalizes no frame, [pull] raises the
    [TypeError] of subscripting [None] at the update of [mostRecent], and
    the store is as it was; so it is for an empty bucket. *)
Theorem pull_without_frames_raises (objs : list S3.s3object) (self : S3.pullS3) :
  S3.scan objs = Return [] ->
  S3.pull objs self = (Raise TypeError, self) /\
  S3.pull [] self = (Raise TypeError, self).
Proof.
  intros Hscan. unfold S3.pull, bind, lift. by rewrite Hscan.
Qed.

End Scanner.

(** *** The Start token the sender builds *)

Lemma count_app sep a b : count sep (a ++ b) = (count sep a + count sep b)%nat.
Proof. unfold count. by rewrite List.filter_app, length_app. Qed.

Lemma length_split sep s : length (Py.split sep s) = S (count sep s).
Proof.
  induction s as [|c s IH]; [done|].
  cbn [Py.split]. unfold count in *. cbn [List.filter].
  destruct (c =? sep)%N; cbn [length]; [by rewrite IH|].
  destruct (Py.split sep s); [done|]. cbn [length] in *. lia.
Qed.

Lemma count_remove_char sep c s :
  c <> sep -> count sep (Py.remove_char c s) = count sep s.
Proof.
  intros Hne. unfold count, Py.remove_char.
  induction s as [|x s IH]; [done|]. cbn [List.filter].
  destruct (N.eqb_spec x c) as [->|Hx]; cbn [negb].
  - destruct (N.eqb_spec c sep); [done|]. apply IH.
  - cbn [List.filter]. destruct (x =? sep)%N; cbn [length]; by rewrite IH.
Qed.

Lemma length_parse_metadata text :
  length (S3.parse_metadata text) = count 44 text.
Proof.
  unfold S3.parse_metadata. rewrite length_drop, length_split.
  rewrite !count_remove_char by done. lia.
Qed.

Lemma start_header_eq (headers : list Py.str) :
  Comm.start_header headers =
  Py.lit "{Image Start" ++ flat_map (fun m => 44%N :: m) headers ++ Py.lit "}".
Proof.
  unfold Comm.start_header.
  assert (H : forall acc, fold_left (fun header metadata => header ++ Py.lit "," ++ metadata)
                                    headers acc
                         = acc ++ flat_map (fun m => 44%N :: m) headers).
  { induction headers as [|m l IH]; intros acc; cbn [fold_left flat_map].
    - by rewrite app_nil_r.
    - rewrite IH. by rewrite <- !app_assoc. }
  by rewrite H, <- app_assoc.
Qed.

Lemma count_flat_map_commas (headers : list Py.str) :
  (length headers <= count 44 (flat_map (fun m => 44%N :: m) headers))%nat.
Proof.
  induction headers as [|m l IH]; [done|].
  cbn [flat_map length]. rewrite (count_app 44 (44%N :: m)).
  unfold count at 1. cbn [List.filter N.eqb Pos.eqb length]. lia.
Qed.

Lemma startswith_app p s : Py.startswith p (p ++ s) = true.
Proof.
  induction p as [|a p IH]; [done|]. cbn [app Py.startswith].
  by rewrite N.eqb_refl, IH.
Qed.

Lemma contains_startswith p s : Py.startswith p s = true -> Py.contains p s = true.
Proof. intros H. destruct s; cbn [Py.contains]; by rewrite H. Qed.

Lemma contains_cons x p s : Py.contains p s = true -> Py.contains p (x :: s) = true.
Proof. intros H. cbn [Py.contains]. rewrite H. apply orb_true_r. Qed.

Lemma contains_start_header (headers : list Py.str) :
  Py.contains START (Comm.start_header headers) = true /\
  (length headers <= length (S3.parse_metadata (Comm.start_header headers)))%nat.
Proof.
  rewrite length_parse_metadata, start_header_eq. split.
  - change (Py.lit "{Image Start") with ([123%N] ++ START).
    rewrite <- !app_assoc. apply contains_cons, contains_startswith, startswith_app.
  - rewrite !count_app. pose proof (count_flat_map_commas headers). lia.
Qed.


(** ** The dedup and aggregation store *)

Section Store.
Context `{E : Externals}.
Local Arguments Py.lit : simpl never.
Local Arguments S3.asset_path : simpl never.
Local Arguments S3.datetimeToString : simpl never.
Local Arguments S3.roundTime : simpl never.
Local Arguments S3.in_hourly : simpl never.
Local Arguments S3.getIndexes : simpl never.
Local Arguments S3.incr_count : simpl never.






Lemma process_eq (img : S3.image) (self : S3.pullS3) :
  S3.process img self =
  if bool_decide (key_of img ∈ S3.files self) then (Return tt, self)
  else match png_of img.1.1 (S3.asset_path (key_of img)) with
       | Raise e => (Raise e, self)
       | Return png =>
           match S3.truthy img.2 with
           | None => count_step img (saved img png self)
           | Some md =>
               match S3.make_row md (key_of img) with
               | Raise e => (Raise e, saved img png self)
               | Return r => count_step img (with_row r (saved img png self))
               end
           end
       end.
Proof.
  unfold S3.process, bind, get, ret, lift, throw, S3.set_assets, S3.set_files,
    S3.set_map_data, S3.set_hourly, modify, count_step, with_bucket, saved, with_row, key_of.
  case_bool_decide; [done|].
  destruct (png_of img.1.1 _) as [png|]; [|done]. cbn [or_raise].
  destruct (S3.truthy img.2) as [md|].
  - destruct (S3.make_row md _); [|done]. cbn.
    destruct (S3.in_hourly _ _); cbn; destruct (head _); done.
  - cbn. destruct (S3.in_hourly _ _); cbn; destruct (head _); done.
Qed.

(** [getIndexes] finds the bucket once it is in the table, so the
    subscript [[0][0]] never fails. *)
Lemma getIndexes_found (d : datetime) (h : list (datetime * Z)) :
  S3.in_hourly d (with_bucket d h) = true /\
  exists loc, head (S3.getIndexes (with_bucket d h) d) = Some loc.
Proof.
  assert (Hin : S3.in_hourly d (with_bucket d h) = true).
  { unfold with_bucket. destruct (S3.in_hourly d h) eqn:Hh; [done|].
    unfold S3.in_hourly. rewrite existsb_app. cbn.
    rewrite bool_decide_eq_true_2 by done. by rewrite orb_true_r. }
  split; [done|].
  unfold S3.in_hourly in Hin. apply existsb_exists in Hin as (r & Hr & Hd).
  apply bool_decide_eq_true_1 in Hd.
  apply list_elem_of_In, list_elem_of_lookup in Hr as [i Hi].
  assert (Hmem : In i (S3.getIndexes (with_bucket d h) d)).
  { unfold S3.getIndexes. apply filter_In. split.
    - apply in_seq. apply lookup_lt_Some in Hi. lia.
    - apply bool_decide_eq_true_2. rewrite Hi. cbn. by rewrite Hd. }
  destruct (S3.getIndexes _ d) as [|loc ?]; [done|]. by exists loc.
Qed.

Lemma count_step_returns (img : S3.image) (s : S3.pullS3) :
  exists h, count_step img s =
            (Return tt, S3.mkPullS3 (S3.files s ++ [key_of img]) (S3.mostRecent s)
                                    (S3.map_data s) h (S3.assets s)).
Proof.
  unfold count_step.
  destruct (getIndexes_found (S3.roundTime img.1.2 (60 * 60)) (S3.hourly s))
    as (_ & loc & ->).
  by eexists.
Qed.

(** *** What one iteration does to [files] *)

Lemma process_seen (img : S3.image) (self : S3.pullS3) :
  key_of img ∈ S3.files self -> S3.process img self = (Return tt, self).
Proof. intros Hin. rewrite process_eq. by rewrite bool_decide_eq_true_2. Qed.

Lemma process_files (img : S3.image) (self self' : S3.pullS3) (r : outcome unit) :
  S3.process img self = (r, self') ->
  (forall k, k ∈ S3.files self -> k ∈ S3.files self') /\
  (r = Return tt -> key_of img ∈ S3.files self').
Proof.
  rewrite process_eq. case_bool_decide as Hk; [by intros [= <- <-]|].
  destruct (png_of img.1.1 _) as [png|]; [|by intros [= <- <-]].
  assert (Hcount : forall s, S3.files s = S3.files self ->
            count_step img s = (r, self') ->
            (forall k, k ∈ S3.files self -> k ∈ S3.files self') /\
            (r = Return tt -> key_of img ∈ S3.files self')).
  { intros s Hs. destruct (count_step_returns img s) as [h ->].
    intros [= <- <-]. cbn. rewrite Hs. split; [|intros _]; set_solver. }
  destruct (S3.truthy img.2) as [md|]; [|by apply Hcount].
  destruct (S3.make_row md _) as [row|e]; [by apply Hcount|].
  by intros [= <- <-].
Qed.

(** An iteration that raised raises again from the store it left, and
    leaves it as it is. *)
Lemma process_raise_again (img : S3.image) (self self' : S3.pullS3) (e : exn) :
  S3.process img self = (Raise e, self') ->
  S3.process img self' = (Raise e, self').
Proof.
  intros Hrun. pose proof Hrun as Hrun'. rewrite process_eq in Hrun'.
  case_bool_decide as Hk; [done|].
  destruct (png_of img.1.1 _) as [png|] eqn:Hpng; [|by injection Hrun' as <- <-].
  assert (Hcount : forall s, count_step img s <> (Raise e, self')).
  { intros s. by destruct (count_step_returns img s) as [h ->]. }
  destruct (S3.truthy img.2) as [md|] eqn:Hmd; [|by destruct (Hcount _ Hrun')].
  destruct (S3.make_row md _) as [row|e'] eqn:Hrow; [by destruct (Hcount _ Hrun')|].
  injection Hrun' as <- <-.
  rewrite process_eq. cbn [saved S3.files].
  rewrite bool_decide_eq_false_2 by done. rewrite Hpng, Hmd, Hrow.
  unfold saved. cbn [S3.files S3.mostRecent S3.map_data S3.hourly S3.assets].
  by rewrite insert_insert_eq.
Qed.

(** The loop body does not read [mostRecent]. *)

Lemma process_with_mostRecent (v : option Py.str) (img : S3.image) (s : S3.pullS3) :
  S3.process img (with_mostRecent v s) =
  ((S3.process img s).1, with_mostRecent v (S3.process img s).2).
Proof.
  rewrite !process_eq. cbn [with_mostRecent S3.files].
  case_bool_decide; [done|].
  destruct (png_of img.1.1 _) as [png|]; [|done].
  assert (Hcount : forall s, count_step img (with_mostRecent v s) =
                             ((count_step img s).1, with_mostRecent v (count_step img s).2)).
  { intros s0. unfold count_step. cbn [with_mostRecent S3.hourly S3.files S3.map_data S3.assets S3.mostRecent].
    by destruct (head _). }
  destruct (S3.truthy img.2) as [md|]; [|apply (Hcount (saved img png s))].
  destruct (S3.make_row md _) as [r|]; [apply (Hcount (with_row r (saved img png s)))|done].
Qed.

(** *** The loop *)

Lemma for_images_files imgs newest self r self' :
  S3.for_images imgs newest self = (r, self') ->
  forall k, k ∈ S3.files self -> k ∈ S3.files self'.
Proof.
  revert newest self. induction imgs as [|img imgs IH]; intros newest self.
  - by intros [= <- <-].
  - cbn [S3.for_images]. unfold bind.
    destruct (S3.process img self) as [[[]|e] s1] eqn:Hp.
    + intros Hrest k Hk. apply (IH _ _ Hrest).
      by apply (process_files _ _ _ _ Hp).
    + intros [= <- <-]. by apply (process_files _ _ _ _ Hp).
Qed.

Lemma for_images_again imgs newest self r self' :
  S3.for_images imgs newest self = (r, self') ->
  S3.for_images imgs newest self' = (r, self').
Proof.
  revert newest self. induction imgs as [|img imgs IH]; intros newest self.
  - by intros [= <- <-].
  - cbn [S3.for_images]. unfold bind.
    destruct (S3.process img self) as [[[]|e] s1] eqn:Hp.
    + intros Hrest.
      rewrite process_seen; [by apply (IH _ s1)|].
      apply (for_images_files _ _ _ _ _ Hrest).
      by apply (process_files _ _ _ _ Hp).
    + intros [= <- <-]. by rewrite (process_raise_again _ _ _ _ Hp).
Qed.

Lemma for_images_with_mostRecent v imgs newest s :
  S3.for_images imgs newest (with_mostRecent v s) =
  ((S3.for_images imgs newest s).1, with_mostRecent v (S3.for_images imgs newest s).2).
Proof.
  revert newest s. induction imgs as [|img imgs IH]; intros newest s; [done|].
  cbn [S3.for_images]. unfold bind. rewrite process_with_mostRecent.
  destruct (S3.process img s) as [[[]|e] s1]; cbn [fst snd]; [apply IH|done].
Qed.

Lemma for_images_seen imgs newest self self' newest' :
  S3.for_images imgs newest self = (Return newest', self') ->
  Forall (fun img => key_of img ∈ S3.files self') imgs /\
  newest' = from_option Some newest (list.last imgs).
Proof.
  revert newest self. induction imgs as [|img imgs IH]; intros newest self.
  - intros [= <- <-]. by split.
  - cbn [S3.for_images]. unfold bind.
    destruct (S3.process img self) as [[[]|e] s1] eqn:Hp; [|done].
    intros Hrest. destruct (IH _ _ Hrest) as [Hall ->]. split.
    + constructor; [|done]. apply (for_images_files _ _ _ _ _ Hrest).
      by apply (process_files _ _ _ _ Hp).
    + destruct imgs as [|a l]; [done|].
      change (list.last (img :: a :: l)) with (list.last (a :: l)).
      destruct (list.last (a :: l)) eqn:Hl; [done|]. by apply last_None in Hl.
Qed.

Lemma pull_again objs self :
  S3.pull objs (S3.pull objs self).2 = S3.pull objs self.
Proof.
  unfold S3.pull, bind, lift.
  destruct (S3.scan objs) as [imgs|e]; [|done].
  destruct (S3.for_images imgs (head imgs) self) as [[[img|]|e] s1] eqn:Hloop.
  - unfold S3.set_mostRecent, modify. cbn [snd].
    fold (with_mostRecent (Some (S3.datetimeToString img.1.2)) s1).
    rewrite for_images_with_mostRecent, (for_images_again _ _ _ _ _ Hloop).
    done.
  - unfold throw. cbn [snd]. by rewrite (for_images_again _ _ _ _ _ Hloop).
  - cbn [snd]. by rewrite (for_images_again _ _ _ _ _ Hloop).
Qed.

(** C3: a second [pull] over the same listing ends as the first did and
    leaves the store exactly as the first left it: no row is added to
    [map_data], no bucket of [hourly] changes, no file under [assets]
    changes; and after a first [pull] that returned, every candidate's
    key is in [files], so the second one skips them all. *)
Theorem pull_twice (objs : list S3.s3object) (self : S3.pullS3) :
  let first := S3.pull objs self in
  let second := S3.pull objs first.2 in
  second = first /\
  length (S3.map_data second.2) = length (S3.map_data first.2) /\
  S3.hourly second.2 = S3.hourly first.2 /\
  S3.assets second.2 = S3.assets first.2 /\
  S3.files second.2 = S3.files first.2 /\
  (first.1 = Return tt ->
   forall imgs, S3.scan objs = Return imgs ->
                Forall (fun img => key_of img ∈ S3.files first.2) imgs).
Proof.
  cbn zeta. rewrite pull_again. repeat (split; [done|]).
  unfold S3.pull, bind, lift. intros Hret imgs Hscan. rewrite Hscan in *.
  destruct (S3.for_images imgs (head imgs) self) as [[[img|]|e] s1] eqn:Hloop;
    try done.
  destruct (for_images_seen _ _ _ _ _ Hloop) as [Hall _].
  unfold S3.set_mostRecent, modify. cbn [snd S3.files]. done.
Qed.

Lemma for_images_mostRecent imgs newest s :
  S3.mostRecent (S3.for_images imgs newest s).2 = S3.mostRecent s.
Proof.
  pose proof (for_images_with_mostRecent (S3.mostRecent s) imgs newest s) as H.
  replace (with_mostRecent (S3.mostRecent s) s) with s in H by (by destruct s).
  by apply (f_equal (fun x => S3.mostRecent x.2)) in H.
Qed.

(** C8 (amended): after every [pull] that returns, [mostRecent] is the
    formatted timestamp of the last candidate of the scan, whatever the
    store held before (so whether or not that candidate's key was already
    in [files]) and whatever the order of the timestamps.  A [pull] that
    raises, while it processes a candidate or for want of one, leaves
    [mostRecent] as it was. *)
Theorem mostRecent_is_last (objs : list S3.s3object) (imgs : list S3.image)
    (self : S3.pullS3) :
  S3.scan objs = Return imgs ->
  ((S3.pull objs self).1 = Return tt ->
   exists img, list.last imgs = Some img /\
               S3.mostRecent (S3.pull objs self).2 = Some (key_of img)) /\
  (forall e, (S3.pull objs self).1 = Raise e ->
             S3.mostRecent (S3.pull objs self).2 = S3.mostRecent self).
Proof.
  unfold S3.pull, bind, lift. intros ->.
  pose proof (for_images_mostRecent imgs (head imgs) self) as Hsame.
  destruct (S3.for_images imgs (head imgs) self) as [[[img|]|e] s1] eqn:Hloop;
    cbn [fst snd] in *.
  - split; [|done]. intros _.
    destruct (for_images_seen _ _ _ _ _ Hloop) as [_ Hlast].
    exists img. split; [|done].
    destruct (list.last imgs) as [l|] eqn:Hl; [by injection Hlast as ->|].
    apply last_None in Hl. subst imgs. cbn in Hlast. done.
  - split; [done|]. by intros e _.
  - split; [done|]. by intros e' _.
Qed.

Lemma process_row (img : S3.image) (self : S3.pullS3) :
  let self' := (S3.process img self).2 in
  S3.map_data self' = S3.map_data self \/
  exists md field2 clusters r,
    img.2 = Some md /\ md !! 2%nat = Some field2 /\
    float_of_str field2 = Some clusters /\
    S3.map_data self' = S3.map_data self ++ [r] /\
    S3.Number_of_Clusters r = clusters /\
    S3._size_ r = float_add clusters (float_of_int 1).
Proof.
  cbn zeta. rewrite process_eq. case_bool_decide; [by left|].
  destruct (png_of img.1.1 _) as [png|]; [|by left].
  destruct (S3.truthy img.2) as [md|] eqn:Hmd.
  - assert (img.2 = Some md) as Himg.
    { destruct img.2 as [[|??]|]; by inversion Hmd. }
    destruct (S3.make_row md _) as [r|e] eqn:Hrow; [|by left].
    right. destruct (count_step_returns img (with_row r (saved img png self))) as [h ->].
    unfold S3.make_row, S3.field in Hrow.
    destruct (md !! 2%nat) as [field2|] eqn:H2; [|done]. cbn [or_raise obind] in Hrow.
    destruct (float_of_str field2) as [clusters|] eqn:Hf; [|done].
    cbn [or_raise obind] in Hrow.
    repeat match type of Hrow with
           | obind ?o _ = _ => destruct o; [cbn [obind] in Hrow|done]
           end.
    injection Hrow as <-. exists md, field2, clusters. eexists.
    cbn [snd S3.map_data with_row saved]. by repeat split.
  - left. by destruct (count_step_returns img (saved img png self)) as [h ->].
Qed.

Lemma for_images_sized imgs newest self :
  Forall sized (S3.map_data self) ->
  Forall sized (S3.map_data (S3.for_images imgs newest self).2).
Proof.
  revert newest self. induction imgs as [|img imgs IH]; intros newest self Hall; [done|].
  cbn [S3.for_images]. unfold bind.
  assert (Hstep : Forall sized (S3.map_data (S3.process img self).2)).
  { destruct (process_row img self) as [->|(md & f2 & c & r & _ & _ & _ & -> & Hc & Hs)];
      [done|].
    apply Forall_app. split; [done|]. constructor; [|done].
    unfold sized. by rewrite Hs, Hc. }
  destruct (S3.process img self) as [[[]|e] s1]; cbn [snd] in *; [by apply IH|done].
Qed.

(** C10: an iteration of the loop either leaves [map_data] as it is or
    appends one row, built from the candidate's metadata: its cluster
    count is [float] of the third field and its [_size_] is that number
    plus one.  So [pull] keeps every row of [map_data] with a [_size_] one
    above its cluster count. *)
Theorem size_is_clusters_plus_one (img : S3.image) (self : S3.pullS3)
    (objs : list S3.s3object) :
  (let self' := (S3.process img self).2 in
   S3.map_data self' = S3.map_data self \/
   exists md field2 clusters r,
     img.2 = Some md /\ md !! 2%nat = Some field2 /\
     float_of_str field2 = Some clusters /\
     S3.map_data self' = S3.map_data self ++ [r] /\
     S3.Number_of_Clusters r = clusters /\
     S3._size_ r = float_add clusters (float_of_int 1)) /\
  (Forall sized (S3.map_data self) ->
   Forall sized (S3.map_data (S3.pull objs self).2)).
Proof.
  split; [apply process_row|]. intros Hall.
  unfold S3.pull, bind, lift.
  destruct (S3.scan objs) as [imgs|e]; [|done].
  pose proof (for_images_sized imgs (head imgs) self Hall) as Hloop.
  by destruct (S3.for_images imgs (head imgs) self) as [[[img'|]|e] s1].
Qed.

End Store.

(** ** The AT transaction and the session set-up *)

Ltac nonneg := first [assumption | by apply Qle_bool_imp_le].

Section Channel.

Implicit Types (s : Comm.serial) (command back : Py.str) (timeout : Q).
Local Arguments Py.decode : simpl never.
Local Arguments Py.encode : simpl never.
Local Arguments Py.contains : simpl never.
Local Arguments Py.lit : simpl never.


Lemma time_sleep_run d s :
  (0 <= d)%Q ->
  Comm.time_sleep d s =
  (Return tt, Comm.mkSerial (Comm.rx s ++ List.hd [] (Comm.arrivals s))
                            (List.tl (Comm.arrivals s))
                            (Comm.trace s ++ [Comm.Sleep d])).
Proof.
  intros Hd. unfold Comm.time_sleep. by rewrite (proj2 (Qle_bool_iff 0 d) Hd).
Qed.

Lemma time_sleep_negative d s :
  (d < 0)%Q -> Comm.time_sleep d s = (Raise ValueError, s).
Proof.
  intros Hd. unfold Comm.time_sleep.
  destruct (Qle_bool 0 d) eqn:Hle; [|done].
  apply Qle_bool_iff in Hle. by apply Qle_not_lt in Hle.
Qed.

Lemma AT_run command back timeout s data :
  Py.encode (command ++ Comm.CRLF) = Some data ->
  (0 <= timeout)%Q ->
  Comm.AT command back timeout s =
  if bool_decide (buffered s = []) then
    (Return None,
     Comm.mkSerial [] (List.tl (Comm.arrivals s))
                   (Comm.trace s ++ [Comm.Write data; Comm.Sleep timeout]))
  else
    let s' := Comm.mkSerial [] (List.tl (List.tl (Comm.arrivals s)))
                (Comm.trace s ++ [Comm.Write data; Comm.Sleep timeout;
                                  Comm.Sleep (1 # 10); Comm.Read (answer s)]) in
    match Py.decode (answer s) with
    | Some text => (Return (if Py.contains back text then Some 1 else Some 0), s')
    | None => (Raise UnicodeDecodeError, s')
    end.
Proof.
  intros Henc Ht. unfold Comm.AT, bind, lift, Comm.ser_write.
  rewrite Henc. cbn [or_raise modify]. rewrite (time_sleep_run _ _ Ht).
  unfold Comm.ser_inWaiting, Comm.ser_read, bind, modify, get, ret, answer.
  cbn [Comm.rx Comm.arrivals Comm.trace].
  fold (buffered s).
  destruct (buffered s) as [|b0 bs] eqn:Hbuf.
  - cbn. rewrite (bool_decide_eq_false_2 (0 ≠ 0)%nat) by lia.
    cbn. by rewrite <- app_assoc.
  - rewrite !(bool_decide_eq_false_2 (b0 :: bs = [])) by done.
    cbn [length]. rewrite bool_decide_eq_true_2 by done.
    rewrite (time_sleep_run (1 # 10)) by done.
    cbn. rewrite firstn_all, skipn_all. rewrite <- !app_assoc. cbn [app].
    destruct (Py.decode _) as [text|]; [|done]. cbn [or_raise].
    by destruct (Py.contains back text).
Qed.

Lemma AT_run_negative command back timeout s data :
  Py.encode (command ++ Comm.CRLF) = Some data ->
  (timeout < 0)%Q ->
  Comm.AT command back timeout s =
  (Raise ValueError,
   Comm.mkSerial (Comm.rx s) (Comm.arrivals s) (Comm.trace s ++ [Comm.Write data])).
Proof.
  intros Henc Ht. unfold Comm.AT, bind, lift, Comm.ser_write.
  rewrite Henc. cbn [or_raise modify]. by rewrite (time_sleep_negative _ _ Ht).
Qed.


(** *** Channels that carry text *)



Lemma writes_app tr tr' : writes (tr ++ tr') = writes tr ++ writes tr'.
Proof. apply flat_map_app. Qed.

Lemma is_text_nil : is_text [].
Proof. by eexists. Qed.

Lemma text_channel_hd s : text_channel s -> is_text (List.hd [] (Comm.arrivals s)).
Proof. intros [_ Ha]. destruct Ha; [apply is_text_nil|done]. Qed.

Lemma Forall_tl {A} (P : A -> Prop) (l : list A) : Forall P l -> Forall P (List.tl l).
Proof. by destruct 1. Qed.

Lemma text_channel_tl s : text_channel s -> Forall is_text (List.tl (Comm.arrivals s)).
Proof. intros [_ Ha]. by destruct Ha. Qed.

Lemma time_sleep_text d s :
  text_channel s -> (0 <= d)%Q ->
  exists s', Comm.time_sleep d s = (Return tt, s') /\ text_channel s' /\
             writes (Comm.trace s') = writes (Comm.trace s).
Proof.
  intros Hs Hd. rewrite (time_sleep_run _ _ Hd).
  eexists. split; [done|]. split; [split|]; cbn.
  - apply is_text_app; [apply Hs|by apply text_channel_hd].
  - by apply text_channel_tl.
  - rewrite writes_app. cbn. by rewrite app_nil_r.
Qed.

Lemma write_str_text str s :
  encodable str -> text_channel s ->
  exists s', Comm.write_str str s = (Return tt, s') /\ text_channel s' /\
             writes (Comm.trace s') = writes (Comm.trace s) ++ [published str].
Proof.
  intros Henc Hs. unfold Comm.write_str, bind, lift.
  rewrite (encode_published _ Henc). eexists. split; [done|]. split; [done|].
  cbn. by rewrite writes_app.
Qed.

Lemma AT_text command back timeout s :
  encodable command -> text_channel s -> (0 <= timeout)%Q ->
  exists r s', Comm.AT command back timeout s = (Return r, s') /\ text_channel s' /\
               writes (Comm.trace s') =
               writes (Comm.trace s) ++ [published (command ++ Comm.CRLF)].
Proof.
  intros Henc Hs Ht.
  pose proof (encodable_app _ _ Henc encodable_CRLF) as Hcmd.
  rewrite (AT_run _ _ _ _ _ (encode_published _ Hcmd) Ht).
  assert (Hbuf : is_text (buffered s)).
  { apply is_text_app; [apply Hs|by apply text_channel_hd]. }
  pose proof (text_channel_tl s Hs) as Htl.
  case_bool_decide as Hb.
  - do 2 eexists. split; [done|]. split; [split; [apply is_text_nil|done]|].
    cbn. rewrite writes_app. cbn. done.
  - assert (Hans : is_text (answer s)).
    { unfold answer. rewrite bool_decide_eq_false_2 by done.
      apply is_text_app; [done|]. destruct Htl; [apply is_text_nil|done]. }
    destruct Hans as [text ->]. cbn zeta.
    do 2 eexists. split; [done|]. split.
    + split; [apply is_text_nil|]. cbn. by apply Forall_tl.
    + cbn. rewrite writes_app. done.
Qed.

End Channel.

Lemma bind_run {S A B} (c : M S A) (k : A -> M S B) (s s1 : S) (a : A) :
  c s = (Return a, s1) -> bind c k s = k a s1.
Proof. unfold bind. by intros ->. Qed.

Ltac encodable_tac :=
  unfold Comm.cmd_start, Comm.cmd_accq, Comm.cmd_sslcfg, Comm.cmd_willtopic,
    Comm.cmd_willmsg, Comm.cmd_connect, Py.str_of_nat;
  repeat first [ assumption | apply encodable_lit | apply encodable_dq
               | apply encodable_app ].



(** *** Any channel: a step returns, or it read what is not text *)








(** ** The sender and the scanner together *)

Section Sending.

Implicit Types (s : Comm.serial).
Local Arguments Py.decode : simpl never.
Local Arguments Py.encode : simpl never.
Local Arguments Py.lit : simpl never.

Lemma ser_write_text data s :
  text_channel s ->
  exists s', Comm.ser_write data s = (Return tt, s') /\ text_channel s' /\
             writes (Comm.trace s') = writes (Comm.trace s) ++ [data].
Proof.
  intros Hs. eexists. split; [done|]. split; [done|]. cbn. by rewrite writes_app.
Qed.

Lemma mqtt_pub_text p topic s :
  encodable topic ->
  (forall str, p = Comm.PStr str -> encodable str) ->
  text_channel s ->
  exists s', Comm.mqtt_pub p topic (payload_raw p) s = (Return tt, s') /\
             text_channel s' /\
             writes (Comm.trace s') = writes (Comm.trace s) ++ mqtt_pub_writes p topic.
Proof.
  intros Ht Hp Hs. unfold Comm.mqtt_pub.
  destruct (AT_text (Py.lit "AT+CMQTTTOPIC=0," ++ Py.str_of_nat (length topic))
              (Py.lit ">") 2 s ltac:(encodable_tac) Hs ltac:(nonneg)) as (r1 & s1 & H1 & Hs1 & W1).
  rewrite (bind_run _ _ _ _ _ H1).
  destruct (write_str_text topic s1 Ht Hs1) as (s2 & H2 & Hs2 & W2).
  rewrite (bind_run _ _ _ _ _ H2).
  destruct (time_sleep_text 2 s2 Hs2 ltac:(nonneg)) as (s3 & H3 & Hs3 & W3).
  rewrite (bind_run _ _ _ _ _ H3).
  destruct (AT_text (Py.lit "AT+CMQTTPAYLOAD=0," ++ Py.str_of_nat (Comm.payload_len p))
              (Py.lit ">") 2 s3 ltac:(encodable_tac) Hs3 ltac:(nonneg)) as (r4 & s4 & H4 & Hs4 & W4).
  rewrite (bind_run _ _ _ _ _ H4).
  assert (exists s5, match payload_raw p, p with
                     | false, Comm.PStr str => Comm.write_str str
                     | false, Comm.PBytes _ => throw AttributeError
                     | true, Comm.PBytes b => Comm.ser_write b
                     | true, Comm.PStr _ => throw TypeError
                     end s4 = (Return tt, s5) /\ text_channel s5 /\
                     writes (Comm.trace s5) = writes (Comm.trace s4) ++ [payload_bytes p])
    as (s5 & H5 & Hs5 & W5).
  { destruct p as [str|b]; cbn [payload_raw payload_bytes].
    - by apply write_str_text; [apply Hp|].
    - by apply ser_write_text. }
  rewrite (bind_run _ _ _ _ _ H5).
  destruct (time_sleep_text 2 s5 Hs5 ltac:(nonneg)) as (s6 & H6 & Hs6 & W6).
  rewrite (bind_run _ _ _ _ _ H6).
  destruct (AT_text (Py.lit "AT+CMQTTPUB=0,1,60") (Py.lit "+CMQTTPUB: 0,0") 1 s6
              ltac:(encodable_tac) Hs6 ltac:(nonneg)) as (r7 & s7 & H7 & Hs7 & W7).
  rewrite (bind_run _ _ _ _ _ H7).
  exists s7. split; [done|]. split; [done|].
  rewrite W7, W6, W5, W4, W3, W2, W1. unfold mqtt_pub_writes.
  by rewrite <- !app_assoc.
Qed.

Lemma for_msgs_text msgs s :
  text_channel s ->
  exists s', Comm.for_msgs msgs s = (Return tt, s') /\ text_channel s' /\
             writes (Comm.trace s') =
             writes (Comm.trace s) ++
             flat_map (fun msg => mqtt_pub_writes (Comm.PBytes (Py.hexlify msg))
                                                  Comm.default_topic) msgs.
Proof.
  revert s. induction msgs as [|msg msgs IH]; intros s Hs.
  - exists s. split; [done|]. split; [done|]. cbn. by rewrite app_nil_r.
  - cbn [Comm.for_msgs flat_map].
    destruct (mqtt_pub_text (Comm.PBytes (Py.hexlify msg)) Comm.default_topic s
                (encodable_lit _) ltac:(done) Hs) as (s1 & H1 & Hs1 & W1).
    cbn [payload_raw] in H1. rewrite (bind_run _ _ _ _ _ H1).
    destruct (IH s1 Hs1) as (s2 & H2 & Hs2 & W2).
    exists s2. split; [done|]. split; [done|].
    rewrite W2, W1. by rewrite <- app_assoc.
Qed.

Lemma encodable_start_header headers :
  Forall encodable headers -> encodable (Comm.start_header headers).
Proof.
  intros Hall. rewrite start_header_eq.
  apply encodable_app; [apply encodable_lit|].
  apply encodable_app; [|apply encodable_lit].
  induction Hall as [|m l Hm _ IH]; [by eexists|].
  cbn [flat_map]. change (44%N :: m) with (Py.lit "," ++ m).
  repeat apply encodable_app; try done. apply encodable_lit.
Qed.

(** On a channel that carries text, [mqtt_sendimg] publishes the Start
    token, the hex of each chunk in order, and the End token: the payload
    bytes it writes are those of [frame_payloads]. *)
Lemma mqtt_sendimg_text msgs headers s :
  Forall encodable headers -> text_channel s ->
  exists s', Comm.mqtt_sendimg msgs headers s = (Return tt, s') /\
             writes (Comm.trace s') =
             writes (Comm.trace s) ++
             flat_map (fun p => mqtt_pub_writes p Comm.default_topic)
                      (frame_payloads msgs headers).
Proof.
  intros Hh Hs. unfold Comm.mqtt_sendimg, frame_payloads.
  destruct (mqtt_pub_text (Comm.PStr (Comm.start_header headers)) Comm.default_topic s
              (encodable_lit _)) as (s1 & H1 & Hs1 & W1); [|done|].
  { intros str [= <-]. by apply encodable_start_header. }
  cbn [payload_raw] in H1. rewrite (bind_run _ _ _ _ _ H1).
  destruct (for_msgs_text msgs s1 Hs1) as (s2 & H2 & Hs2 & W2).
  rewrite (bind_run _ _ _ _ _ H2).
  destruct (mqtt_pub_text (Comm.PStr Comm.image_end) Comm.default_topic s2
              (encodable_lit _)) as (s3 & H3 & Hs3 & W3); [|done|].
  { intros str [= <-]. apply encodable_lit. }
  cbn [payload_raw] in H3. exists s3. split; [done|].
  rewrite W3, W2, W1. cbn [flat_map]. rewrite flat_map_app. cbn [flat_map].
  rewrite app_nil_r, <- !app_assoc. do 3 f_equal.
  clear. induction msgs as [|msg l IH]; [done|]. cbn [map flat_map]. by rewrite IH.
Qed.

End Sending.

Section EndToEnd.

Context `{E : Externals}.
Local Arguments Py.decode : simpl never.
Local Arguments Py.encode : simpl never.
Local Arguments Py.lit : simpl never.

Lemma decode_published (str : Py.str) :
  encodable str -> Py.decode (published str) = Some str.
Proof. intros He. apply decode_encode. by apply encode_published. Qed.

(** X1: the frame [mqtt_sendimg] publishes for the chunks of a payload, stored
    one object per published payload and in order, is scanned back to the
    payload, when there are at least ten metadata entries. *)
Theorem sent_frame_is_recovered (payload : Py.bytes) (chunk_size : Z)
    (headers : list Py.str) :
  0 < chunk_size ->
  Forall encodable headers ->
  (10 <= length headers)%nat ->
  exists segs,
    Comm.imgToChunks payload chunk_size = Return segs /\
    forall objs,
      map S3.Body objs = map payload_bytes (frame_payloads segs headers) ->
      exists ts md,
        S3.scan objs = Return [(payload, ts, Some md)] /\
        (length headers <= length md)%nat.
Proof.
  intros Hc Hh Hten.
  destruct (imgToChunks_concat payload chunk_size Hc) as (segs & Hret & Hcat).
  exists segs. split; [done|]. intros objs Hobjs.
  unfold frame_payloads in Hobjs. cbn [map] in Hobjs. rewrite map_app in Hobjs.
  destruct objs as [|start objs]; [done|]. cbn [map] in Hobjs.
  injection Hobjs as Hstart Hrest.
  apply map_eq_app in Hrest as (chunk_objs & last & -> & Hchunks & Hlast).
  destruct last as [|end_ [|??]]; try done. cbn in Hlast. injection Hlast as Hend.
  rewrite map_map in Hchunks. cbn [payload_bytes] in *.
  destruct (contains_start_header headers) as [Hcontains Hlen].
  assert (Hs : is_start start (Comm.start_header headers)).
  { split; [|done]. rewrite Hstart.
    by apply decode_published, encodable_start_header. }
  assert (He : is_end end_).
  { unfold is_end. rewrite Hend. apply decode_published, encodable_lit. }
  exists (S3.LastModified end_), (S3.parse_metadata (Comm.start_header headers)).
  split; [|done].
  rewrite (scan_frame segs start _ chunk_objs end_ Hs ltac:(lia) He Hchunks).
  by rewrite Hcat.
Qed.

End EndToEnd.

(** ** Invariants of the store *)

Section StoreInvariants.

Context `{E : Externals}.
Local Arguments Py.lit : simpl never.
Local Arguments S3.asset_path : simpl never.
Local Arguments S3.datetimeToString : simpl never.
Local Arguments S3.roundTime : simpl never.
Local Arguments S3.in_hourly : simpl never.
Local Arguments S3.getIndexes : simpl never.
Local Arguments S3.incr_count : simpl never.

Lemma consistent_init : consistent S3.init.
Proof.
  split; cbn; try constructor; done.
Qed.

Lemma total_count_app (h h' : list (datetime * Z)) :
  total_count (h ++ h') = total_count h + total_count h'.
Proof.
  unfold total_count. induction h as [|r h IH]; cbn [app foldr]; [done|].
  rewrite IH. lia.
Qed.

Lemma in_hourly_spec (d : datetime) (h : list (datetime * Z)) :
  S3.in_hourly d h = true <-> d ∈ fst <$> h.
Proof.
  unfold S3.in_hourly. rewrite existsb_exists. split.
  - intros (r & Hr & Hd%bool_decide_eq_true_1). subst d.
    apply list_elem_of_fmap. exists r. split; [done|]. by apply list_elem_of_In.
  - intros (r & -> & Hr)%list_elem_of_fmap. exists r.
    split; [by apply list_elem_of_In|]. by apply bool_decide_eq_true_2.
Qed.

Lemma getIndexes_head (d : datetime) (h : list (datetime * Z)) (loc : nat) :
  head (S3.getIndexes h d) = Some loc ->
  exists r, h !! loc = Some r /\ r.1 = d.
Proof.
  unfold S3.getIndexes. intros Hhead.
  assert (Hin : In loc (List.filter (fun i => bool_decide (fst <$> h !! i = Some d))
                                    (seq 0 (length h)))).
  { destruct (List.filter _ _) as [|x l]; [done|]. injection Hhead as ->. by left. }
  apply filter_In in Hin as [_ Hloc%bool_decide_eq_true_1].
  destruct (h !! loc) as [r|]; [|done]. exists r. split; [done|].
  by injection Hloc.
Qed.

Lemma fst_incr_count (loc : nat) (h : list (datetime * Z)) :
  fst <$> S3.incr_count loc h = fst <$> h.
Proof.
  unfold S3.incr_count. revert loc. induction h as [|r h IH]; intros [|loc]; cbn; try done.
  by rewrite IH.
Qed.

Lemma total_incr_count (loc : nat) (h : list (datetime * Z)) :
  (loc < length h)%nat ->
  total_count (S3.incr_count loc h) = total_count h + 1.
Proof.
  unfold S3.incr_count, total_count. revert loc.
  induction h as [|r h IH]; intros [|loc] Hlt; cbn [length] in Hlt; try lia.
  - cbn. lia.
  - change (alter ?f (S loc) (r :: h)) with (r :: alter f loc h).
    cbn [foldr]. rewrite IH; lia.
Qed.

(** The bucket step: the row of the hour is there afterwards, once, and its
    count went up by one. *)
Lemma bucket_step (d : datetime) (h : list (datetime * Z)) (loc : nat) :
  NoDup (fst <$> h) ->
  Forall (fun r => 1 <= r.2) h ->
  head (S3.getIndexes (with_bucket d h) d) = Some loc ->
  NoDup (fst <$> S3.incr_count loc (with_bucket d h)) /\
  Forall (fun r => 1 <= r.2) (S3.incr_count loc (with_bucket d h)) /\
  total_count (S3.incr_count loc (with_bucket d h)) = total_count h + 1.
Proof.
  intros Hnd Hpos Hloc.
  apply getIndexes_head in Hloc as (r & Hr & Hd).
  pose proof (lookup_lt_Some _ _ _ Hr) as Hlt.
  rewrite fst_incr_count, total_incr_count by done.
  unfold with_bucket in *.
  destruct (S3.in_hourly d h) eqn:Hin.
  - split; [done|]. split; [|done].
    unfold S3.incr_count. apply Forall_alter; [done|]. cbn. lia.
  - assert (Hnot : d ∉ fst <$> h).
    { intros Hd'%in_hourly_spec. congruence. }
    split; [|split].
    + rewrite fmap_app. apply list.NoDup_app. split; [done|]. split.
      * intros x Hx [->|[]%elem_of_nil]%elem_of_cons. done.
      * cbn. apply NoDup_singleton.
    + assert (loc = length h) as ->.
      { destruct (decide (loc < length h)%nat) as [Hl|Hl].
        - rewrite lookup_app_l in Hr by done. destruct Hnot. subst d.
          apply list_elem_of_fmap. exists r. split; [done|].
          by apply list_elem_of_lookup_2 with loc.
        - rewrite length_app in Hlt. cbn in Hlt. lia. }
      unfold S3.incr_count.
      replace (length h) with (length h + 0)%nat by lia.
      rewrite alter_app_r. cbn. apply Forall_app. split; [done|].
      by repeat constructor.
    + rewrite total_count_app. cbn. lia.
Qed.

Lemma make_row_Date (md : list Py.str) (date : Py.str) (r : S3.row) :
  S3.make_row md date = Return r -> S3.Date r = date.
Proof.
  unfold S3.make_row. intros Hrow.
  repeat match type of Hrow with
         | obind ?o _ = _ => destruct o; [cbn [obind] in Hrow|done]
         end.
  by injection Hrow as <-.
Qed.

Lemma count_step_consistent (img : S3.image) (s : S3.pullS3) :
  key_of img ∉ S3.files s ->
  NoDup (S3.files s) ->
  NoDup (fst <$> S3.hourly s) ->
  Forall (fun r => 1 <= r.2) (S3.hourly s) ->
  total_count (S3.hourly s) = Z.of_nat (length (S3.files s)) ->
  Forall (fun k => is_Some (S3.assets s !! S3.asset_path k)) (S3.files s ++ [key_of img]) ->
  consistent (count_step img s).2.
Proof.
  intros Hk Hf Hbn Hbp Hbt Has. unfold count_step.
  destruct (getIndexes_found (S3.roundTime img.1.2 (60 * 60)) (S3.hourly s))
    as (_ & loc & Hloc).
  rewrite Hloc. cbn [snd].
  destruct (bucket_step _ _ _ Hbn Hbp Hloc) as (H1 & H2 & H3).
  split; cbn [S3.files S3.map_data S3.hourly S3.assets]; try done.
  - apply list.NoDup_app. split; [done|]. split; [|apply NoDup_singleton].
    intros x Hx [->|[]%elem_of_nil]%elem_of_cons. done.
  - rewrite H3, Hbt, length_app. cbn. lia.
Qed.

Lemma process_consistent (img : S3.image) (self : S3.pullS3) :
  consistent self -> consistent (S3.process img self).2.
Proof.
  intros [Hf Hbn Hbp Hbt Has]. rewrite process_eq.
  case_bool_decide as Hk; [by split|].
  destruct (png_of img.1.1 _) as [png|]; [|by split].
  assert (Has' : Forall (fun k => is_Some (S3.assets (saved img png self) !! S3.asset_path k))
                        (S3.files self ++ [key_of img])).
  { cbn [saved S3.assets]. apply Forall_app. split.
    - eapply list.Forall_impl; [exact Has|]. intros k Hs. cbn in Hs.
      destruct (decide (S3.asset_path (key_of img) = S3.asset_path k)) as [->|Hne].
      + rewrite lookup_insert_eq. by eexists.
      + by rewrite lookup_insert_ne.
    - constructor; [|done]. rewrite lookup_insert_eq. by eexists. }
  destruct (S3.truthy img.2) as [md|].
  - destruct (S3.make_row md (key_of img)) as [r|e] eqn:Hrow.
    + by apply count_step_consistent.
    + cbn [snd]. split; cbn [saved S3.files S3.map_data S3.hourly S3.assets]; try done.
      by apply Forall_app in Has' as [? _].
  - by apply count_step_consistent.
Qed.

Lemma for_images_consistent imgs newest self :
  consistent self -> consistent (S3.for_images imgs newest self).2.
Proof.
  revert newest self. induction imgs as [|img imgs IH]; intros newest self Hc; [done|].
  cbn [S3.for_images]. unfold bind.
  pose proof (process_consistent img self Hc) as Hstep.
  destruct (S3.process img self) as [[[]|e] s1]; cbn [snd] in *; [by apply IH|done].
Qed.

Lemma consistent_with_mostRecent v s : consistent s -> consistent (with_mostRecent v s).
Proof. by intros []. Qed.

Lemma pull_consistent (objs : list S3.s3object) (self : S3.pullS3) :
  consistent self -> consistent (S3.pull objs self).2.
Proof.
  intros Hc. unfold S3.pull, bind, lift.
  destruct (S3.scan objs) as [imgs|e]; [|done].
  pose proof (for_images_consistent imgs (head imgs) self Hc) as Hloop.
  destruct (S3.for_images imgs (head imgs) self) as [[[img'|]|e] s1]; cbn [snd] in *;
    try done.
  by apply (consistent_with_mostRecent _ s1).
Qed.

Lemma after_pulls_snoc listings objs :
  after_pulls (listings ++ [objs]) = (S3.pull objs (after_pulls listings)).2.
Proof. unfold after_pulls. by rewrite foldl_app. Qed.

Lemma after_pulls_consistent listings : consistent (after_pulls listings).
Proof.
  induction listings as [|objs listings IH] using rev_ind; [apply consistent_init|].
  rewrite after_pulls_snoc. by apply pull_consistent.
Qed.

(** X2: whatever listings a fresh instance has pulled, [hourly] has one row
    per hour, every row counts at least one entry, and the counts add up to
    the number of entries recorded in [files]. *)
Theorem hourly_counts_add_up (listings : list (list S3.s3object)) :
  let s := after_pulls listings in
  NoDup (fst <$> S3.hourly s) /\
  Forall (fun r => 1 <= r.2) (S3.hourly s) /\
  total_count (S3.hourly s) = Z.of_nat (length (S3.files s)).
Proof. cbn zeta. by destruct (after_pulls_consistent listings). Qed.

(** *** [pull] never takes anything back *)

Lemma grows_refl (s : S3.pullS3) : grows s s.
Proof.
  split; [done|]. split; [done|]. split; [|done].
  intros i r Hr. exists r. split; [done|]. split; [done|lia].
Qed.

Lemma grows_trans (s1 s2 s3 : S3.pullS3) : grows s1 s2 -> grows s2 s3 -> grows s1 s3.
Proof.
  intros (F1 & M1 & H1 & A1) (F2 & M2 & H2 & A2).
  split; [by etrans|]. split; [by etrans|]. split; [|by etrans].
  intros i r Hr. destruct (H1 i r Hr) as (r' & Hr' & Hd & Hc).
  destruct (H2 i r' Hr') as (r'' & Hr'' & Hd' & Hc').
  exists r''. split; [done|]. split; [congruence|lia].
Qed.

Lemma incr_count_le (loc : nat) (h : list (datetime * Z)) :
  forall i r, h !! i = Some r ->
  exists r', S3.incr_count loc h !! i = Some r' /\ r'.1 = r.1 /\ r.2 <= r'.2.
Proof.
  intros i r Hr. unfold S3.incr_count.
  destruct (decide (loc = i)) as [->|Hne].
  - exists (r.1, r.2 + 1). rewrite list_lookup_alter_eq, Hr. cbn.
    split; [done|]. split; [done|lia].
  - exists r. rewrite list_lookup_alter_ne by done. split; [done|]. split; [done|lia].
Qed.

Lemma count_step_grows (img : S3.image) (s : S3.pullS3) : grows s (count_step img s).2.
Proof.
  unfold count_step.
  destruct (getIndexes_found (S3.roundTime img.1.2 (60 * 60)) (S3.hourly s))
    as (_ & loc & ->).
  cbn [snd]. split; [by apply prefix_app_r|]. split; [done|]. split; [|done].
  cbn [S3.hourly]. intros i r Hr. apply incr_count_le.
  unfold with_bucket. destruct (S3.in_hourly _ _); [done|].
  by apply lookup_app_l_Some.
Qed.

Lemma saved_grows (img : S3.image) (png : Py.bytes) (s : S3.pullS3) :
  grows s (saved img png s).
Proof.
  split; [done|]. split; [done|]. split.
  - intros i r Hr. exists r. split; [done|]. split; [done|lia].
  - cbn. rewrite dom_insert_L. set_solver.
Qed.

Lemma with_row_grows (r : S3.row) (s : S3.pullS3) : grows s (with_row r s).
Proof.
  split; [done|]. split; [by apply prefix_app_r|]. split; [|done].
  intros i r' Hr. exists r'. split; [done|]. split; [done|lia].
Qed.

Lemma process_grows (img : S3.image) (self : S3.pullS3) :
  grows self (S3.process img self).2.
Proof.
  rewrite process_eq. case_bool_decide; [apply grows_refl|].
  destruct (png_of img.1.1 _) as [png|]; [|apply grows_refl].
  destruct (S3.truthy img.2) as [md|].
  - destruct (S3.make_row md _) as [r|e]; [|apply saved_grows].
    eapply grows_trans; [apply saved_grows|].
    eapply grows_trans; [apply with_row_grows|]. apply count_step_grows.
  - eapply grows_trans; [apply saved_grows|apply count_step_grows].
Qed.

Lemma for_images_grows imgs newest self :
  grows self (S3.for_images imgs newest self).2.
Proof.
  revert newest self. induction imgs as [|img imgs IH]; intros newest self;
    [apply grows_refl|].
  cbn [S3.for_images]. unfold bind.
  pose proof (process_grows img self) as Hstep.
  destruct (S3.process img self) as [[[]|e] s1]; cbn [snd] in *; [|done].
  eapply grows_trans; [exact Hstep|apply IH].
Qed.

(** X3: [pull] never takes anything back, whether it returns or raises:
    [files] and [map_data] only get longer at their end, every row of
    [hourly] stays where it is with its hour and a count that is not
    smaller, and every image file that existed still exists. *)
Theorem pull_never_takes_back (objs : list S3.s3object) (self : S3.pullS3) :
  grows self (S3.pull objs self).2.
Proof.
  unfold S3.pull, bind, lift.
  destruct (S3.scan objs) as [imgs|e]; [|apply grows_refl].
  pose proof (for_images_grows imgs (head imgs) self) as Hloop.
  by destruct (S3.for_images imgs (head imgs) self) as [[[img'|]|e] s1].
Qed.

(** *** The most recent image *)

Lemma pull_recent (objs : list S3.s3object) (self : S3.pullS3) :
  (forall k, S3.mostRecent self = Some k -> k ∈ S3.files self) ->
  forall k, S3.mostRecent (S3.pull objs self).2 = Some k ->
            k ∈ S3.files (S3.pull objs self).2.
Proof.
  intros Hrec k.
  pose proof (pull_never_takes_back objs self) as (Hfiles & _).
  unfold S3.pull, bind, lift in *.
  destruct (S3.scan objs) as [imgs|e]; [|by apply Hrec].
  pose proof (for_images_mostRecent imgs (head imgs) self) as Hsame.
  destruct (S3.for_images imgs (head imgs) self) as [[[img|]|e] s1] eqn:Hloop;
    cbn [snd] in *; rewrite <- Hsame in Hrec.
  - cbn. intros [= <-].
    destruct (for_images_seen _ _ _ _ _ Hloop) as [Hall Hlast].
    destruct (list.last imgs) as [l|] eqn:Hl.
    + cbn in Hlast. injection Hlast as ->.
      rewrite list.Forall_forall in Hall. apply Hall.
      apply last_Some in Hl as [l' ->]. set_solver.
    + apply last_None in Hl. subst imgs. cbn in Hlast. done.
  - intros Hk. eapply elem_of_prefix; [by apply Hrec|done].
  - intros Hk. eapply elem_of_prefix; [by apply Hrec|done].
Qed.

(** X4: whatever listings a fresh instance has pulled, every key of [files]
    has its image file under [./assets/], and so has [mostRecent] when it
    is set: the image the dashboard asks for exists. *)
Theorem recorded_images_exist (listings : list (list S3.s3object)) :
  let s := after_pulls listings in
  Forall (fun k => is_Some (S3.assets s !! S3.asset_path k)) (S3.files s) /\
  forall k, S3.mostRecent s = Some k ->
            k ∈ S3.files s /\ is_Some (S3.assets s !! S3.asset_path k).
Proof.
  cbn zeta. destruct (after_pulls_consistent listings) as [_ _ _ _ Has].
  split; [done|].
  assert (Hrec : forall k, S3.mostRecent (after_pulls listings) = Some k ->
                           k ∈ S3.files (after_pulls listings)).
  { clear Has. induction listings as [|objs listings IH] using rev_ind; [done|].
    rewrite after_pulls_snoc. by apply pull_recent. }
  intros k Hk. split; [by apply Hrec|].
  rewrite list.Forall_forall in Has. by apply Has, Hrec.
Qed.

End StoreInvariants.

(** ** Invariants of the scanner *)

Section ScannerInvariants.

Context `{E : Externals}.
Local Arguments Py.lit : simpl never.
Local Arguments Py.decode : simpl never.
Local Arguments Py.contains : simpl never.

(** *** Every candidate entry is complete *)

Lemma attentive_init : attentive S3.scan_init.
Proof. split; [constructor|done]. Qed.

Lemma scan_step_attentive st obj st' :
  attentive st -> S3.scan_step st obj = Return st' -> attentive st'.
Proof.
  intros Hst. pose proof Hst as [Himgs Hmd]. unfold S3.scan_step.
  destruct (Py.decode (S3.Body obj)) as [text|]; [|done]. cbn [or_raise obind].
  destruct (Py.contains _ text).
  { intros [= <-]. split; [done|]. cbn.
    case_bool_decide as Hlen; [done|]. intros _. eexists. split; [done|lia]. }
  destruct (S3.parsing st) eqn:Hp; cbn [andb]; [|by intros [= <-]].
  destruct (negb _); [|by intros [= <-]].
  destruct (Py.str_eqb text _).
  - intros [= <-]. split; [|done]. cbn.
    apply Forall_app. split; [done|]. constructor; [|constructor].
    by apply Hmd.
  - destruct (Py.unhexlify _); [|done]. intros [= <-]. split; [done|]. cbn.
    intros _. by apply Hmd.
Qed.

Lemma scan_from_attentive st objs st' :
  attentive st -> S3.scan_from st objs = Return st' -> attentive st'.
Proof.
  revert st. induction objs as [|obj objs IH]; intros st Hst; [by intros [= <-]|].
  cbn [S3.scan_from].
  destruct (S3.scan_step st obj) as [st1|] eqn:Hstep; [|done]. cbn [obind].
  apply IH. by apply (scan_step_attentive st obj).
Qed.

Lemma scan_complete objs imgs : S3.scan objs = Return imgs -> Forall complete imgs.
Proof.
  unfold S3.scan.
  destruct (S3.scan_from S3.scan_init objs) as [st|] eqn:Hscan; [|done].
  intros [= <-]. by apply (scan_from_attentive _ _ _ attentive_init Hscan).
Qed.

(** *** Every candidate entry is dated by an End object *)

Lemma scan_step_images st obj st' :
  S3.scan_step st obj = Return st' ->
  S3.images st' = S3.images st \/
  (is_end obj /\
   S3.images st' = S3.images st ++ [(S3.arr st, S3.LastModified obj, S3.metadata st)]).
Proof.
  unfold S3.scan_step, is_end.
  destruct (Py.decode (S3.Body obj)) as [text|]; [|done]. cbn [or_raise obind].
  destruct (Py.contains _ text); [intros [= <-]; by left|].
  destruct (S3.parsing st && _); [|intros [= <-]; by left].
  unfold Py.str_eqb. case_bool_decide as Heq.
  - intros [= <-]. right. by subst text.
  - destruct (Py.unhexlify _); [|done]. intros [= <-]. by left.
Qed.

Lemma end_times_cons obj objs :
  end_times (obj :: objs) =
  if bool_decide (Py.decode (S3.Body obj) = Some Comm.image_end)
  then S3.LastModified obj :: end_times objs
  else end_times objs.
Proof.
  unfold end_times. cbn [List.filter]. by case_bool_decide.
Qed.

Lemma scan_from_images st objs st' :
  S3.scan_from st objs = Return st' ->
  exists new, S3.images st' = S3.images st ++ new /\
              (fun img : S3.image => img.1.2) <$> new `sublist_of` end_times objs.
Proof.
  revert st. induction objs as [|obj objs IH]; intros st.
  - intros [= <-]. exists []. by rewrite app_nil_r.
  - cbn [S3.scan_from].
    destruct (S3.scan_step st obj) as [st1|] eqn:Hstep; [|done]. cbn [obind].
    intros Hrest. destruct (IH _ Hrest) as (new & Hnew & Hsub).
    rewrite end_times_cons.
    destruct (scan_step_images _ _ _ Hstep) as [Hsame|[Hend Happ]].
    + exists new. split; [congruence|].
      case_bool_decide; [by apply sublist_cons|done].
    + eexists (_ :: new). split.
      * rewrite Hnew, Happ, <- app_assoc. done.
      * rewrite bool_decide_eq_true_2 by done. cbn. by apply sublist_skip.
Qed.

(** *** A Start object resets the scanner *)

Lemma scan_from_start st start text rest :
  is_start start text ->
  S3.scan_from st (start :: rest) =
  omap (prepend (S3.images st)) (S3.scan_from S3.scan_init (start :: rest)).
Proof.
  intros Hstart. cbn [S3.scan_from].
  rewrite !(scan_step_start _ _ _ Hstart). cbn [obind].
  rewrite <- scan_from_prepend. unfold prepend. cbn. by rewrite app_nil_r.
Qed.

Lemma scan_at_start a start text rest :
  is_start start text ->
  S3.scan (a ++ start :: rest) =
  obind (S3.scan a) (fun before =>
  omap (fun imgs => before ++ imgs) (S3.scan (start :: rest))).
Proof.
  intros Hstart. unfold S3.scan. rewrite scan_from_app.
  destruct (S3.scan_from S3.scan_init a) as [st_a|]; [|done]. cbn [obind].
  rewrite (scan_from_start st_a _ _ _ Hstart). unfold omap.
  by destruct (S3.scan_from S3.scan_init (start :: rest)).
Qed.

(** *** An idle scanner passes over what is not a Start object *)

Lemma scan_step_idle st obj :
  S3.parsing st = false -> is_noise obj -> S3.scan_step st obj = Return st.
Proof.
  intros Hp (text & Hd & Hc). unfold S3.scan_step. rewrite Hd. cbn [or_raise obind].
  fold START. by rewrite Hc, Hp.
Qed.

Lemma scan_from_idle st objs :
  S3.parsing st = false -> Forall is_noise objs -> S3.scan_from st objs = Return st.
Proof.
  intros Hp Hall. induction Hall as [|obj objs Hn _ IH]; [done|].
  cbn [S3.scan_from]. by rewrite (scan_step_idle _ _ Hp Hn).
Qed.

(** *** A frame and what follows it *)

Lemma scan_from_frame objs img :
  is_frame objs img ->
  exists acc, S3.scan_from S3.scan_init objs = Return (S3.mkScan [img] false acc None).
Proof.
  intros (start & text & chunk_objs & segs & end_ & -> & Hstart & Hmd & Hend & Hb & ->).
  cbn [S3.scan_from]. rewrite (scan_step_start _ _ _ Hstart). cbn [obind].
  rewrite bool_decide_eq_false_2 by lia.
  rewrite scan_from_app, (scan_from_hex _ _ _ _ segs Hb). cbn [obind S3.scan_from].
  rewrite (scan_step_end (S3.mkScan _ true _ _) _ Hend eq_refl). cbn. by eexists.
Qed.

Lemma scan_frame_then objs img rest :
  is_frame objs img ->
  S3.scan (objs ++ rest) = omap (fun imgs => img :: imgs) (S3.scan rest).
Proof.
  intros Hframe. destruct (scan_from_frame _ _ Hframe) as [acc Hscan].
  unfold S3.scan. rewrite scan_from_app, Hscan. cbn [obind].
  assert (Hal : alike (S3.mkScan [img] false acc None) (prepend [img] S3.scan_init)).
  { by right. }
  pose proof (alike_images _ _ (scan_from_alike _ _ rest Hal)) as Heq.
  unfold omap in *. rewrite Heq, scan_from_prepend. unfold omap.
  by destruct (S3.scan_from S3.scan_init rest).
Qed.

(** X5: every candidate entry the scanner emits carries metadata with at least
    ten fields: an End object finalizes a frame only while [parsing] is
    true, and a Start object sets [parsing] only when it has ten fields. *)
Theorem candidates_are_complete (objs : list S3.s3object) (imgs : list S3.image) :
  S3.scan objs = Return imgs ->
  Forall (fun img : S3.image =>
            exists md, img.2 = Some md /\ (10 <= length md)%nat) imgs.
Proof. apply scan_complete. Qed.

(** X6: the scanner emits at most one candidate entry per End object, and each
    entry is dated by the [LastModified] of the End object that finalized
    it: the timestamps of the entries are, in order, timestamps of End
    objects of the listing. *)
Theorem candidates_are_dated_by_end_objects
    (objs : list S3.s3object) (imgs : list S3.image) :
  S3.scan objs = Return imgs ->
  (fun img : S3.image => img.1.2) <$> imgs `sublist_of` end_times objs /\
  (length imgs <= length (end_times objs))%nat.
Proof.
  unfold S3.scan.
  destruct (S3.scan_from S3.scan_init objs) as [st|] eqn:Hscan; [|done].
  intros [= <-]. destruct (scan_from_images _ _ _ Hscan) as (new & -> & Hsub).
  cbn. split; [done|]. apply sublist_length in Hsub. by rewrite length_fmap in Hsub.
Qed.

(** X7: a listing can be cut before any Start object: the Start object makes
    the scanner forget the frame it was in, so the entries of the whole
    listing are those of the part before followed by those of the part that
    the Start object opens, and the scan raises when either part does. *)
Theorem scan_splits_at_start
    (before : list S3.s3object) (start : S3.s3object) (text : Py.str)
    (rest : list S3.s3object) :
  is_start start text ->
  S3.scan (before ++ start :: rest) =
  obind (S3.scan before) (fun imgs =>
  omap (fun imgs' => imgs ++ imgs') (S3.scan (start :: rest))).
Proof. apply scan_at_start. Qed.

(** X8: well-formed frames stored one after the other are scanned to their
    entries, one per frame and in order. *)
Theorem frames_are_scanned_in_order
    (frames : list (list S3.s3object)) (imgs : list S3.image) :
  Forall2 is_frame frames imgs -> S3.scan (concat frames) = Return imgs.
Proof.
  intros Hall. induction Hall as [|objs img frames imgs Hframe _ IH]; [done|].
  cbn [concat]. rewrite (scan_frame_then _ _ _ Hframe), IH. done.
Qed.

(** X9: while it is idle the scanner passes over every object that is text
    without the Start token, the End token and text that is not hex
    included: such objects change nothing wherever the scanner is idle, and
    at the head of a listing in particular. *)
Theorem idle_scanner_passes_over_noise
    (st : S3.scan_state) (noise rest : list S3.s3object) :
  S3.parsing st = false ->
  Forall is_noise noise ->
  S3.scan_from st (noise ++ rest) = S3.scan_from st rest /\
  S3.scan (noise ++ rest) = S3.scan rest.
Proof.
  intros Hp Hall. split.
  - by rewrite scan_from_app, (scan_from_idle _ _ Hp Hall).
  - unfold S3.scan. by rewrite scan_from_app, (scan_from_idle S3.scan_init _ eq_refl Hall).
Qed.

End ScannerInvariants.

(** ** The store, fed by the scanner *)

Section ScannedStore.

Context `{E : Externals}.
Local Arguments Py.lit : simpl never.
Local Arguments S3.asset_path : simpl never.
Local Arguments S3.datetimeToString : simpl never.
Local Arguments S3.roundTime : simpl never.
Local Arguments S3.in_hourly : simpl never.
Local Arguments S3.getIndexes : simpl never.
Local Arguments S3.incr_count : simpl never.

Lemma unhexlify_raises (bs : Py.bytes) (e : exn) :
  Py.unhexlify bs = Raise e -> e = BinasciiError.
Proof.
  assert (H : forall n (bs : Py.bytes), (length bs <= n)%nat ->
                Py.unhexlify bs = Raise e -> e = BinasciiError).
  { clear bs. induction n as [|n IH]; intros [|h [|l r]] Hn; cbn; try done.
    - by intros [= <-].
    - cbn in Hn. lia.
    - by intros [= <-].
    - destruct (Py.hex_value h), (Py.hex_value l); try by intros [= <-].
      destruct (Py.unhexlify r) eqn:Hr; [done|]. cbn. intros [= <-].
      apply (IH r); [cbn in Hn; lia|done]. }
  by apply (H (length bs)).
Qed.

Lemma scan_raises (objs : list S3.s3object) (e : exn) :
  S3.scan objs = Raise e -> e = UnicodeDecodeError \/ e = BinasciiError.
Proof.
  unfold S3.scan.
  destruct (S3.scan_from S3.scan_init objs) as [st|e'] eqn:Hscan; [done|].
  intros [= <-]. revert Hscan. generalize S3.scan_init.
  induction objs as [|obj objs IH]; intros st; [done|]. cbn [S3.scan_from].
  destruct (S3.scan_step st obj) as [st1|e1] eqn:Hstep; cbn [obind]; [apply IH|].
  intros [= <-]. revert Hstep. unfold S3.scan_step.
  destruct (Py.decode (S3.Body obj)) as [text|]; [|intros [= <-]; by left].
  cbn [or_raise obind].
  destruct (Py.contains _ text); [done|].
  destruct (S3.parsing st && _); [|done].
  destruct (Py.str_eqb text _); [done|].
  destruct (Py.unhexlify _) eqn:Hu; [done|]. intros [= <-]. right.
  by apply (unhexlify_raises _ _ Hu).
Qed.

Lemma field_in_range (md : list Py.str) (i : nat) (e : exn) :
  (i < length md)%nat -> S3.field md i = Raise e -> e = ValueError.
Proof.
  intros Hi. unfold S3.field.
  destruct (lookup_lt_is_Some_2 md i Hi) as [s ->]. cbn [or_raise obind].
  destruct (float_of_str s); [done|]. by intros [= <-].
Qed.

Lemma make_row_raises (md : list Py.str) (date : Py.str) (e : exn) :
  (10 <= length md)%nat -> S3.make_row md date = Raise e -> e = ValueError.
Proof.
  intros Hlen. unfold S3.make_row. intros Hrow.
  repeat match type of Hrow with
         | obind (S3.field md ?i) _ = _ =>
             let Hf := fresh "Hf" in
             destruct (S3.field md i) eqn:Hf;
             [cbn [obind] in Hrow; clear Hf
             |cbn [obind] in Hrow; injection Hrow as <-;
              apply (field_in_range md i); [lia|done]]
         end.
  done.
Qed.

Lemma complete_truthy (img : S3.image) :
  complete img -> exists md, S3.truthy img.2 = Some md /\ (10 <= length md)%nat.
Proof.
  intros (md & Hmd & Hlen). exists md. rewrite Hmd.
  destruct md as [|x l]; [cbn in Hlen; lia|done].
Qed.

Lemma process_complete (img : S3.image) (self : S3.pullS3) :
  complete img ->
  (forall e, (S3.process img self).1 = Raise e ->
             png_of img.1.1 (S3.asset_path (key_of img)) = Raise e \/ e = ValueError) /\
  (S3.Date <$> S3.map_data self = S3.files self ->
   S3.Date <$> S3.map_data (S3.process img self).2 = S3.files (S3.process img self).2).
Proof.
  intros Hc. rewrite process_eq. case_bool_decide; [done|].
  destruct (png_of img.1.1 _) as [png|e0]; [|split; [intros e [= <-]; by left|done]].
  destruct (complete_truthy img Hc) as (md & -> & Hlen).
  destruct (S3.make_row md _) as [r|e'] eqn:Hrow.
  - destruct (count_step_returns img (with_row r (saved img png self))) as [h ->].
    split; [done|]. cbn. intros Heq. rewrite fmap_app, Heq. cbn.
    by rewrite (make_row_Date _ _ _ Hrow).
  - split; [|done]. intros e [= <-]. right. by apply (make_row_raises _ _ _ Hlen Hrow).
Qed.

Lemma for_images_complete imgs newest self :
  Forall complete imgs ->
  (forall e, (S3.for_images imgs newest self).1 = Raise e ->
             (exists img, img ∈ imgs /\
                          png_of img.1.1 (S3.asset_path (key_of img)) = Raise e) \/
             e = ValueError) /\
  (S3.Date <$> S3.map_data self = S3.files self ->
   S3.Date <$> S3.map_data (S3.for_images imgs newest self).2
   = S3.files (S3.for_images imgs newest self).2).
Proof.
  intros Hall. revert newest self.
  induction Hall as [|img imgs Hc _ IH]; intros newest self; [done|].
  cbn [S3.for_images]. unfold bind.
  destruct (process_complete img self Hc) as [Hraise Hrows].
  destruct (S3.process img self) as [[[]|e1] s1]; cbn [fst snd] in *.
  - destruct (IH (Some img) s1) as [Hraise' Hrows']. split.
    + intros e He. destruct (Hraise' e He) as [(img' & Hin & Hpng)| ->]; [left|by right].
      exists img'. split; [by apply list_elem_of_further|done].
    + intros Heq. by apply Hrows', Hrows.
  - split; [|done]. intros e [= <-].
    destruct (Hraise e1 eq_refl) as [Hpng| ->]; [left|by right].
    exists img. split; [apply list_elem_of_here|done].
Qed.

Lemma pull_rows_files (objs : list S3.s3object) (self : S3.pullS3) :
  S3.Date <$> S3.map_data self = S3.files self ->
  S3.Date <$> S3.map_data (S3.pull objs self).2 = S3.files (S3.pull objs self).2.
Proof.
  intros Heq. unfold S3.pull, bind, lift.
  destruct (S3.scan objs) as [imgs|e] eqn:Hscan; [|done].
  destruct (for_images_complete imgs (head imgs) self (scan_complete _ _ Hscan))
    as [_ Hrows].
  specialize (Hrows Heq).
  by destruct (S3.for_images imgs (head imgs) self) as [[[img'|]|e] s1].
Qed.

(** X10: whatever listings a fresh instance has pulled, and whichever of the
    pulls raised, no key is in [files] twice and [map_data] has exactly one
    row per key of [files], in the same order: the [Date] column of
    [map_data] is [files]. *)
Theorem one_row_per_recorded_entry (listings : list (list S3.s3object)) :
  let s := after_pulls listings in
  NoDup (S3.files s) /\ S3.Date <$> S3.map_data s = S3.files s.
Proof.
  cbn zeta. split; [apply after_pulls_consistent|].
  induction listings as [|objs listings IH] using rev_ind; [done|].
  rewrite after_pulls_snoc. by apply pull_rows_files.
Qed.

(** X11: whatever [pull] raises is the [UnicodeDecodeError] or the
    [binascii.Error] of the scanner, the [ValueError] of [float], the
    [TypeError] of the empty result, or what PIL raised on opening or
    saving a scanned image: the subscripts [img[2][i]] and
    [getIndexes(...)[0][0]] of [pull] are always in range and raise
    nothing. *)
Theorem pull_raises_only (objs : list S3.s3object) (self : S3.pullS3) (e : exn) :
  (S3.pull objs self).1 = Raise e ->
  e ∈ [UnicodeDecodeError; BinasciiError; ValueError; TypeError] \/
  exists imgs img, S3.scan objs = Return imgs /\ img ∈ imgs /\
                   png_of img.1.1 (S3.asset_path (key_of img)) = Raise e.
Proof.
  unfold S3.pull, bind, lift.
  destruct (S3.scan objs) as [imgs|e'] eqn:Hscan.
  - destruct (for_images_complete imgs (head imgs) self (scan_complete _ _ Hscan))
      as [Hraise _].
    destruct (S3.for_images imgs (head imgs) self) as [[[img'|]|e1] s1];
      cbn [fst] in *.
    + done.
    + intros [= <-]. left. rewrite !elem_of_cons. tauto.
    + intros [= <-]. destruct (Hraise e1 eq_refl) as [(img & Hin & Hpng)| ->].
      * right. by exists imgs, img.
      * left. rewrite !elem_of_cons. tauto.
  - cbn. intros [= <-]. left. rewrite !elem_of_cons.
    destruct (scan_raises _ _ Hscan) as [->| ->]; tauto.
Qed.

End ScannedStore.

(** ** Keys and hours *)

Section KeysAndHours.

Context `{E : Externals}.
Local Arguments Py.lit : simpl never.

Lemma slice_take {A} (l : list A) (n : nat) (i j : Z) :
  0 <= i <= j -> j <= Z.of_nat n -> Py.slice (take n l) i j = Py.slice l i j.
Proof.
  intros Hi Hj. unfold Py.slice, Py.clamp_index.
  rewrite length_take.
  destruct (Z.ltb_spec i 0) as [?|_]; [lia|].
  destruct (Z.ltb_spec j 0) as [?|_]; [lia|].
  rewrite skipn_firstn_comm, take_take.
  replace (Z.min i (Z.of_nat (n `min` length l))) with (Z.min i (Z.of_nat (length l))) by lia.
  replace (Z.min j (Z.of_nat (n `min` length l))) with (Z.min j (Z.of_nat (length l))) by lia.
  f_equal. lia.
Qed.

Lemma datetimeToString_take (a b : datetime) :
  take 19 (dt_str a) = take 19 (dt_str b) ->
  S3.datetimeToString a = S3.datetimeToString b.
Proof.
  intros Heq. unfold S3.datetimeToString.
  rewrite <- (slice_take (dt_str a) 19 0 10), <- (slice_take (dt_str a) 19 11 13),
    <- (slice_take (dt_str a) 19 14 16), <- (slice_take (dt_str a) 19 17 19) by lia.
  rewrite Heq.
  by rewrite !slice_take by lia.
Qed.

(** X12: the dedup key is read off the first nineteen characters of [str(dt)],
    the date and the time down to the second.  So an entry whose timestamp
    prints like that of an entry just recorded, whatever follows the
    seconds and whatever its image, is passed over: nothing of it is
    stored. *)
Theorem same_second_entry_is_dropped (img img' : S3.image) (self : S3.pullS3) :
  take 19 (dt_str img'.1.2) = take 19 (dt_str img.1.2) ->
  (S3.process img self).1 = Return tt ->
  key_of img' = key_of img /\
  S3.process img' (S3.process img self).2 = (Return tt, (S3.process img self).2).
Proof.
  intros Hsame Hret.
  assert (Hkey : key_of img' = key_of img) by by apply datetimeToString_take.
  split; [done|]. apply process_seen. rewrite Hkey.
  destruct (S3.process img self) as [r s1] eqn:Hp. cbn in *. subst r.
  by apply (process_files _ _ _ _ Hp).
Qed.

(** X13: [roundTime] moves a timestamp to a whole multiple of [roundTo] seconds
    of its day that is nearest to it, the later one when two are equally
    near, and drops the microseconds: the shift is more than minus half of
    [roundTo] and at most half of it. *)
Theorem roundTime_is_nearest (dt : datetime) (roundTo : Z) :
  0 < roundTo ->
  exists k,
    S3.roundTime dt roundTo
    = dt_add dt (k * roundTo - dt_seconds dt) (- dt_microsecond dt) /\
    - roundTo < 2 * (k * roundTo - dt_seconds dt) <= roundTo.
Proof.
  intros Hpos. exists ((2 * dt_seconds dt + roundTo) / (2 * roundTo)).
  split; [done|].
  pose proof (Z.div_mod (2 * dt_seconds dt + roundTo) (2 * roundTo) ltac:(lia)) as Hdm.
  pose proof (Z.mod_pos_bound (2 * dt_seconds dt + roundTo) (2 * roundTo) ltac:(lia)) as Hm.
  set (q := (2 * dt_seconds dt + roundTo) / (2 * roundTo)) in *.
  set (m := (2 * dt_seconds dt + roundTo) mod (2 * roundTo)) in *.
  clearbody q m. nia.
Qed.

End KeysAndHours.

(** ** The time a sequence takes, and the sequences that always return *)

Section Timing.

Implicit Types (s : Comm.serial) (lo hi : Q).
Local Arguments Py.decode : simpl never.
Local Arguments Py.encode : simpl never.
Local Arguments Py.contains : simpl never.
Local Arguments Py.lit : simpl never.

Lemma slept_app tr tr' : (slept (tr ++ tr') == slept tr + slept tr')%Q.
Proof.
  induction tr as [|[d|d|d] tr IH].
  - change (slept tr' == 0 + slept tr')%Q. ring.
  - exact IH.
  - change (d + slept (tr ++ tr') == d + slept tr + slept tr')%Q. rewrite IH. ring.
  - exact IH.
Qed.

Ltac slept_tac :=
  cbn [Comm.trace];
  repeat match goal with
         | |- context [slept (?a ++ ?b)] =>
             let H := fresh "H" in
             let x := fresh "x" in
             pose proof (slept_app a b) as H;
             set (x := slept (a ++ b)) in *; clearbody x
         end;
  cbn [slept foldr] in *; lra.

Lemma takes_ret {A} (a : A) : takes (ret a) 0 0.
Proof. intros s a' s' [= <- <-]. lra. Qed.

Lemma takes_lift {A} (o : outcome A) : takes (lift o) 0 0.
Proof. intros s a' s' [= -> <-]. lra. Qed.

Lemma takes_throw {A} (e : exn) lo hi : takes (@throw _ A e) lo hi.
Proof. intros s a s'. done. Qed.

Lemma takes_bind {A B} (c : M Comm.serial A) (k : A -> M Comm.serial B) lo1 hi1 lo2 hi2 :
  takes c lo1 hi1 -> (forall a, takes (k a) lo2 hi2) ->
  takes (bind c k) (lo1 + lo2) (hi1 + hi2).
Proof.
  intros Hc Hk s b s'. unfold bind.
  destruct (c s) as [[a|e] s1] eqn:Hcs; [|done].
  intros Hks. destruct (Hc _ _ _ Hcs), (Hk a _ _ _ Hks). lra.
Qed.

Lemma takes_weaken {A} (c : M Comm.serial A) lo hi lo' hi' :
  takes c lo hi -> (lo' <= lo)%Q -> (hi <= hi')%Q -> takes c lo' hi'.
Proof. intros Hc Hlo Hhi s a s' Hcs. destruct (Hc _ _ _ Hcs). lra. Qed.

Lemma takes_ser_write data : takes (Comm.ser_write data) 0 0.
Proof.
  intros s a s' [= <- <-]. slept_tac.
Qed.

Lemma takes_write_str str : takes (Comm.write_str str) 0 0.
Proof.
  unfold Comm.write_str.
  eapply takes_weaken; [eapply takes_bind; [apply takes_lift|intros data; apply takes_ser_write]| |]; lra.
Qed.

Lemma takes_time_sleep d : takes (Comm.time_sleep d) d d.
Proof.
  intros s a s'. unfold Comm.time_sleep.
  destruct (Qle_bool 0 d); [|done]. intros [= <- <-]. slept_tac.
Qed.

Lemma takes_AT command back timeout :
  takes (Comm.AT command back timeout) timeout (timeout + (1 # 10)).
Proof.
  intros s a s'.
  destruct (Py.encode (command ++ Comm.CRLF)) as [data|] eqn:Henc.
  2: { unfold Comm.AT, bind, lift. by rewrite Henc. }
  destruct (Qlt_le_dec timeout 0) as [Hneg|Hpos].
  { by rewrite (AT_run_negative _ _ _ _ _ Henc Hneg). }
  rewrite (AT_run _ _ _ _ _ Henc Hpos). case_bool_decide.
  - intros [= <- <-]. slept_tac.
  - cbn zeta. destruct (Py.decode _); [|done].
    intros [= <- <-]. slept_tac.
Qed.

Ltac takes_steps :=
  repeat first
    [ apply takes_ret | apply takes_AT | apply takes_time_sleep
    | apply takes_write_str | apply takes_ser_write | apply takes_throw
    | eapply takes_bind; [|intros ?] ].

Lemma takes_mqtt_pub p topic raw : takes (Comm.mqtt_pub p topic raw) 9 (93 # 10).
Proof.
  unfold Comm.mqtt_pub.
  eapply takes_weaken.
  - do 4 (eapply takes_bind; [takes_steps|intros ?]).
    eapply takes_bind; [|intros ?; takes_steps].
    destruct raw, p; takes_steps.
  - lra.
  - lra.
Qed.

Lemma takes_for_msgs msgs :
  takes (Comm.for_msgs msgs)
        (9 * inject_Z (Z.of_nat (length msgs)))
        ((93 # 10) * inject_Z (Z.of_nat (length msgs))).
Proof.
  induction msgs as [|msg msgs IH].
  - change (inject_Z (Z.of_nat (length (@nil Py.bytes)))) with 0%Q.
    eapply takes_weaken; [apply takes_ret| |]; lra.
  - cbn [Comm.for_msgs length].
    rewrite Nat2Z.inj_succ. unfold Z.succ.
    eapply takes_weaken.
    + eapply takes_bind; [apply takes_mqtt_pub|intros ?; apply IH].
    + rewrite inject_Z_plus. change (inject_Z 1) with 1%Q. lra.
    + rewrite inject_Z_plus. change (inject_Z 1) with 1%Q. lra.
Qed.

Lemma takes_mqtt_sendimg msgs headers :
  takes (Comm.mqtt_sendimg msgs headers)
        (9 * inject_Z (Z.of_nat (length msgs) + 2))
        ((93 # 10) * inject_Z (Z.of_nat (length msgs) + 2)).
Proof.
  unfold Comm.mqtt_sendimg.
  eapply takes_weaken.
  - eapply takes_bind; [apply takes_mqtt_pub|intros ?].
    eapply takes_bind; [apply takes_for_msgs|intros ?]. apply takes_mqtt_pub.
  - rewrite inject_Z_plus. change (inject_Z 2) with 2%Q. lra.
  - rewrite inject_Z_plus. change (inject_Z 2) with 2%Q. lra.
Qed.

(** *** Sequences that return whatever the modem answers *)

Lemma fail_open_ret {A} (a : A) : fail_open (ret a).
Proof. intros s Hs. by exists a, s. Qed.

Lemma fail_open_bind {A B} (c : M Comm.serial A) (k : A -> M Comm.serial B) :
  fail_open c -> (forall a, fail_open (k a)) -> fail_open (bind c k).
Proof.
  intros Hc Hk s Hs. destruct (Hc s Hs) as (a & s1 & H1 & Hs1).
  rewrite (bind_run _ _ _ _ _ H1). by apply Hk.
Qed.

Lemma fail_open_AT command back timeout :
  encodable command -> (0 <= timeout)%Q -> fail_open (Comm.AT command back timeout).
Proof.
  intros Hc Ht s Hs.
  destruct (AT_text command back timeout s Hc Hs Ht) as (r & s' & H & Hs' & _).
  by exists r, s'.
Qed.

Lemma fail_open_write_str str : encodable str -> fail_open (Comm.write_str str).
Proof.
  intros Hc s Hs. destruct (write_str_text str s Hc Hs) as (s' & H & Hs' & _).
  by exists tt, s'.
Qed.

Lemma fail_open_time_sleep d : (0 <= d)%Q -> fail_open (Comm.time_sleep d).
Proof.
  intros Hd s Hs. destruct (time_sleep_text d s Hs Hd) as (s' & H & Hs' & _).
  by exists tt, s'.
Qed.

Lemma encodable_ctrl_z : encodable [26%N].
Proof. by eexists. Qed.

Ltac fail_open_steps :=
  repeat first
    [ apply fail_open_ret | apply fail_open_time_sleep; nonneg
    | apply fail_open_AT; [encodable_tac | nonneg]
    | apply fail_open_write_str; encodable_tac
    | apply fail_open_bind; [|intros ?] ].

Lemma fail_open_init_checks : fail_open Modem.init_checks.
Proof. unfold Modem.init_checks. fail_open_steps. Qed.

Lemma fail_open_ssl_config : fail_open Modem.ssl_config.
Proof. unfold Modem.ssl_config. fail_open_steps. Qed.

Lemma fail_open_mqtt_conn topic message endpoint port :
  encodable topic -> encodable message -> encodable endpoint -> encodable port ->
  fail_open (Comm.mqtt_conn topic message endpoint port).
Proof. intros. unfold Comm.mqtt_conn. fail_open_steps. Qed.

Lemma fail_open_mqtt_disc : fail_open Modem.mqtt_disc.
Proof. unfold Modem.mqtt_disc. fail_open_steps. Qed.

Lemma fail_open_mqtt_sub topic : encodable topic -> fail_open (Modem.mqtt_sub topic).
Proof. intros. unfold Modem.mqtt_sub. fail_open_steps. Qed.

Lemma fail_open_send_sms phone_num message :
  encodable phone_num -> encodable message ->
  fail_open (Modem.send_sms phone_num message).
Proof.
  intros. unfold Modem.send_sms. fail_open_steps. apply encodable_ctrl_z.
Qed.

Lemma fail_open_set_up : fail_open Main.set_up.
Proof.
  unfold Main.set_up.
  apply fail_open_bind; [apply fail_open_init_checks|intros ?].
  apply fail_open_bind; [apply fail_open_ssl_config|intros ?].
  apply fail_open_mqtt_conn; apply encodable_lit.
Qed.

Lemma takes_set_up : takes Main.set_up 32 (342 # 10).
Proof.
  unfold Main.set_up, Modem.init_checks, Modem.ssl_config, Comm.mqtt_conn.
  eapply takes_weaken; [takes_steps| |]; lra.
Qed.

(** X14: [mqtt_pub] on a channel that carries text, with the [raw] flag that
    fits the payload: it returns whatever the modem answered, having
    written the topic command, the topic, the payload command, the payload
    and the publish command, in this order, and having slept between 9 and
    9.3 seconds. *)
Theorem mqtt_pub_on_text (p : Comm.payload) (topic : Py.str) (s : Comm.serial) :
  encodable topic ->
  (forall str, p = Comm.PStr str -> encodable str) ->
  text_channel s ->
  exists s',
    Comm.mqtt_pub p topic (payload_raw p) s = (Return tt, s') /\
    writes (Comm.trace s') = writes (Comm.trace s) ++ mqtt_pub_writes p topic /\
    (slept (Comm.trace s) + 9 <= slept (Comm.trace s') /\
     slept (Comm.trace s') <= slept (Comm.trace s) + (93 # 10))%Q.
Proof.
  intros Ht Hp Hs. destruct (mqtt_pub_text p topic s Ht Hp Hs) as (s' & Hrun & _ & Hw).
  exists s'. split; [done|]. split; [done|]. by apply (takes_mqtt_pub _ _ _ _ _ _ Hrun).
Qed.

(** X15: [mqtt_pub] called with the [raw] flag that does not fit the payload
    never returns: a [bytes] payload has no [encode], and the serial port
    refuses a [str].  On a channel that carries text the payload has been
    announced to the modem by then and is never written. *)
Theorem mqtt_pub_flag_mismatch (p : Comm.payload) (topic : Py.str) (s : Comm.serial) :
  let run := Comm.mqtt_pub p topic (negb (payload_raw p)) s in
  (exists e, run.1 = Raise e) /\
  (encodable topic -> text_channel s ->
   run.1 = Raise (match p with
                  | Comm.PStr _ => TypeError
                  | Comm.PBytes _ => AttributeError
                  end) /\
   writes (Comm.trace run.2) = writes (Comm.trace s) ++ take 3 (mqtt_pub_writes p topic)).
Proof.
  cbn zeta. split.
  - unfold Comm.mqtt_pub, bind.
    destruct (Comm.AT _ _ _ s) as [[r1|e1] s1]; [|by eexists].
    destruct (Comm.write_str topic s1) as [[[]|e2] s2]; [|by eexists].
    destruct (Comm.time_sleep 2 s2) as [[[]|e3] s3]; [|by eexists].
    destruct (Comm.AT _ _ _ s3) as [[r4|e4] s4]; [|by eexists].
    destruct p; cbn; by eexists.
  - intros Ht Hs. unfold Comm.mqtt_pub.
    destruct (AT_text (Py.lit "AT+CMQTTTOPIC=0," ++ Py.str_of_nat (length topic))
                (Py.lit ">") 2 s ltac:(encodable_tac) Hs ltac:(nonneg)) as (r1 & s1 & H1 & Hs1 & W1).
    rewrite (bind_run _ _ _ _ _ H1).
    destruct (write_str_text topic s1 Ht Hs1) as (s2 & H2 & Hs2 & W2).
    rewrite (bind_run _ _ _ _ _ H2).
    destruct (time_sleep_text 2 s2 Hs2 ltac:(nonneg)) as (s3 & H3 & Hs3 & W3).
    rewrite (bind_run _ _ _ _ _ H3).
    destruct (AT_text (Py.lit "AT+CMQTTPAYLOAD=0," ++ Py.str_of_nat (Comm.payload_len p))
                (Py.lit ">") 2 s3 ltac:(encodable_tac) Hs3 ltac:(nonneg)) as (r4 & s4 & H4 & Hs4 & W4).
    rewrite (bind_run _ _ _ _ _ H4).
    destruct p; cbn [payload_raw negb]; unfold bind, throw; cbn [fst snd];
      by rewrite W4, W3, W2, W1, <- !app_assoc.
Qed.

(** X16: [mqtt_sendimg] on a channel that carries text: it returns, the payloads
    it publishes are the Start token, the hex of each chunk in order and
    the End token, and it sleeps between 9 and 9.3 seconds for each of
    them. *)
Theorem mqtt_sendimg_on_text (msgs : list Py.bytes) (headers : list Py.str)
    (s : Comm.serial) :
  Forall encodable headers ->
  text_channel s ->
  exists s',
    Comm.mqtt_sendimg msgs headers s = (Return tt, s') /\
    writes (Comm.trace s') =
      writes (Comm.trace s) ++
      flat_map (fun p => mqtt_pub_writes p Comm.default_topic)
               (frame_payloads msgs headers) /\
    (slept (Comm.trace s) + 9 * inject_Z (Z.of_nat (length msgs) + 2)
       <= slept (Comm.trace s') /\
     slept (Comm.trace s')
       <= slept (Comm.trace s) + (93 # 10) * inject_Z (Z.of_nat (length msgs) + 2))%Q.
Proof.
  intros Hh Hs. destruct (mqtt_sendimg_text msgs headers s Hh Hs) as (s' & Hrun & Hw).
  exists s'. split; [done|]. split; [done|].
  by apply (takes_mqtt_sendimg _ _ _ _ _ Hrun).
Qed.

(** X17: the other sequences of the module are fail-open as [mqtt_conn] is: on
    a channel that carries text each of them runs to its end and returns,
    whatever the modem answered to any step, and leaves a channel that
    carries text. *)
Theorem modem_sequences_fail_open (topic phone_num message : Py.str) :
  encodable topic -> encodable phone_num -> encodable message ->
  fail_open Modem.init_checks /\ fail_open Modem.ssl_config /\
  fail_open Modem.mqtt_disc /\ fail_open (Modem.mqtt_sub topic) /\
  fail_open (Modem.send_sms phone_num message) /\
  fail_open Modem.gps_init /\ fail_open Modem.gps_getpos /\ fail_open Modem.gps_disc.
Proof.
  intros Ht Hn Hm.
  split; [apply fail_open_init_checks|]. split; [apply fail_open_ssl_config|].
  split; [apply fail_open_mqtt_disc|]. split; [by apply fail_open_mqtt_sub|].
  split; [by apply fail_open_send_sms|].
  unfold Modem.gps_init, Modem.gps_getpos, Modem.gps_disc.
  repeat split; fail_open_steps.
Qed.

(** X18: the set-up of [main()], [init_checks], [ssl_config] and [mqtt_conn] with
    its defaults, on a channel that carries text: it returns whatever the
    modem answered to its 22 commands, and has slept between 32 and 34.2
    seconds by then. *)
Theorem set_up_on_text (s : Comm.serial) :
  text_channel s ->
  exists s',
    Main.set_up s = (Return tt, s') /\ text_channel s' /\
    (slept (Comm.trace s) + 32 <= slept (Comm.trace s') /\
     slept (Comm.trace s') <= slept (Comm.trace s) + (342 # 10))%Q.
Proof.
  intros Hs. destruct (fail_open_set_up s Hs) as ([] & s' & Hrun & Hs').
  exists s'. split; [done|]. split; [done|]. by apply (takes_set_up _ _ _ Hrun).
Qed.


End Timing.

(** ** Chunk sizes *)

Section MoreChunks.

Lemma imgToChunks_length (byte_arr : Py.bytes) (chunk_size : Z) :
  0 < chunk_size ->
  exists segs,
    Comm.imgToChunks byte_arr chunk_size = Return segs /\
    Z.of_nat (length segs) = (Z.of_nat (length byte_arr) + chunk_size - 1) / chunk_size /\
    Forall (fun seg => (0 < length seg)%nat /\ Z.of_nat (length seg) <= chunk_size) segs.
Proof.
  intros Hc. eexists. split; [by apply imgToChunks_pos|].
  set (n := Z.of_nat (length byte_arr)).
  destruct (range_len_pos n chunk_size Hc ltac:(lia)) as (_ & Hge & Hlt).
  assert (0 <= (n + chunk_size - 1) / chunk_size) by (apply Z.div_pos; lia).
  set (m := Z.to_nat ((n + chunk_size - 1) / chunk_size)) in *.
  assert (Hm : Z.of_nat m = (n + chunk_size - 1) / chunk_size) by (unfold m; lia).
  rewrite <- Hm in Hge, Hlt |- *.
  split; [by rewrite length_map, length_seq|].
  apply List.Forall_forall. intros s [k [<- Hk]]%in_map_iff.
  apply in_seq in Hk. rewrite length_chunk_at. unfold n in *. nia.
Qed.

(** X20: at a chunk size that is not positive [imgToChunks] gives no chunk of
    any payload: it raises [ValueError] at zero, and returns the empty list
    below zero. *)
Theorem imgToChunks_nonpositive (byte_arr : Py.bytes) (chunk_size : Z) :
  chunk_size <= 0 ->
  Comm.imgToChunks byte_arr chunk_size =
  if bool_decide (chunk_size = 0) then Raise ValueError else Return [].
Proof.
  intros Hc. unfold Comm.imgToChunks, Py.range.
  case_bool_decide as H0; [by subst|].
  destruct (Z.eqb_spec chunk_size 0) as [?|_]; [done|]. cbn [obind].
  unfold Py.range_len. destruct (Z.ltb_spec 0 chunk_size) as [?|_]; [lia|].
  replace (0 - Z.of_nat (length byte_arr) - chunk_size - 1)
    with (- (Z.of_nat (length byte_arr) + 1) + 1 * (- chunk_size)) by lia.
  rewrite Z.div_add by lia.
  assert ((- (Z.of_nat (length byte_arr) + 1)) / (- chunk_size) < 0).
  { apply Z.div_lt_upper_bound; lia. }
  rewrite Z.max_l by lia. done.
Qed.

Lemma length_hexlify (bs : Py.bytes) : length (Py.hexlify bs) = (2 * length bs)%nat.
Proof.
  unfold Py.hexlify. induction bs as [|b bs IH]; [done|]. cbn [flat_map app length].
  rewrite IH. lia.
Qed.

(** X21: the payload [mqtt_sendimg] announces for a chunk of [imgToChunks] is
    the hex of the chunk: twice as long as the chunk, so not empty and at
    most twice the chunk size, 10240 bytes at the default size. *)
Theorem chunk_payloads_are_bounded (byte_arr : Py.bytes) (chunk_size : Z) :
  0 < chunk_size ->
  exists segs,
    Comm.imgToChunks byte_arr chunk_size = Return segs /\
    Forall (fun seg =>
              let p := Comm.PBytes (Py.hexlify seg) in
              (0 < Comm.payload_len p)%nat /\
              Z.of_nat (Comm.payload_len p) <= 2 * chunk_size /\
              (chunk_size = 5120 -> Z.of_nat (Comm.payload_len p) <= 10240)) segs.
Proof.
  intros Hc. destruct (imgToChunks_length byte_arr chunk_size Hc) as (segs & Hret & _ & Hall).
  exists segs. split; [done|].
  eapply list.Forall_impl; [exact Hall|]. intros seg [Hpos Hle]. cbn.
  rewrite length_hexlify. lia.
Qed.

End MoreChunks.

(** ** Headers and metadata *)

Section Metadata.

Context `{E : Externals}.
Local Arguments Py.lit : simpl never.
Local Arguments Py.decode : simpl never.
Local Arguments Py.encode : simpl never.
Local Arguments Py.contains : simpl never.

Lemma remove_char_app c a b :
  Py.remove_char c (a ++ b) = Py.remove_char c a ++ Py.remove_char c b.
Proof. apply List.filter_app. Qed.

Lemma cleaned_app a b : cleaned (a ++ b) = cleaned a ++ cleaned b.
Proof. unfold cleaned. by rewrite !remove_char_app. Qed.

Lemma cleaned_plain h : plain h -> cleaned h = h.
Proof.
  intros Hp. unfold cleaned, Py.remove_char.
  induction Hp as [|c h (_ & H1 & H2 & H3) _ IH]; [done|].
  cbn [List.filter].
  destruct (N.eqb_spec c 125) as [?|_]; [done|]. cbn [negb List.filter].
  destruct (N.eqb_spec c 91) as [?|_]; [done|]. cbn [negb List.filter].
  destruct (N.eqb_spec c 93) as [?|_]; [done|]. cbn [negb]. by rewrite IH.
Qed.

Lemma split_app_sep sep a b :
  Py.split sep (a ++ sep :: b) = Py.split sep a ++ Py.split sep b.
Proof.
  induction a as [|c a IH]; cbn [app Py.split].
  - by rewrite N.eqb_refl.
  - destruct (c =? sep)%N; [by rewrite IH|]. rewrite IH.
    destruct (Py.split sep a) as [|h r] eqn:Hs; [|done].
    pose proof (length_split sep a) as Hl. by rewrite Hs in Hl.
Qed.

Lemma split_plain h : plain h -> Py.split 44 h = [h].
Proof.
  intros Hp. induction Hp as [|c h (H0 & _) _ IH]; [done|].
  cbn [Py.split]. destruct (N.eqb_spec c 44) as [?|_]; [done|]. by rewrite IH.
Qed.

Lemma split_fields (pre : Py.str) (headers : list Py.str) :
  Py.split 44 (pre ++ flat_map (fun m => 44%N :: m) headers) =
  Py.split 44 pre ++ flat_map (Py.split 44) headers.
Proof.
  revert pre. induction headers as [|m l IH]; intros pre; cbn [flat_map].
  - by rewrite !app_nil_r.
  - cbn [app]. by rewrite split_app_sep, (IH m).
Qed.

Lemma cleaned_flat_map (headers : list Py.str) :
  cleaned (flat_map (fun m => 44%N :: m) headers)
  = flat_map (fun m => 44%N :: m) (cleaned <$> headers).
Proof.
  induction headers as [|m l IH]; [done|]. cbn [flat_map fmap list_fmap].
  change (44%N :: m) with ([44%N] ++ m). rewrite <- !app_assoc, !cleaned_app, IH. done.
Qed.

Lemma parse_start_header (headers : list Py.str) :
  S3.parse_metadata (Comm.start_header headers)
  = flat_map (fun h => Py.split 44 (cleaned h)) headers.
Proof.
  unfold S3.parse_metadata. fold (cleaned (Comm.start_header headers)).
  rewrite start_header_eq, !cleaned_app, cleaned_flat_map.
  change (cleaned (Py.lit "}")) with (@nil N). rewrite app_nil_r.
  rewrite split_fields.
  change (Py.split 44 (cleaned (Py.lit "{Image Start"))) with [Py.lit "{Image Start"].
  cbn [app]. rewrite skipn_cons, drop_0. generalize headers. clear.
  induction headers as [|m l IH]; [done|].
  cbn [fmap list_fmap flat_map]. by rewrite IH.
Qed.

Lemma plain_space h : plain h -> plain (32%N :: h).
Proof. intros Hp. by constructor. Qed.

Lemma flat_map_plain (hs : list Py.str) :
  Forall plain hs -> flat_map (fun h => Py.split 44 (cleaned h)) hs = hs.
Proof.
  induction 1 as [|h hs Hp _ IH]; [done|]. cbn [flat_map].
  by rewrite (cleaned_plain _ Hp), (split_plain _ Hp), IH.
Qed.

Lemma fields_of_str_of_list (e0 : Py.str) (rest : list Py.str) :
  plain e0 -> Forall plain rest ->
  Py.split 44 (cleaned (Main.str_of_list (e0 :: rest)))
  = e0 :: map (fun e => 32%N :: e) rest.
Proof.
  intros H0 Hrest. unfold Main.str_of_list.
  rewrite !cleaned_app.
  change (cleaned (Py.lit "[")) with (@nil N).
  change (cleaned (Py.lit "]")) with (@nil N).
  rewrite app_nil_l, app_nil_r.
  assert (Hjoin : flat_map (fun y => Py.lit ", " ++ y) rest
                  = flat_map (fun m => 44%N :: m) (map (fun e => 32%N :: e) rest)).
  { clear. induction rest as [|e l IH]; [done|]. cbn [flat_map map]. by rewrite IH. }
  rewrite Hjoin, cleaned_flat_map, (cleaned_plain _ H0), split_fields, (split_plain _ H0).
  cbn [app]. f_equal.
  assert (Hall : Forall plain (map (fun e => 32%N :: e) rest)).
  { clear -Hrest. induction Hrest; constructor; [by apply plain_space|done]. }
  clear -Hall. induction Hall as [|h hs Hp _ IH]; [done|].
  cbn [fmap list_fmap flat_map]. by rewrite (cleaned_plain _ Hp), (split_plain _ Hp), IH.
Qed.

Lemma main_fields (lat lon num e0 : Py.str) (rest : list Py.str) :
  plain lat -> plain lon -> plain num -> plain e0 -> Forall plain rest ->
  S3.parse_metadata (Comm.start_header (Main.headers lat lon num (e0 :: rest)))
  = lat :: lon :: num :: e0 :: map (fun e => 32%N :: e) rest.
Proof.
  intros Hlat Hlon Hnum H0 Hrest. rewrite parse_start_header.
  unfold Main.headers. cbn [flat_map].
  rewrite (cleaned_plain _ Hlat), (cleaned_plain _ Hlon), (cleaned_plain _ Hnum).
  rewrite !split_plain by done.
  by rewrite (fields_of_str_of_list _ _ H0 Hrest), app_nil_r.
Qed.

(** X22: the metadata the scanner reads off the Start token [mqtt_sendimg]
    builds: the fields of each header in order, a header being cut at its
    commas once its closing braces and square brackets are removed.  The
    headers come back as they were sent when none of them has such a
    character. *)
Theorem metadata_of_headers (headers : list Py.str) :
  S3.parse_metadata (Comm.start_header headers)
  = flat_map (fun h => Py.split 44 (cleaned h)) headers /\
  (Forall plain headers ->
   S3.parse_metadata (Comm.start_header headers) = headers).
Proof.
  split; [apply parse_start_header|].
  intros Hall. rewrite parse_start_header. by apply flat_map_plain.
Qed.

(** X23: the four headers of [main()], [[lat, lon, num, envs]] with the seven
    items of [data()], are read by the scanner as ten fields: the three
    numbers, the time, and the six readings each after a space.  [envs]
    counts for seven fields because [str] of a list separates its items by
    commas. *)
Theorem main_headers_give_ten_fields
    (lat lon num time : Py.str) (readings : list Py.str) :
  plain lat -> plain lon -> plain num -> plain time -> Forall plain readings ->
  length readings = 6%nat ->
  let md := S3.parse_metadata
              (Comm.start_header (Main.headers lat lon num (time :: readings))) in
  md = lat :: lon :: num :: time :: map (fun e => 32%N :: e) readings /\
  length md = 10%nat.
Proof.
  intros Hlat Hlon Hnum Ht Hr Hlen. cbn zeta.
  rewrite (main_fields _ _ _ _ _ Hlat Hlon Hnum Ht Hr).
  split; [done|]. cbn [length]. rewrite length_map. unfold Py.str in *. lia.
Qed.

(** X24: [make_row] never reads the field of index 3, the time of [main()]:
    whatever stands there, the row or the exception is the same. *)
Theorem make_row_skips_the_time (md : list Py.str) (date x : Py.str) :
  S3.make_row (<[3%nat := x]> md) date = S3.make_row md date.
Proof.
  unfold S3.make_row, S3.field. by rewrite !list_lookup_insert_ne by lia.
Qed.

End Metadata.

(** ** The frames the senders publish *)

Section FramesOfTheSender.

Context `{E : Externals}.
Local Arguments Py.lit : simpl never.
Local Arguments Py.decode : simpl never.
Local Arguments Py.encode : simpl never.

Lemma hex_is_noise (obj : S3.s3object) (chunk : Py.bytes) :
  S3.Body obj = Py.hexlify chunk -> is_noise obj.
Proof.
  intros Hb. pose proof (hexlify_is_hex chunk) as Hhex.
  eexists. split.
  - rewrite Hb. apply decode_ascii, is_hex_ascii, Hhex.
  - unfold START. change (Py.lit "Image Start") with (73%N :: Py.lit "mage Start").
    by destruct (hex_text_no_marker _ 73%N (Py.lit "mage Start") Hhex eq_refl) as [-> _].
Qed.

Lemma end_is_noise (obj : S3.s3object) : is_end obj -> is_noise obj.
Proof. intros He. exists Comm.image_end. split; [done|]. by vm_compute. Qed.

(** X25: a frame [mqtt_sendimg] publishes with headers that make fewer than ten
    fields, as the three numbers of the call written in the module's own
    [__main__] would, is never ingested: stored one object per published
    payload, it is scanned to no entry at all, and [pull] of such a bucket
    raises and leaves the store as it was. *)
Theorem short_frame_is_dropped (msgs : list Py.bytes) (headers : list Py.str)
    (objs : list S3.s3object) (self : S3.pullS3) :
  Forall encodable headers ->
  (length (flat_map (fun h => Py.split 44 (cleaned h)) headers) < 10)%nat ->
  map S3.Body objs = map payload_bytes (frame_payloads msgs headers) ->
  S3.scan objs = Return [] /\ S3.pull objs self = (Raise TypeError, self).
Proof.
  intros Hh Hshort Hobjs.
  assert (Hscan : S3.scan objs = Return []).
  { unfold frame_payloads in Hobjs. cbn [map] in Hobjs. rewrite map_app in Hobjs.
    destruct objs as [|start objs]; [done|]. cbn [map] in Hobjs.
    injection Hobjs as Hstart Hrest.
    apply map_eq_app in Hrest as (chunk_objs & last & -> & Hchunks & Hlast).
    destruct last as [|end_ [|??]]; try done. cbn in Hlast. injection Hlast as Hend.
    rewrite map_map in Hchunks. cbn [payload_bytes] in *.
    assert (Hs : is_start start (Comm.start_header headers)).
    { split; [|apply contains_start_header]. rewrite Hstart.
      by apply decode_published, encodable_start_header. }
    assert (He : is_end end_).
    { unfold is_end. rewrite Hend. apply decode_published, encodable_lit. }
    unfold S3.scan. cbn [S3.scan_from]. rewrite (scan_step_start _ _ _ Hs).
    rewrite parse_start_header, bool_decide_eq_true_2 by done. cbn [obind].
    rewrite scan_from_idle; [done|done|].
    apply Forall_app. split; [|by constructor; [apply end_is_noise|]].
    clear -Hchunks. revert msgs Hchunks.
    induction chunk_objs as [|obj l IH]; intros [|msg msgs] Hb; try done.
    injection Hb as Hb Hl. constructor; [by apply (hex_is_noise _ msg)|by apply (IH msgs)]. }
  split; [done|]. unfold S3.pull, bind, lift. by rewrite Hscan.
Qed.

(** X26: the frame of [main()]: the chunks of an image at the default size and
    the four headers [[lat, lon, num, envs]], stored one object per
    published payload and in order, are scanned to one entry that carries
    the image and ten fields, the three numbers, the time and the six
    readings. *)
Theorem main_frame_is_recovered
    (img : Py.bytes) (lat lon num time : Py.str) (readings : list Py.str) :
  Forall (fun h => plain h /\ encodable h) (lat :: lon :: num :: time :: readings) ->
  length readings = 6%nat ->
  exists segs,
    Comm.imgToChunks img 5120 = Return segs /\
    forall objs,
      map S3.Body objs
      = map payload_bytes
            (frame_payloads segs (Main.headers lat lon num (time :: readings))) ->
      exists ts,
        S3.scan objs
        = Return [(img, ts,
                   Some (lat :: lon :: num :: time :: map (fun e => 32%N :: e) readings))].
Proof.
  intros Hall Hlen.
  assert (Hplain : Forall plain (lat :: lon :: num :: time :: readings)).
  { eapply list.Forall_impl; [exact Hall|]. by intros h [? _]. }
  assert (Henc : Forall encodable (lat :: lon :: num :: time :: readings)).
  { eapply list.Forall_impl; [exact Hall|]. by intros h [_ ?]. }
  inversion Hplain as [|? ? Hlat H1]; subst. inversion H1 as [|? ? Hlon H2]; subst.
  inversion H2 as [|? ? Hnum H3]; subst. inversion H3 as [|? ? Ht Hr]; subst.
  destruct (imgToChunks_concat img 5120 ltac:(lia)) as (segs & Hret & Hcat).
  exists segs. split; [done|]. intros objs Hobjs.
  set (headers := Main.headers lat lon num (time :: readings)) in *.
  pose proof (main_fields _ _ _ _ _ Hlat Hlon Hnum Ht Hr) as Hmd. fold headers in Hmd.
  assert (Hh : Forall encodable headers).
  { inversion Henc as [|? ? Elat E1]; subst. inversion E1 as [|? ? Elon E2]; subst.
    inversion E2 as [|? ? Enum E3]; subst. inversion E3 as [|? ? Et Er]; subst.
    repeat (constructor; [done|]). constructor; [|constructor].
    unfold Main.str_of_list.
    apply encodable_app; [apply encodable_lit|].
    apply encodable_app; [|apply encodable_lit].
    apply encodable_app; [done|].
    clear -Er. induction Er as [|e l He _ IH]; [by eexists|].
    cbn [flat_map]. repeat apply encodable_app; try done. apply encodable_lit. }
  unfold frame_payloads in Hobjs. cbn [map] in Hobjs. rewrite map_app in Hobjs.
  destruct objs as [|start objs]; [done|]. cbn [map] in Hobjs.
  injection Hobjs as Hstart Hrest.
  apply map_eq_app in Hrest as (chunk_objs & last & -> & Hchunks & Hlast).
  destruct last as [|end_ [|??]]; try done. cbn in Hlast. injection Hlast as Hend.
  rewrite map_map in Hchunks. cbn [payload_bytes] in *.
  assert (Hs : is_start start (Comm.start_header headers)).
  { split; [|apply contains_start_header]. rewrite Hstart.
    by apply decode_published, encodable_start_header. }
  assert (He : is_end end_).
  { unfold is_end. rewrite Hend. apply decode_published, encodable_lit. }
  exists (S3.LastModified end_).
  rewrite (scan_frame segs start _ chunk_objs end_ Hs).
  - by rewrite Hcat, Hmd.
  - rewrite Hmd. cbn [length]. rewrite length_map. unfold Py.str in *. lia.
  - done.
  - done.
Qed.

End FramesOfTheSender.

(** ** Sending a detection *)

Section SendingFromMain.

Local Arguments Py.lit : simpl never.
Local Arguments Py.decode : simpl never.
Local Arguments Py.encode : simpl never.

(** X27: what [main()] does to send a detection, on a channel that carries
    text: the image is cut in as many chunks as 5120 goes into its length,
    rounded up; the Start token, the hex of each chunk and the End token
    are published in this order; and the call sleeps between 9 and 9.3
    seconds for each of these payloads, whatever the modem answered. *)
Theorem send_on_text (img : Py.bytes) (headers : list Py.str) (s : Comm.serial) :
  Forall encodable headers ->
  text_channel s ->
  exists segs s',
    Comm.imgToChunks img 5120 = Return segs /\
    Z.of_nat (length segs) = (Z.of_nat (length img) + 5119) / 5120 /\
    Main.send img headers s = (Return tt, s') /\
    writes (Comm.trace s') =
      writes (Comm.trace s) ++
      flat_map (fun p => mqtt_pub_writes p Comm.default_topic)
               (frame_payloads segs headers) /\
    (slept (Comm.trace s) + 9 * inject_Z (Z.of_nat (length segs) + 2)
       <= slept (Comm.trace s') /\
     slept (Comm.trace s')
       <= slept (Comm.trace s) + (93 # 10) * inject_Z (Z.of_nat (length segs) + 2))%Q.
Proof.
  intros Hh Hs.
  destruct (imgToChunks_length img 5120 ltac:(lia)) as (segs & Hret & Hlen & _).
  destruct (mqtt_sendimg_text segs headers s Hh Hs) as (s' & Hrun & Hw).
  exists segs, s'. split; [done|]. split; [rewrite Hlen; f_equal; lia|].
  assert (Hsend : Main.send img headers s = (Return tt, s')).
  { unfold Main.send, bind, lift. by rewrite Hret. }
  split; [done|]. split; [done|].
  by apply (takes_mqtt_sendimg _ _ _ _ _ Hrun).
Qed.

End SendingFromMain.

(** ** The properties at concrete inputs *)

#[local] Existing Instance Sim.externals.

(** C1, at the five-byte image of [Sim.frame] cut in chunks of two bytes. *)
Lemma roundtrip_witness :
  0 < 2 /\
  is_start (Sim.start_object 10) Sim.start_text /\
  (10 <= length (S3.parse_metadata Sim.start_text))%nat /\
  is_end (Sim.end_object 5400) /\
  exists segs,
    Comm.imgToChunks Sim.jpeg 2 = Return segs /\
    S3.scan Sim.frame =
    Return [(Sim.jpeg, 5400, Some (S3.parse_metadata Sim.start_text))].
Proof.
  assert (H1 : is_start (Sim.start_object 10) Sim.start_text) by (vm_compute; done).
  assert (H2 : (10 <= length (S3.parse_metadata Sim.start_text))%nat) by (vm_compute; lia).
  assert (H3 : is_end (Sim.end_object 5400)) by (vm_compute; done).
  repeat (split; [done|]).
  apply (roundtrip Sim.jpeg 2 (Sim.start_object 10) Sim.start_text
           [Sim.chunk_object [xff; xd8] 11; Sim.chunk_object [x01; x02] 12;
            Sim.chunk_object [x03] 13] (Sim.end_object 5400));
    [lia|done|done|done|].
  intros segs Hsegs. vm_compute in Hsegs. injection Hsegs as <-. reflexivity.
Defined.

(** C4, at a Start object followed by one chunk and nothing else. *)
Lemma unterminated_frame_emits_nothing_witness :
  is_start (Sim.start_object 10) Sim.start_text /\
  Forall (fun obj => ~ is_end obj) [Sim.chunk_object [xff; xd8] 11] /\
  (S3.pull [Sim.start_object 10; Sim.chunk_object [xff; xd8] 11] S3.init).2 = S3.init.
Proof.
  assert (H1 : is_start (Sim.start_object 10) Sim.start_text) by (vm_compute; done).
  assert (H2 : Forall (fun obj => ~ is_end obj) [Sim.chunk_object [xff; xd8] 11]).
  { constructor; [|constructor]. intros H. vm_compute in H. discriminate. }
  repeat (split; [done|]).
  apply (unterminated_frame_emits_nothing [] (Sim.start_object 10)
           Sim.start_text [Sim.chunk_object [xff; xd8] 11] H1 H2).
Defined.

(** C5, at a Start object with three metadata fields between two complete
    frames. *)
Lemma short_start_is_skipped_witness :
  is_start (Sim.short_start_object 6000) Sim.short_start_text /\
  (length (S3.parse_metadata Sim.short_start_text) < 10)%nat /\
  S3.scan (Sim.frame ++ Sim.short_start_object 6000 :: Sim.frame) =
  obind (S3.scan Sim.frame) (fun before =>
  omap (fun imgs => before ++ imgs) (S3.scan Sim.frame)).
Proof.
  assert (H1 : is_start (Sim.short_start_object 6000) Sim.short_start_text)
    by (vm_compute; done).
  assert (H2 : (length (S3.parse_metadata Sim.short_start_text) < 10)%nat)
    by (vm_compute; lia).
  repeat (split; [done|]).
  apply (short_start_is_skipped Sim.frame (Sim.short_start_object 6000)
           Sim.short_start_text Sim.frame H1 H2).
Defined.



(** C8, at a first [pull] of [Sim.frame]. *)
Lemma mostRecent_is_last_witness :
  let imgs := [(Sim.jpeg, 5400, Some (S3.parse_metadata Sim.start_text))] in
  S3.scan Sim.frame = Return imgs /\
  (S3.pull Sim.frame S3.init).1 = Return tt /\
  exists img, list.last imgs = Some img /\
              S3.mostRecent (S3.pull Sim.frame S3.init).2 = Some (key_of img).
Proof.
  cbn zeta.
  assert (H1 : S3.scan Sim.frame
               = Return [(Sim.jpeg, 5400, Some (S3.parse_metadata Sim.start_text))])
    by (vm_compute; done).
  assert (H2 : (S3.pull Sim.frame S3.init).1 = Return tt) by (vm_compute; done).
  repeat (split; [done|]).
  destruct (mostRecent_is_last Sim.frame _ S3.init H1) as [Hret _].
  exact (Hret H2).
Defined.

(** C8 as stated fails when [pull] raises: a frame with no chunk gives one
    candidate whose empty image PIL rejects, and [mostRecent] stays as it
    was. *)
Lemma mostRecent_stale_when_pull_raises :
  let objs := [Sim.start_object 10; Sim.end_object 5400] in
  exists img,
    S3.scan objs = Return [img] /\
    (S3.pull objs S3.init).1 = Raise UnidentifiedImageError /\
    S3.mostRecent (S3.pull objs S3.init).2 <> Some (key_of img).
Proof. eexists. split; [vm_compute; reflexivity|]. split; vm_compute; done. Qed.

(** C9, at a listing with a Start object and a chunk but no End object. *)
Lemma pull_without_frames_raises_witness :
  let objs := [Sim.start_object 10; Sim.chunk_object [xff; xd8] 11] in
  S3.scan objs = Return [] /\
  S3.pull objs S3.init = (Raise TypeError, S3.init) /\
  S3.pull [] S3.init = (Raise TypeError, S3.init).
Proof.
  cbn zeta.
  assert (H1 : S3.scan [Sim.start_object 10; Sim.chunk_object [xff; xd8] 11] = Return [])
    by (vm_compute; done).
  split; [done|].
  apply (pull_without_frames_raises _ S3.init H1).
Defined.


(** C3 at a bucket of ten objects holding two frames: the second [pull]
    changes nothing. *)
Example pull_twice_ten_entries :
  let objs := Sim.frame ++
              [Sim.start_object 9000; Sim.chunk_object [xff; xd8] 9001;
               Sim.chunk_object [x01; x02] 9002; Sim.chunk_object [x03] 9003;
               Sim.end_object 9100] in
  let first := S3.pull objs S3.init in
  let second := S3.pull objs first.2 in
  length objs = 10%nat /\
  second = first /\
  length (S3.map_data first.2) = 2%nat /\
  S3.hourly first.2 = [(7200, 1); (10800, 1)] /\
  S3.mostRecent first.2 = Some (Py.lit "2021-03-01-02-31-40").
Proof.
  cbn zeta. split; [reflexivity|]. split; [apply pull_again|].
  split; [vm_compute; reflexivity|]. split; vm_compute; reflexivity.
Qed.

(** ** Further properties at concrete inputs *)

(** *** The scanner, at [Sim.frame] *)

(** X5, at [Sim.frame]: its one entry carries ten fields. *)
Lemma candidates_are_complete_witness :
  S3.scan Sim.frame = Return [(Sim.jpeg, 5400, Some (S3.parse_metadata Sim.start_text))] /\
  Forall (fun img : S3.image => exists md, img.2 = Some md /\ (10 <= length md)%nat)
         [(Sim.jpeg, 5400, Some (S3.parse_metadata Sim.start_text))].
Proof.
  assert (H : S3.scan Sim.frame
              = Return [(Sim.jpeg, 5400, Some (S3.parse_metadata Sim.start_text))])
    by (vm_compute; reflexivity).
  split; [done|]. apply (candidates_are_complete Sim.frame _ H).
Defined.

(** X6, at [Sim.frame]: its entry is dated by the End object. *)
Lemma candidates_are_dated_by_end_objects_witness :
  S3.scan Sim.frame = Return [(Sim.jpeg, 5400, Some (S3.parse_metadata Sim.start_text))] /\
  [5400] `sublist_of` end_times Sim.frame /\ (1 <= length (end_times Sim.frame))%nat.
Proof.
  assert (H : S3.scan Sim.frame
              = Return [(Sim.jpeg, 5400, Some (S3.parse_metadata Sim.start_text))])
    by (vm_compute; reflexivity).
  split; [done|]. apply (candidates_are_dated_by_end_objects Sim.frame _ H).
Defined.

(** X7, at [Sim.frame] followed by a frame without chunks. *)
Lemma scan_splits_at_start_witness :
  is_start (Sim.start_object 9000) Sim.start_text /\
  S3.scan (Sim.frame ++ Sim.start_object 9000 :: [Sim.end_object 9100]) =
  obind (S3.scan Sim.frame) (fun imgs =>
  omap (fun imgs' => imgs ++ imgs')
       (S3.scan (Sim.start_object 9000 :: [Sim.end_object 9100]))).
Proof.
  assert (H : is_start (Sim.start_object 9000) Sim.start_text) by (vm_compute; done).
  split; [done|].
  apply (scan_splits_at_start Sim.frame (Sim.start_object 9000) Sim.start_text
           [Sim.end_object 9100] H).
Defined.

(** X8, at two copies of [Sim.frame] stored one after the other. *)
Lemma frames_are_scanned_in_order_witness :
  let img := (Sim.jpeg, 5400, Some (S3.parse_metadata Sim.start_text)) in
  Forall2 is_frame [Sim.frame; Sim.frame] [img; img] /\
  S3.scan (concat [Sim.frame; Sim.frame]) = Return [img; img].
Proof.
  cbn zeta.
  assert (H : is_frame Sim.frame (Sim.jpeg, 5400, Some (S3.parse_metadata Sim.start_text))).
  { exists (Sim.start_object 10), Sim.start_text,
      [Sim.chunk_object [xff; xd8] 11; Sim.chunk_object [x01; x02] 12;
       Sim.chunk_object [x03] 13],
      [[xff; xd8]; [x01; x02]; [x03]], (Sim.end_object 5400).
    split; [reflexivity|]. split; [vm_compute; done|]. split; [vm_compute; lia|].
    split; [vm_compute; done|]. split; reflexivity. }
  assert (H2 : Forall2 is_frame [Sim.frame; Sim.frame]
                 [(Sim.jpeg, 5400, Some (S3.parse_metadata Sim.start_text));
                  (Sim.jpeg, 5400, Some (S3.parse_metadata Sim.start_text))]).
  { repeat constructor; exact H. }
  split; [done|]. apply (frames_are_scanned_in_order _ _ H2).
Defined.

(** X9, at a stray End object and an object that is not hex, before [Sim.frame]. *)
Lemma idle_scanner_passes_over_noise_witness :
  let noise := [Sim.end_object 1; Sim.object [x7a; x7a] 2] in
  S3.parsing S3.scan_init = false /\
  Forall is_noise noise /\
  S3.scan_from S3.scan_init (noise ++ Sim.frame) = S3.scan_from S3.scan_init Sim.frame /\
  S3.scan (noise ++ Sim.frame) = S3.scan Sim.frame.
Proof.
  cbn zeta.
  assert (H : Forall is_noise [Sim.end_object 1; Sim.object [x7a; x7a] 2]).
  { repeat constructor; eexists; (split; [vm_compute; reflexivity|vm_compute; reflexivity]). }
  split; [reflexivity|]. split; [done|].
  apply (idle_scanner_passes_over_noise S3.scan_init _ Sim.frame eq_refl H).
Defined.

(** *** The store *)

(** X11, at a frame without chunks: PIL rejects its empty image. *)
Lemma pull_raises_only_witness :
  let objs := [Sim.start_object 10; Sim.end_object 5400] in
  (S3.pull objs S3.init).1 = Raise UnidentifiedImageError /\
  (UnidentifiedImageError ∈ [UnicodeDecodeError; BinasciiError; ValueError; TypeError] \/
   exists imgs img, S3.scan objs = Return imgs /\ img ∈ imgs /\
                    png_of img.1.1 (S3.asset_path (key_of img))
                    = Raise UnidentifiedImageError).
Proof.
  cbn zeta.
  assert (H : (S3.pull [Sim.start_object 10; Sim.end_object 5400] S3.init).1
              = Raise UnidentifiedImageError) by (vm_compute; reflexivity).
  split; [done|].
  apply (pull_raises_only [Sim.start_object 10; Sim.end_object 5400] S3.init _ H).
Defined.

(** X12, at two entries with the same timestamp and different images. *)
Lemma same_second_entry_is_dropped_witness :
  let img : S3.image := (Sim.jpeg, 5400, Some Sim.ten_fields) in
  let img' : S3.image := ([xff; xd8; x09], 5400, Some Sim.ten_fields) in
  take 19 (dt_str img'.1.2) = take 19 (dt_str img.1.2) /\
  (S3.process img S3.init).1 = Return tt /\
  key_of img' = key_of img /\
  S3.process img' (S3.process img S3.init).2 = (Return tt, (S3.process img S3.init).2).
Proof.
  cbn zeta.
  assert (H : (S3.process (Sim.jpeg, 5400, Some Sim.ten_fields) S3.init).1 = Return tt)
    by (vm_compute; reflexivity).
  split; [reflexivity|]. split; [done|].
  apply (same_second_entry_is_dropped
           ((Sim.jpeg, 5400, Some Sim.ten_fields) : @S3.image Sim.externals)
           (([xff; xd8; x09], 5400, Some Sim.ten_fields) : @S3.image Sim.externals)
           S3.init eq_refl H).
Defined.

(** X13, at half past one, rounded to the hour. *)
Lemma roundTime_is_nearest_witness :
  0 < 3600 /\
  exists k,
    @S3.roundTime Sim.externals 5400 3600
    = @dt_add Sim.externals 5400 (k * 3600 - @dt_seconds Sim.externals 5400)
              (- @dt_microsecond Sim.externals 5400) /\
    - 3600 < 2 * (k * 3600 - @dt_seconds Sim.externals 5400) <= 3600.
Proof.
  split; [lia|]. apply (@roundTime_is_nearest Sim.externals 5400 3600). lia.
Defined.

(** *** The modem *)

(** X14, at the End token published to a modem that answers [ERROR]. *)
Lemma mqtt_pub_on_text_witness :
  let s := Comm.mkSerial [] [published (Py.lit "ERROR" ++ Comm.CRLF)] [] in
  let p := Comm.PStr Comm.image_end in
  encodable Comm.default_topic /\
  (forall str, p = Comm.PStr str -> encodable str) /\
  text_channel s /\
  exists s',
    Comm.mqtt_pub p Comm.default_topic (payload_raw p) s = (Return tt, s') /\
    writes (Comm.trace s') = writes (Comm.trace s) ++ mqtt_pub_writes p Comm.default_topic /\
    (slept (Comm.trace s) + 9 <= slept (Comm.trace s') /\
     slept (Comm.trace s') <= slept (Comm.trace s) + (93 # 10))%Q.
Proof.
  cbn zeta.
  assert (H1 : encodable Comm.default_topic) by (vm_compute; eauto).
  assert (H2 : forall str, Comm.PStr Comm.image_end = Comm.PStr str -> encodable str).
  { intros str [= <-]. vm_compute. eauto. }
  assert (H3 : text_channel (Comm.mkSerial [] [published (Py.lit "ERROR" ++ Comm.CRLF)] [])).
  { split; [vm_compute; eauto|]. repeat constructor. vm_compute. eauto. }
  repeat (split; [done|]).
  apply (mqtt_pub_on_text (Comm.PStr Comm.image_end) Comm.default_topic _ H1 H2 H3).
Defined.

(** X16, at a frame of one chunk sent to a modem that never answers. *)
Lemma mqtt_sendimg_on_text_witness :
  let s := Comm.mkSerial [] [] [] in
  Forall encodable Sim.ten_fields /\
  text_channel s /\
  exists s',
    Comm.mqtt_sendimg [[xff; xd8]] Sim.ten_fields s = (Return tt, s') /\
    writes (Comm.trace s') =
      writes (Comm.trace s) ++
      flat_map (fun p => mqtt_pub_writes p Comm.default_topic)
               (frame_payloads [[xff; xd8]] Sim.ten_fields) /\
    (slept (Comm.trace s) + 9 * inject_Z (Z.of_nat 1 + 2) <= slept (Comm.trace s') /\
     slept (Comm.trace s')
       <= slept (Comm.trace s) + (93 # 10) * inject_Z (Z.of_nat 1 + 2))%Q.
Proof.
  cbn zeta.
  assert (H1 : Forall encodable Sim.ten_fields).
  { repeat constructor; vm_compute; eauto. }
  assert (H2 : text_channel (Comm.mkSerial [] [] [])).
  { split; [vm_compute; eauto|constructor]. }
  repeat (split; [done|]).
  apply (mqtt_sendimg_on_text [[xff; xd8]] Sim.ten_fields _ H1 H2).
Defined.

(** X17, at a modem that answers [ERROR] once and then nothing. *)
Lemma modem_sequences_fail_open_witness :
  let s := Comm.mkSerial [] [published (Py.lit "ERROR" ++ Comm.CRLF)] [] in
  encodable Comm.default_topic /\ encodable (Py.lit "07000000000") /\
  encodable (Py.lit "hello") /\ text_channel s /\
  (exists a s', Modem.init_checks s = (Return a, s') /\ text_channel s') /\
  (exists a s', Modem.send_sms (Py.lit "07000000000") (Py.lit "hello") s = (Return a, s') /\
                text_channel s').
Proof.
  cbn zeta.
  assert (H1 : encodable Comm.default_topic) by (vm_compute; eauto).
  assert (H2 : encodable (Py.lit "07000000000")) by (vm_compute; eauto).
  assert (H3 : encodable (Py.lit "hello")) by (vm_compute; eauto).
  assert (H4 : text_channel (Comm.mkSerial [] [published (Py.lit "ERROR" ++ Comm.CRLF)] [])).
  { split; [vm_compute; eauto|]. repeat constructor. vm_compute. eauto. }
  repeat (split; [done|]).
  destruct (modem_sequences_fail_open _ _ _ H1 H2 H3) as (Hinit & _ & _ & _ & Hsms & _).
  split; [by apply Hinit|by apply Hsms].
Defined.

(** X18, at a modem that answers [ERROR] once and then nothing. *)
Lemma set_up_on_text_witness :
  let s := Comm.mkSerial [] [published (Py.lit "ERROR" ++ Comm.CRLF)] [] in
  text_channel s /\
  exists s',
    Main.set_up s = (Return tt, s') /\ text_channel s' /\
    (slept (Comm.trace s) + 32 <= slept (Comm.trace s') /\
     slept (Comm.trace s') <= slept (Comm.trace s) + (342 # 10))%Q.
Proof.
  cbn zeta.
  assert (H : text_channel (Comm.mkSerial [] [published (Py.lit "ERROR" ++ Comm.CRLF)] [])).
  { split; [vm_compute; eauto|]. repeat constructor. vm_compute. eauto. }
  split; [done|]. apply (set_up_on_text _ H).
Defined.


(** *** Chunks and metadata *)

(** X20, at chunk size -1: the five bytes of [Sim.jpeg] give no chunk. *)
Lemma imgToChunks_nonpositive_witness :
  -1 <= 0 /\ Comm.imgToChunks Sim.jpeg (-1) = Return [].
Proof.
  split; [lia|]. apply (imgToChunks_nonpositive Sim.jpeg (-1)). lia.
Defined.

(** X21, at [Sim.jpeg] and the default chunk size. *)
Lemma chunk_payloads_are_bounded_witness :
  0 < 5120 /\
  exists segs,
    Comm.imgToChunks Sim.jpeg 5120 = Return segs /\
    Forall (fun seg =>
              let p := Comm.PBytes (Py.hexlify seg) in
              (0 < Comm.payload_len p)%nat /\
              Z.of_nat (Comm.payload_len p) <= 2 * 5120 /\
              (5120 = 5120 -> Z.of_nat (Comm.payload_len p) <= 10240)) segs.
Proof.
  split; [lia|]. apply (chunk_payloads_are_bounded Sim.jpeg 5120). lia.
Defined.

Ltac plain_tac :=
  repeat (constructor; [repeat split; discriminate|]); constructor.

(** X23, at headers as [main()] builds them. *)
Lemma main_headers_give_ten_fields_witness :
  let readings := map Py.lit ["20.5"; "40.25"; "1000.1"; "1.5"; "2.5"; "3.5"]%string in
  let time := Py.lit "'12-00-00_01-03-21'" in
  plain (Py.lit "53.2") /\ plain (Py.lit "-20.1") /\ plain (Py.lit "3") /\ plain time /\
  Forall plain readings /\ length readings = 6%nat /\
  let md := S3.parse_metadata
              (Comm.start_header
                 (Main.headers (Py.lit "53.2") (Py.lit "-20.1") (Py.lit "3")
                               (time :: readings))) in
  md = Py.lit "53.2" :: Py.lit "-20.1" :: Py.lit "3" :: time ::
         map (fun e => 32%N :: e) readings /\
  length md = 10%nat.
Proof.
  cbn zeta.
  assert (H1 : plain (Py.lit "53.2")) by plain_tac.
  assert (H2 : plain (Py.lit "-20.1")) by plain_tac.
  assert (H3 : plain (Py.lit "3")) by plain_tac.
  assert (H4 : plain (Py.lit "'12-00-00_01-03-21'")) by plain_tac.
  assert (H5 : Forall plain
                 (map Py.lit ["20.5"; "40.25"; "1000.1"; "1.5"; "2.5"; "3.5"]%string)).
  { repeat (constructor; [plain_tac|]). constructor. }
  repeat (split; [done|]).
  apply (main_headers_give_ten_fields _ _ _ _ _ H1 H2 H3 H4 H5 eq_refl).
Defined.

(** X25, at a frame with three headers. *)
Lemma short_frame_is_dropped_witness :
  let objs := [Sim.short_start_object 10; Sim.chunk_object [xff; xd8] 11;
               Sim.end_object 12] in
  Forall encodable Sim.three_fields /\
  (length (flat_map (fun h => Py.split 44 (cleaned h)) Sim.three_fields) < 10)%nat /\
  map S3.Body objs = map payload_bytes (frame_payloads [[xff; xd8]] Sim.three_fields) /\
  S3.scan objs = Return [] /\ S3.pull objs S3.init = (Raise TypeError, S3.init).
Proof.
  cbn zeta.
  assert (H1 : Forall encodable Sim.three_fields).
  { repeat constructor; vm_compute; eauto. }
  assert (H2 : (length (flat_map (fun h => Py.split 44 (cleaned h)) Sim.three_fields)
                < 10)%nat) by (vm_compute; lia).
  assert (H3 : map S3.Body [Sim.short_start_object 10; Sim.chunk_object [xff; xd8] 11;
                            Sim.end_object 12]
               = map payload_bytes (frame_payloads [[xff; xd8]] Sim.three_fields))
    by (vm_compute; reflexivity).
  repeat (split; [done|]).
  apply (short_frame_is_dropped [[xff; xd8]] Sim.three_fields _ S3.init H1 H2 H3).
Defined.

(** X26, at [Sim.jpeg] and headers as [main()] builds them. *)
Lemma main_frame_is_recovered_witness :
  let readings := map Py.lit ["20.5"; "40.25"; "1000.1"; "1.5"; "2.5"; "3.5"]%string in
  let time := Py.lit "'12-00-00_01-03-21'" in
  let lat := Py.lit "53.2" in
  let lon := Py.lit "-20.1" in
  let num := Py.lit "3" in
  Forall (fun h => plain h /\ encodable h) (lat :: lon :: num :: time :: readings) /\
  length readings = 6%nat /\
  exists segs,
    Comm.imgToChunks Sim.jpeg 5120 = Return segs /\
    forall objs : list S3.s3object,
      map S3.Body objs
      = map payload_bytes
            (frame_payloads segs (Main.headers lat lon num (time :: readings))) ->
      exists ts,
        S3.scan objs
        = Return [(Sim.jpeg, ts,
                   Some (lat :: lon :: num :: time :: map (fun e => 32%N :: e) readings))].
Proof.
  cbn zeta.
  assert (H : Forall (fun h => plain h /\ encodable h)
                (Py.lit "53.2" :: Py.lit "-20.1" :: Py.lit "3"
                   :: Py.lit "'12-00-00_01-03-21'"
                   :: map Py.lit ["20.5"; "40.25"; "1000.1"; "1.5"; "2.5"; "3.5"]%string)).
  { repeat (constructor; [split; [plain_tac|vm_compute; eauto]|]). constructor. }
  split; [done|]. split; [reflexivity|].
  apply (main_frame_is_recovered Sim.jpeg _ _ _ _ _ H eq_refl).
Defined.

(** X27, at [Sim.jpeg] sent to a modem that never answers. *)
Lemma send_on_text_witness :
  let s := Comm.mkSerial [] [] [] in
  Forall encodable Sim.ten_fields /\
  text_channel s /\
  exists segs s',
    Comm.imgToChunks Sim.jpeg 5120 = Return segs /\
    Z.of_nat (length segs) = (Z.of_nat (length Sim.jpeg) + 5119) / 5120 /\
    Main.send Sim.jpeg Sim.ten_fields s = (Return tt, s') /\
    writes (Comm.trace s') =
      writes (Comm.trace s) ++
      flat_map (fun p => mqtt_pub_writes p Comm.default_topic)
               (frame_payloads segs Sim.ten_fields) /\
    (slept (Comm.trace s) + 9 * inject_Z (Z.of_nat (length segs) + 2)
       <= slept (Comm.trace s') /\
     slept (Comm.trace s')
       <= slept (Comm.trace s) + (93 # 10) * inject_Z (Z.of_nat (length segs) + 2))%Q.
Proof.
  cbn zeta.
  assert (H1 : Forall encodable Sim.ten_fields).
  { repeat constructor; vm_compute; eauto. }
  assert (H2 : text_channel (Comm.mkSerial [] [] [])).
  { split; [vm_compute; eauto|constructor]. }
  repeat (split; [done|]).
  apply (send_on_text Sim.jpeg Sim.ten_fields _ H1 H2).
Defined.

(** X1, at [Sim.jpeg] cut in chunks of two bytes, with ten headers. *)
Lemma sent_frame_is_recovered_witness :
  0 < 2 /\ Forall encodable Sim.ten_fields /\ (10 <= length Sim.ten_fields)%nat /\
  exists segs,
    Comm.imgToChunks Sim.jpeg 2 = Return segs /\
    forall objs : list S3.s3object,
      map S3.Body objs = map payload_bytes (frame_payloads segs Sim.ten_fields) ->
      exists ts md,
        S3.scan objs = Return [(Sim.jpeg, ts, Some md)] /\
        (length Sim.ten_fields <= length md)%nat.
Proof.
  assert (H1 : Forall encodable Sim.ten_fields).
  { repeat constructor; vm_compute; eauto. }
  split; [lia|]. split; [done|]. split; [vm_compute; lia|].
  apply (sent_frame_is_recovered Sim.jpeg 2 Sim.ten_fields ltac:(lia) H1).
  vm_compute. lia.
Defined.
